(** * flying_game: a shallow embedding of the glider simulator

    The JavaScript sources embedded here are [InputManager.js]
    (classes [InputManager] and [LocalTerrainProvider]), [Glider.js]
    and the per-frame loop of [main.js].

    Numbers.  A JavaScript number is modelled in exact arithmetic:
    rationals ([Q]) where the code only adds, multiplies, divides,
    compares and floors (input axes, heightmap sampling), and real
    numbers ([R]) where it calls [Math.sin], [Math.cos], [Math.acos],
    [Math.atan2] or takes a vector length (glider dynamics, boundary
    steering); [Q2R] embeds the former in the latter where the frame
    loop passes values on.  Rounding of IEEE doubles (and of the
    [Float32Array] that holds the heights), NaN and signed zeros are
    not modelled; a read outside an array, which JavaScript turns into
    [undefined] and then NaN, is modelled by [None].  The meshes, the
    camera, the HUD and the debug overlay only read the state and are
    left out. *)

From Stdlib Require Import ZArith QArith Qround Qminmax Qreals Qpower.
From Stdlib Require Import Reals Lra Lia Psatz List Bool String.
Import ListNotations.

(* ================================================================= *)
(** ** InputManager.js: class InputManager *)

Module InputManager.
Local Open Scope Q_scope.

(** [this.keys] *)
Record Keys : Type := mkKeys
  { up : bool; down : bool; left : bool; right : bool }.

Record t : Type := mk
  { pitch : Q;            (* -1 to 1 (down to up) *)
    roll : Q;             (* -1 to 1 (left to right) *)
    keys : Keys;
    touchActive : bool;
    touchStartX : Q;
    touchStartY : Q;
    touchCurrentX : Q;
    touchCurrentY : Q;
    touchZone : bool      (* does the element 'touch-zone' exist? *) }.

Definition constructor (hasTouchZone : bool) : t :=
  {| pitch := 0; roll := 0;
     keys := {| up := false; down := false; left := false; right := false |};
     touchActive := false;
     touchStartX := 0; touchStartY := 0;
     touchCurrentX := 0; touchCurrentY := 0;
     touchZone := hasTouchZone |}.

Definition with_keys (k : Keys) (s : t) : t :=
  {| pitch := pitch s; roll := roll s; keys := k;
     touchActive := touchActive s;
     touchStartX := touchStartX s; touchStartY := touchStartY s;
     touchCurrentX := touchCurrentX s; touchCurrentY := touchCurrentY s;
     touchZone := touchZone s |}.

Definition with_axes (p r : Q) (s : t) : t :=
  {| pitch := p; roll := r; keys := keys s;
     touchActive := touchActive s;
     touchStartX := touchStartX s; touchStartY := touchStartY s;
     touchCurrentX := touchCurrentX s; touchCurrentY := touchCurrentY s;
     touchZone := touchZone s |}.

Definition with_touch (a : bool) (sx sy cx cy : Q) (s : t) : t :=
  {| pitch := pitch s; roll := roll s; keys := keys s;
     touchActive := a;
     touchStartX := sx; touchStartY := sy;
     touchCurrentX := cx; touchCurrentY := cy;
     touchZone := touchZone s |}.

Definition code_is (code a b : string) : bool :=
  (String.eqb code a || String.eqb code b)%bool.

(** [switch (e.code)] of [handleKeyDown] and [handleKeyUp]: the flag
    of the matching key is set to [v], other codes change nothing. *)
Definition set_key (code : string) (v : bool) (k : Keys) : Keys :=
  if code_is code "ArrowUp" "KeyW" then
    {| up := v; down := down k; left := left k; right := right k |}
  else if code_is code "ArrowDown" "KeyS" then
    {| up := up k; down := v; left := left k; right := right k |}
  else if code_is code "ArrowLeft" "KeyA" then
    {| up := up k; down := down k; left := v; right := right k |}
  else if code_is code "ArrowRight" "KeyD" then
    {| up := up k; down := down k; left := left k; right := v |}
  else k.

Definition handleKeyDown (code : string) (s : t) : t :=
  with_keys (set_key code true (keys s)) s.

Definition handleKeyUp (code : string) (s : t) : t :=
  with_keys (set_key code false (keys s)) s.

(** The four listeners of [setupTouchListeners]; none is installed
    when the touch zone is missing. *)
Definition touchstart (clientX clientY : Q) (s : t) : t :=
  if touchZone s then with_touch true clientX clientY clientX clientY s
  else s.

Definition touchmove (clientX clientY : Q) (s : t) : t :=
  if touchZone s then
    if touchActive s
    then with_touch true (touchStartX s) (touchStartY s) clientX clientY s
    else s
  else s.

Definition touchend (s : t) : t :=
  if touchZone s
  then with_touch false (touchStartX s) (touchStartY s)
                  (touchCurrentX s) (touchCurrentY s) s
  else s.

Definition touchcancel (s : t) : t := touchend s.

Definition maxDelta : Q := 100. (* pixels for full deflection *)

Definition update (s : t) : t :=
  (* Process keyboard input *)
  let p :=
    if up (keys s) then Qmin (pitch s + 0.05) 1
    else if down (keys s) then Qmax (pitch s - 0.05) (-1)
    else pitch s * 0.9 in
  let r :=
    if left (keys s) then Qmax (roll s - 0.05) (-1)
    else if right (keys s) then Qmin (roll s + 0.05) 1
    else roll s * 0.9 in
  (* Process touch input (overrides keyboard if active) *)
  if touchActive s then
    let deltaX := touchCurrentX s - touchStartX s in
    let deltaY := touchCurrentY s - touchStartY s in
    with_axes (Qmax (-1) (Qmin 1 (- deltaY / maxDelta)))
              (Qmax (-1) (Qmin 1 (deltaX / maxDelta))) s
  else with_axes p r s.

Definition getPitch (s : t) : Q := pitch s.
Definition getRoll (s : t) : Q := roll s.

(** What can happen to an input manager between two frames. *)
Inductive Event : Type :=
| KeyDown (code : string)
| KeyUp (code : string)
| TouchStart (clientX clientY : Q)
| TouchMove (clientX clientY : Q)
| TouchEnd
| TouchCancel
| Update.

Definition dispatch (s : t) (e : Event) : t :=
  match e with
  | KeyDown c => handleKeyDown c s
  | KeyUp c => handleKeyUp c s
  | TouchStart x y => touchstart x y s
  | TouchMove x y => touchmove x y s
  | TouchEnd => touchend s
  | TouchCancel => touchcancel s
  | Update => update s
  end.

Definition run (evs : list Event) (s : t) : t := fold_left dispatch evs s.

Definition in_range (q : Q) : Prop := -1 <= q /\ q <= 1.

End InputManager.

(* ================================================================= *)
(** ** InputManager.js: class LocalTerrainProvider *)

Module LocalTerrainProvider.
Local Open Scope Q_scope.

Definition Qltb (a b : Q) : bool := negb (Qle_bool b a).

(** [options.k || d]: a missing or falsy (zero) option gives [d]. *)
Definition or_default (o : option Q) (d : Q) : Q :=
  match o with
  | Some q => if Qeq_bool q 0 then d else q
  | None => d
  end.

Definition or_default_Z (o : option Z) (d : Z) : Z :=
  match o with
  | Some n => if (n =? 0)%Z then d else n
  | None => d
  end.

Record Options : Type := mkOptions
  { opt_width : option Q;
    opt_depth : option Q;
    opt_maxHeight : option Q;
    opt_minHeight : option Q;
    opt_segments : option Z }.

Definition no_options : Options :=
  {| opt_width := None; opt_depth := None; opt_maxHeight := None;
     opt_minHeight := None; opt_segments := None |}.

Record t : Type := mk
  { terrainWidth : Q;             (* world units (meters) *)
    terrainDepth : Q;
    maxHeight : Q;                (* pixel value 255 = maxHeight meters *)
    minHeight : Q;
    segments : Z;
    heightData : option (list Q); (* null until the heightmap is loaded *)
    heightDataWidth : Z;
    heightDataHeight : Z;
    ready : bool }.

Definition constructor (options : Options) : t :=
  {| terrainWidth := or_default (opt_width options) 3000;
     terrainDepth := or_default (opt_depth options) 3000;
     maxHeight := or_default (opt_maxHeight options) 8849;
     minHeight := or_default (opt_minHeight options) 0;
     segments := or_default_Z (opt_segments options) 256;
     heightData := None;
     heightDataWidth := 0;
     heightDataHeight := 0;
     ready := false |}.

(** The decoded heightmap: [img.width], [img.height] and the RGBA
    bytes that [getImageData] returns, four per pixel. *)
Record Image : Type := mkImage
  { img_width : Z; img_height : Z; img_pixels : list Z }.

(** [loadHeightmap]: [None] is the rejected promise of [img.onerror].
    Height [i] comes from the red channel of pixel [i]. *)
Definition loadHeightmap (img : option Image) (tp : t) : option t :=
  match img with
  | None => None
  | Some im =>
      let n := Z.to_nat (img_width im * img_height im) in
      let height_of (i : nat) : Q :=
        let pixelValue := nth (i * 4) (img_pixels im) 0%Z in
        minHeight tp
        + (inject_Z pixelValue / 255) * (maxHeight tp - minHeight tp) in
      Some {| terrainWidth := terrainWidth tp;
              terrainDepth := terrainDepth tp;
              maxHeight := maxHeight tp;
              minHeight := minHeight tp;
              segments := segments tp;
              heightData := Some (map height_of (seq 0 n));
              heightDataWidth := img_width im;
              heightDataHeight := img_height im;
              ready := ready tp |}
  end.

(** [this.heightData[i]]; [None] when there is no number there. *)
Definition sample (tp : t) (i : Z) : option Q :=
  match heightData tp with
  | None => None
  | Some d => if (i <? 0)%Z then None else nth_error d (Z.to_nat i)
  end.

(** Sample the heightmap at UV coordinates (0-1), bilinearly. *)
Definition sampleHeightmap (tp : t) (u v : Q) : option Q :=
  (* Clamp UV to valid range *)
  let u := Qmax 0 (Qmin 1 u) in
  let v := Qmax 0 (Qmin 1 v) in
  (* Convert to pixel coordinates *)
  let px := u * inject_Z (heightDataWidth tp - 1) in
  let py := v * inject_Z (heightDataHeight tp - 1) in
  (* Get integer and fractional parts *)
  let x0 := Qfloor px in
  let y0 := Qfloor py in
  let x1 := Z.min (x0 + 1) (heightDataWidth tp - 1) in
  let y1 := Z.min (y0 + 1) (heightDataHeight tp - 1) in
  let fx := px - inject_Z x0 in
  let fy := py - inject_Z y0 in
  (* Sample four corners *)
  match sample tp (y0 * heightDataWidth tp + x0),
        sample tp (y0 * heightDataWidth tp + x1),
        sample tp (y1 * heightDataWidth tp + x0),
        sample tp (y1 * heightDataWidth tp + x1) with
  | Some h00, Some h10, Some h01, Some h11 =>
      (* Bilinear interpolation *)
      let h0 := h00 * (1 - fx) + h10 * fx in
      let h1 := h01 * (1 - fx) + h11 * fx in
      Some (h0 * (1 - fy) + h1 * fy)
  | _, _, _, _ => None
  end.

(** Get ground height at world coordinates. *)
Definition getHeightAt (tp : t) (x z : Q) : option Q :=
  match heightData tp with
  | None => Some 0
  | Some _ =>
      (* Convert world coordinates to UV (0-1) *)
      let u := (x + terrainWidth tp / 2) / terrainWidth tp in
      let v := (z + terrainDepth tp / 2) / terrainDepth tp in
      (* Return 0 if outside terrain bounds *)
      if (Qltb u 0 || Qltb 1 u || Qltb v 0 || Qltb 1 v)%bool then Some 0
      else sampleHeightmap tp u v
  end.

Record Bounds : Type := mkBounds
  { minX : Q; maxX : Q; minZ : Q; maxZ : Q; width : Q; depth : Q }.

Definition getBounds (tp : t) : Bounds :=
  {| minX := - terrainWidth tp / 2;
     maxX := terrainWidth tp / 2;
     minZ := - terrainDepth tp / 2;
     maxZ := terrainDepth tp / 2;
     width := terrainWidth tp;
     depth := terrainDepth tp |}.

(** The four samples and the weights the interpolation combines at
    clamped coordinates [u], [v]. *)
Definition cell_x0 (tp : t) (u : Q) : Z :=
  Qfloor (u * inject_Z (heightDataWidth tp - 1)).
Definition cell_y0 (tp : t) (v : Q) : Z :=
  Qfloor (v * inject_Z (heightDataHeight tp - 1)).
Definition cell_x1 (tp : t) (u : Q) : Z :=
  Z.min (cell_x0 tp u + 1) (heightDataWidth tp - 1).
Definition cell_y1 (tp : t) (v : Q) : Z :=
  Z.min (cell_y0 tp v + 1) (heightDataHeight tp - 1).
Definition frac_x (tp : t) (u : Q) : Q :=
  u * inject_Z (heightDataWidth tp - 1) - inject_Z (cell_x0 tp u).
Definition frac_y (tp : t) (v : Q) : Q :=
  v * inject_Z (heightDataHeight tp - 1) - inject_Z (cell_y0 tp v).

(** A loaded provider: the grid is [w] by [h], both positive, and the
    height array holds [w * h] samples. *)
Definition loaded (tp : t) (d : list Q) : Prop :=
  heightData tp = Some d /\
  (1 <= heightDataWidth tp)%Z /\ (1 <= heightDataHeight tp)%Z /\
  Z.of_nat (List.length d) = (heightDataWidth tp * heightDataHeight tp)%Z.

(** The interpolation formula in the words of the specification:
    [h0 = h00*(1-fx) + h10*fx], [h1 = h01*(1-fx) + h11*fx],
    [result = h0*(1-fy) + h1*fy]. *)
Definition bilinear (h00 h10 h01 h11 fx fy : Q) : Q :=
  (h00 * (1 - fx) + h10 * fx) * (1 - fy) + (h01 * (1 - fx) + h11 * fx) * fy.

(** A grid given directly by its samples, row by row. *)
Definition of_grid (w h : Z) (d : list Q) : t :=
  {| terrainWidth := 3000; terrainDepth := 3000;
     maxHeight := 8849; minHeight := 0; segments := 256;
     heightData := Some d; heightDataWidth := w; heightDataHeight := h;
     ready := true |}.

End LocalTerrainProvider.

(* ================================================================= *)
(** ** The parts of three.js and of [Math] that the glider uses *)

Module Three.
Local Open Scope R_scope.

(** three.js is a dependency of the game, not part of its repository:
    [Vector3], [Quaternion] and [Euler] are written out from the
    library's formulas, on real numbers. *)
Record Vector3 : Type := vec3 { x : R; y : R; z : R }.

Record Quaternion : Type := quat { qx : R; qy : R; qz : R; qw : R }.

Definition add (a b : Vector3) : Vector3 :=
  vec3 (x a + x b) (y a + y b) (z a + z b).

Definition multiplyScalar (v : Vector3) (s : R) : Vector3 :=
  vec3 (x v * s) (y v * s) (z v * s).

Definition divideScalar (v : Vector3) (s : R) : Vector3 :=
  multiplyScalar v (1 / s).

Definition dot (a b : Vector3) : R := x a * x b + y a * y b + z a * z b.

Definition length (v : Vector3) : R :=
  sqrt (x v * x v + y v * y v + z v * z v).

(** [divideScalar(this.length() || 1)] *)
Definition normalize (v : Vector3) : Vector3 :=
  divideScalar v (if Req_dec_T (length v) 0 then 1 else length v).

Definition identity : Quaternion := quat 0 0 0 1.

(** [Quaternion.setFromEuler] for an [Euler(ex, ey, ez, 'YXZ')]. *)
Definition setFromEuler_YXZ (ex ey ez : R) : Quaternion :=
  let c1 := cos (ex / 2) in
  let c2 := cos (ey / 2) in
  let c3 := cos (ez / 2) in
  let s1 := sin (ex / 2) in
  let s2 := sin (ey / 2) in
  let s3 := sin (ez / 2) in
  quat (s1 * c2 * c3 + c1 * s2 * s3)
       (c1 * s2 * c3 - s1 * c2 * s3)
       (c1 * c2 * s3 - s1 * s2 * c3)
       (c1 * c2 * c3 + s1 * s2 * s3).

Definition applyQuaternion (v : Vector3) (q : Quaternion) : Vector3 :=
  (* calculate quat * vector *)
  let ix := qw q * x v + qy q * z v - qz q * y v in
  let iy := qw q * y v + qz q * x v - qx q * z v in
  let iz := qw q * z v + qx q * y v - qy q * x v in
  let iw := - qx q * x v - qy q * y v - qz q * z v in
  (* calculate result * inverse quat *)
  vec3 (ix * qw q + iw * - qx q + iy * - qz q - iz * - qy q)
       (iy * qw q + iw * - qy q + iz * - qx q - ix * - qz q)
       (iz * qw q + iw * - qz q + ix * - qy q - iy * - qx q).

Definition radToDeg (radians : R) : R := radians * (180 / PI).

(** [Math.atan2(y, x)] of ECMAScript, on real numbers (no signed
    zero): the angle of the point [(x, y)], between [-PI] and [PI]. *)
Definition atan2 (b a : R) : R :=
  if Rlt_dec 0 a then atan (b / a)
  else if Rlt_dec a 0 then
    if Rle_dec 0 b then atan (b / a) + PI else atan (b / a) - PI
  else if Rlt_dec 0 b then PI / 2
  else if Rlt_dec b 0 then - PI / 2
  else 0.

End Three.

(* ================================================================= *)
(** ** Glider.js: class Glider *)

Module Glider.
Import Three.
Local Open Scope R_scope.

(** Physics constants: fields set once by the constructor and never
    assigned again. *)
Definition gravity : R := 9.81.          (* m/s^2 *)
Definition maxSpeed : R := 80.           (* m/s *)
Definition minSpeed : R := 10.           (* m/s - stall speed *)
Definition baseDrag : R := 0.02.
Definition liftCoefficient : R := 0.8.
Definition pitchRate : R := 1.5.         (* radians per second *)
Definition rollRate : R := 2.0.
Definition yawFromRoll : R := 0.5.

Record t : Type := mk
  { position : Vector3;
    velocity : Vector3;
    rotation : Quaternion;
    pitch : R;              (* rotation around X axis (nose up/down) *)
    roll : R;               (* rotation around Z axis (banking) *)
    yaw : R;                (* rotation around Y axis (heading) *)
    pitchInput : R;
    rollInput : R;
    crashed : bool;
    debugLift : R;
    debugAoA : R;
    mesh_position : Vector3;
    mesh_quaternion : Quaternion }.

Definition set_position (p : Vector3) (g : t) : t :=
  mk p (velocity g) (rotation g) (pitch g) (roll g) (yaw g)
     (pitchInput g) (rollInput g) (crashed g) (debugLift g) (debugAoA g)
     (mesh_position g) (mesh_quaternion g).

Definition set_velocity (v : Vector3) (g : t) : t :=
  mk (position g) v (rotation g) (pitch g) (roll g) (yaw g)
     (pitchInput g) (rollInput g) (crashed g) (debugLift g) (debugAoA g)
     (mesh_position g) (mesh_quaternion g).

Definition set_orientation (q : Quaternion) (p r w : R) (g : t) : t :=
  mk (position g) (velocity g) q p r w
     (pitchInput g) (rollInput g) (crashed g) (debugLift g) (debugAoA g)
     (mesh_position g) (mesh_quaternion g).

Definition set_yaw (w : R) (g : t) : t :=
  set_orientation (rotation g) (pitch g) (roll g) w g.

Definition set_crashed (c : bool) (g : t) : t :=
  mk (position g) (velocity g) (rotation g) (pitch g) (roll g) (yaw g)
     (pitchInput g) (rollInput g) c (debugLift g) (debugAoA g)
     (mesh_position g) (mesh_quaternion g).

Definition set_debugLift (l : R) (g : t) : t :=
  mk (position g) (velocity g) (rotation g) (pitch g) (roll g) (yaw g)
     (pitchInput g) (rollInput g) (crashed g) l (debugAoA g)
     (mesh_position g) (mesh_quaternion g).

Definition set_debugAoA (a : R) (g : t) : t :=
  mk (position g) (velocity g) (rotation g) (pitch g) (roll g) (yaw g)
     (pitchInput g) (rollInput g) (crashed g) (debugLift g) a
     (mesh_position g) (mesh_quaternion g).

(** The scene only receives the mesh. *)
Definition Scene : Type := unit.

(** [constructor(scene)]: one parameter; further arguments of a
    [new Glider(...)] expression are dropped. *)
Definition constructor (scene : Scene) : t :=
  {| position := vec3 0 1000 0;      (* Start at 1000m *)
     velocity := vec3 0 0 (-20);     (* Initial forward speed (m/s) *)
     rotation := identity;
     pitch := 0; roll := 0; yaw := 0;
     pitchInput := 0; rollInput := 0;
     crashed := false;
     debugLift := 0; debugAoA := 0;
     mesh_position := vec3 0 0 0;
     mesh_quaternion := identity |}.

Definition setInput (pitchInput rollInput : R) (g : t) : t :=
  mk (position g) (velocity g) (rotation g) (pitch g) (roll g) (yaw g)
     pitchInput rollInput (crashed g) (debugLift g) (debugAoA g)
     (mesh_position g) (mesh_quaternion g).

Definition getSpeed (g : t) : R := length (velocity g).
Definition getSpeedKmh (g : t) : R := getSpeed g * 3.6.
Definition getAltitude (g : t) : R := y (position g).
Definition getForwardDirection (g : t) : Vector3 :=
  applyQuaternion (vec3 0 0 (-1)) (rotation g).

Definition updateRotation (deltaTime : R) (g : t) : t :=
  (* Apply pitch input *)
  let pitch1 := pitch g + pitchInput g * pitchRate * deltaTime in
  let pitch2 := Rmax (- PI / 3) (Rmin (PI / 3) pitch1) in
  (* Apply roll input *)
  let roll1 := roll g + rollInput g * rollRate * deltaTime in
  let roll2 := Rmax (- PI / 2) (Rmin (PI / 2) roll1) in
  (* Derive yaw from roll (banking turns) *)
  let yawRate := sin roll2 * yawFromRoll * getSpeed g / 20 in
  let yaw1 := yaw g + yawRate * deltaTime in
  (* Auto-level roll slightly when no input *)
  let roll3 :=
    if Rlt_dec (Rabs (rollInput g)) 0.1
    then roll2 * (1 - 0.5 * deltaTime) else roll2 in
  (* Build quaternion from euler angles (YXZ order for flight) *)
  set_orientation (setFromEuler_YXZ pitch2 yaw1 roll3) pitch2 roll3 yaw1 g.

(** The blocks of [updatePhysics], in the order of the source.
    [speed], [forward], [velocityDir] and [angleOfAttack] are the
    constants computed at the top of the method. *)

Definition angleOfAttack (forward velocityDir : Vector3) : R :=
  acos (Rmax (-1) (Rmin 1 (dot forward velocityDir))).

(* === GRAVITY === *)
Definition applyGravity (deltaTime : R) (g : t) : t :=
  let v := velocity g in
  set_velocity (vec3 (x v) (y v - gravity * deltaTime) (z v)) g.

(* === LIFT === *)
Definition liftMagnitude (speed : R) (g : t) : R :=
  let speedFactor := Rmin (speed / 30) 1.5 in
  let pitchFactor := cos (pitch g) in
  liftCoefficient * speedFactor * pitchFactor * gravity.

Definition applyLift (speed deltaTime : R) (g : t) : t :=
  if Rgt_dec speed minSpeed then
    let liftDir := applyQuaternion (vec3 0 1 0) (rotation g) in
    set_velocity
      (add (velocity g)
           (multiplyScalar liftDir (liftMagnitude speed g * deltaTime)))
      (set_debugLift (liftMagnitude speed g) g)
  else set_debugLift 0 g.

(* === DRAG === *)
Definition dragCoeff (angleOfAttack : R) (g : t) : R :=
  baseDrag
  + (if Rgt_dec (pitch g) 0.1 then pitch g * 0.05 else 0)
  + angleOfAttack * 0.02.

Definition applyDrag (speed : R) (velocityDir : Vector3)
    (angleOfAttack deltaTime : R) (g : t) : t :=
  let dragForce := speed * speed * dragCoeff angleOfAttack g * deltaTime in
  if Rgt_dec speed 0.1 then
    set_velocity (add (velocity g) (multiplyScalar velocityDir (- dragForce))) g
  else g.

(* === DIVE (Energy conversion) === *)
Definition applyDive (forward : Vector3) (deltaTime : R) (g : t) : t :=
  if Rlt_dec (pitch g) (-0.1) then
    if Rlt_dec (y (velocity g)) 0 then
      let diveBoost := Rabs (pitch g) * 0.3 * deltaTime in
      if Rlt_dec (getSpeed g) maxSpeed then
        set_velocity
          (add (velocity g) (multiplyScalar forward (diveBoost * 10))) g
      else g
    else g
  else g.

(* Clamp max speed *)
Definition clampSpeed (g : t) : t :=
  if Rgt_dec (getSpeed g) maxSpeed then
    set_velocity (multiplyScalar (normalize (velocity g)) maxSpeed) g
  else g.

(* Update position *)
Definition integratePosition (deltaTime : R) (g : t) : t :=
  set_position
    (add (position g) (multiplyScalar (velocity g) deltaTime)) g.

Definition crash (g : t) : t :=
  set_velocity (vec3 0 0 0) (set_crashed true g).

(* Keep altitude non-negative (will be replaced by terrain collision) *)
Definition groundCheck (g : t) : t :=
  if Rlt_dec (y (position g)) 0 then crash g else g.

Definition updatePhysics (deltaTime : R) (g : t) : t :=
  let speed := getSpeed g in
  let forward := applyQuaternion (vec3 0 0 (-1)) (rotation g) in
  let velocityDir := normalize (velocity g) in
  let aoa := angleOfAttack forward velocityDir in
  let g := set_debugAoA (radToDeg aoa) g in
  let g := applyGravity deltaTime g in
  let g := applyLift speed deltaTime g in
  let g := applyDrag speed velocityDir aoa deltaTime g in
  let g := applyDive forward deltaTime g in
  let g := clampSpeed g in
  let g := integratePosition deltaTime g in
  groundCheck g.

Definition updateMesh (g : t) : t :=
  mk (position g) (velocity g) (rotation g) (pitch g) (roll g) (yaw g)
     (pitchInput g) (rollInput g) (crashed g) (debugLift g) (debugAoA g)
     (position g) (rotation g).

Definition update (deltaTime : R) (g : t) : t :=
  if crashed g then g
  else
    (* Clamp delta time to prevent physics explosions *)
    let deltaTime := Rmin deltaTime 0.1 in
    updateMesh (updatePhysics deltaTime (updateRotation deltaTime g)).

Definition reset (g : t) : t :=
  updateMesh
    (mk (vec3 0 1000 0) (vec3 0 0 (-20)) identity 0 0 0
        (pitchInput g) (rollInput g) false (debugLift g) (debugAoA g)
        (mesh_position g) (mesh_quaternion g)).

(** The two normalising loops of [applyBoundaryForce]; [fuel] bounds
    the number of iterations and [None] means it ran out. *)
Fixpoint while_above (fuel : nat) (d : R) : option R :=
  if Rgt_dec d PI then
    match fuel with
    | O => None
    | S n => while_above n (d - 2 * PI)
    end
  else Some d.

Fixpoint while_below (fuel : nat) (d : R) : option R :=
  if Rlt_dec d (- PI) then
    match fuel with
    | O => None
    | S n => while_below n (d + 2 * PI)
    end
  else Some d.

Definition normalizeDiff (fuel : nat) (yawDiff : R) : option R :=
  match while_above fuel yawDiff with
  | Some d => while_below fuel d
  | None => None
  end.

(** Apply boundary force to turn glider back inward. *)
Definition applyBoundaryForce (fuel : nat) (directionToCenter : Vector3)
    (strength : R) (g : t) : option t :=
  (* Gradually adjust yaw toward center *)
  let targetYaw := atan2 (x directionToCenter) (- z directionToCenter) in
  let yawDiff := targetYaw - yaw g in
  match normalizeDiff fuel yawDiff with
  | Some normalizedDiff =>
      Some (set_yaw (yaw g + normalizedDiff * strength * 0.02) g)
  | None => None
  end.

(** One frame of flight as the game drives it, and a run of frames. *)
Definition step (pitchInput rollInput dt : R) (g : t) : t :=
  update dt (setInput pitchInput rollInput g).

Definition steps (inputs : list (R * R * R)) (g : t) : t :=
  fold_left (fun g i => step (fst (fst i)) (snd (fst i)) (snd i) g) inputs g.

(** The force blocks of [updatePhysics], up to the speed clamp. *)
Definition forces (dt : R) (g : t) : t :=
  let speed := getSpeed g in
  let forward := applyQuaternion (vec3 0 0 (-1)) (rotation g) in
  let velocityDir := normalize (velocity g) in
  let aoa := angleOfAttack forward velocityDir in
  applyDive forward dt
    (applyDrag speed velocityDir aoa dt
       (applyLift speed dt (applyGravity dt (set_debugAoA (radToDeg aoa) g)))).

(** The limits the clamps are meant to keep. *)
Definition within_limits (g : t) : Prop :=
  Rabs (pitch g) <= PI / 3 /\ Rabs (roll g) <= PI / 2 /\ getSpeed g <= maxSpeed.

(** An input the game may pass to a step: both axes in [-1, 1] and a
    frame time that is not negative. *)
Definition valid_input (i : R * R * R) : Prop :=
  -1 <= fst (fst i) <= 1 /\ -1 <= snd (fst i) <= 1 /\ 0 <= snd i.

(** Lift acceleration and drag rate of a glider flying level (zero
    pitch, identity rotation) at speed [s] and angle of attack [a]. *)
Definition level_lift (s : R) : R :=
  if Rgt_dec s minSpeed
  then liftCoefficient * Rmin (s / 30) 1.5 * 1 * gravity else 0.

Definition level_drag (s a : R) : R :=
  if Rgt_dec s 0.1 then s * (baseDrag + 0 + a * 0.02) else 0.

(** One tick of 1/60 s of level flight with velocity [(0, vy, vz)]:
    the factor the drag leaves of the velocity, and the new velocity. *)
Definition level_k (vy vz : R) : R :=
  1 - level_drag (length (vec3 0 vy vz))
        (angleOfAttack (vec3 0 0 (-1)) (normalize (vec3 0 vy vz))) * (1 / 60).

Definition level_vy (vy vz : R) : R :=
  vy * level_k vy vz - gravity * (1 / 60)
  + level_lift (length (vec3 0 vy vz)) * (1 / 60).

Definition level_vz (vy vz : R) : R := vz * level_k vy vz.

(** Scenario A: [n] ticks of 1/60 s with neutral controls, from the
    state the constructor builds. *)
Definition scenarioA (n : nat) : t :=
  steps (repeat (0, 0, 1 / 60) n) (constructor tt).

(** What holds after every tick of the scenario. *)
Definition level_state (n : nat) (g : t) : Prop :=
  pitch g = 0 /\ roll g = 0 /\ yaw g = 0 /\
  x (velocity g) = 0 /\ -22.2 <= y (velocity g) <= 0 /\
  -20 <= z (velocity g) <= 20 /\
  1000 - INR n * 0.37 <= getAltitude g /\
  x (position g) = 0 /\ - INR n / 3 <= z (position g) <= INR n / 3 /\
  (crashed g = false ->
     getAltitude g <= 1000 - INR n * 0.0005 /\ 0 <= getAltitude g /\
     getAltitude g <= 1000.09 - INR n * 0.005 /\
     y (velocity g) <= - Rmin 0.3 (0.017 * INR n)).

(** A glider lying crashed at [(2800, -1, 0)], inside the buffer zone
    of the eastern edge of the stage. *)
Definition wreck : t :=
  crash (set_position (vec3 2800 (-1) 0) (constructor tt)).

End Glider.

(* ================================================================= *)
(** ** main.js: class Game *)

Module Game.
Import Three.
Local Open Scope R_scope.

Record t : Type := mk
  { glider : Glider.t;
    inputManager : InputManager.t;
    terrainProvider : LocalTerrainProvider.t;
    loading : bool }.

(** [loadTerrain]: the provider of the Grand Canyon stage. *)
Definition terrainOptions : LocalTerrainProvider.Options :=
  {| LocalTerrainProvider.opt_width := Some 5700%Q;
     LocalTerrainProvider.opt_depth := Some 3000%Q;
     LocalTerrainProvider.opt_maxHeight := Some 2000%Q;
     LocalTerrainProvider.opt_minHeight := None;
     LocalTerrainProvider.opt_segments := Some 256%Z |}.

Definition loadTerrain (img : option LocalTerrainProvider.Image)
  : option LocalTerrainProvider.t :=
  LocalTerrainProvider.loadHeightmap img
    (LocalTerrainProvider.constructor terrainOptions).

(** [init]: [None] when the heightmap fails to load.  The glider is
    created by [new Glider(this.scene, this.terrainProvider)]; the
    constructor of [Glider] has the single parameter [scene]. *)
Definition init (img : option LocalTerrainProvider.Image)
    (hasTouchZone : bool) : option t :=
  match loadTerrain img with
  | None => None
  | Some tp =>
      Some {| glider := Glider.constructor tt;
              inputManager := InputManager.constructor hasTouchZone;
              terrainProvider := tp;
              loading := false |}
  end.

Definition buffer : R := 100. (* Buffer zone before boundary *)

(** How far the glider is past the buffered interior, per axis. *)
Definition distToEdge_x (tp : LocalTerrainProvider.t) (pos : Vector3) : R :=
  let bounds := LocalTerrainProvider.getBounds tp in
  Rmax (x pos - (Q2R (LocalTerrainProvider.maxX bounds) - buffer))
       ((Q2R (LocalTerrainProvider.minX bounds) + buffer) - x pos).

Definition distToEdge_z (tp : LocalTerrainProvider.t) (pos : Vector3) : R :=
  let bounds := LocalTerrainProvider.getBounds tp in
  Rmax (z pos - (Q2R (LocalTerrainProvider.maxZ bounds) - buffer))
       ((Q2R (LocalTerrainProvider.minZ bounds) + buffer) - z pos).

Definition checkBoundaries (fuel : nat) (tp : LocalTerrainProvider.t)
    (g : Glider.t) : option Glider.t :=
  let pos := Glider.position g in
  let dx := distToEdge_x tp pos in
  let dz := distToEdge_z tp pos in
  let steer :=
    (* Calculate direction to center *)
    let toCenter := normalize (vec3 (- x pos) 0 (- z pos)) in
    (* Apply turning force based on how far past boundary *)
    let strength := Rmax dx dz / buffer in
    Glider.applyBoundaryForce fuel toCenter (Rmin strength 1) g in
  (* distToEdge.x > 0 || distToEdge.z > 0 *)
  if Rgt_dec dx 0 then steer
  else if Rgt_dec dz 0 then steer
  else Some g.

(** One frame of [animate], up to the crash check; camera, HUD, debug
    overlay and renderer only read the glider. *)
Definition animate (fuel : nat) (deltaTime : R) (game : t) : option t :=
  if loading game then Some game
  else
    (* Update input *)
    let im := InputManager.update (inputManager game) in
    (* Pass input to glider *)
    let g := Glider.setInput (Q2R (InputManager.getPitch im))
                             (Q2R (InputManager.getRoll im)) (glider game) in
    (* Update glider physics *)
    let g := Glider.update deltaTime g in
    (* Check boundaries *)
    match checkBoundaries fuel (terrainProvider game) g with
    | Some g' =>
        Some {| glider := g'; inputManager := im;
                terrainProvider := terrainProvider game;
                loading := loading game |}
    | None => None
    end.

(** [restart]: the handler of the restart button. *)
Definition restart (game : t) : t :=
  {| glider := Glider.reset (glider game);
     inputManager := inputManager game;
     terrainProvider := terrainProvider game;
     loading := loading game |}.

(** Nobody touches the controls: no key is held, no touch is active
    and both axes are at rest. *)
Definition hands_off (im : InputManager.t) : Prop :=
  InputManager.touchActive im = false /\
  InputManager.up (InputManager.keys im) = false /\
  InputManager.down (InputManager.keys im) = false /\
  InputManager.left (InputManager.keys im) = false /\
  InputManager.right (InputManager.keys im) = false /\
  Q2R (InputManager.pitch im) = 0 /\ Q2R (InputManager.roll im) = 0.

(** A run of frames, one per frame time. *)
Fixpoint frames (fuel : nat) (deltaTimes : list R) (game : t) : option t :=
  match deltaTimes with
  | [] => Some game
  | dt :: rest =>
      match animate fuel dt game with
      | Some game' => frames fuel rest game'
      | None => None
      end
  end.

(** A heightmap that is grey everywhere, pixel value 127: the ground
    is 2000 * 127 / 255 m high, a little over 996 m, on the whole stage. *)
Definition grey_heightmap : LocalTerrainProvider.Image :=
  LocalTerrainProvider.mkImage 2 2 (repeat 127%Z 16).

(** A heightmap that is white everywhere: 2000 m of rock under the
    whole stage. *)
Definition white_heightmap : LocalTerrainProvider.Image :=
  LocalTerrainProvider.mkImage 2 2 (repeat 255%Z 16).

(** The game with the wreck on the stage [tp]. *)
Definition wreck_game (tp : LocalTerrainProvider.t) : t :=
  {| glider := Glider.wreck;
     inputManager := InputManager.constructor false;
     terrainProvider := tp;
     loading := false |}.

End Game.

(* ================================================================= *)
(** ** InputManager.js: the vertex loop of LocalTerrainProvider.createMesh *)

Module TerrainMesh.
Import LocalTerrainProvider.
Local Open Scope Q_scope.

(** [geometry.attributes.position.array]: three numbers per vertex,
    x, y, z; [None] is NaN. *)
Definition Float32Array : Type := list (option Q).

(** [a[i]]: reading past the end gives [undefined], NaN in arithmetic. *)
Definition get (a : Float32Array) (i : nat) : option Q :=
  match nth_error a i with
  | Some v => v
  | None => None
  end.

(** [a[i] = v]: a write past the end of a typed array is dropped. *)
Fixpoint set (a : Float32Array) (i : nat) (v : option Q) : Float32Array :=
  match a with
  | [] => []
  | h :: r =>
      match i with
      | O => v :: r
      | S j => h :: set r j v
      end
  end.

(** Convert world position to UV coordinates (0-1). *)
Definition toU (tp : t) (x : Q) : Q := (x + terrainWidth tp / 2) / terrainWidth tp.
Definition toV (tp : t) (z : Q) : Q := (z + terrainDepth tp / 2) / terrainDepth tp.

(** [this.sampleHeightmap(u, v)] at a vertex; a NaN coordinate gives NaN. *)
Definition sampleAt (tp : t) (x z : option Q) : option Q :=
  match x, z with
  | Some x, Some z => sampleHeightmap tp (toU tp x) (toV tp z)
  | _, _ => None
  end.

Definition vertexCount (tp : t) : nat :=
  Z.to_nat ((segments tp + 1) * (segments tp + 1)).

(** The body of the loop for vertex [i]. *)
Definition displaceVertex (tp : t) (positions : Float32Array) (i : nat)
  : Float32Array :=
  let x := get positions (i * 3) in       (* X position *)
  let z := get positions (i * 3 + 2) in   (* Z position (after rotation) *)
  (* Sample height from heightmap *)
  let height := sampleAt tp x z in
  (* Set Y position (index 1 after rotation) *)
  set positions (i * 3 + 1) height.

(** Displace vertices based on heightmap: the loop of [createMesh] over
    the position array of the plane geometry. *)
Definition displaceVertices (tp : t) (positions : Float32Array) : Float32Array :=
  fold_left (displaceVertex tp) (seq 0 (vertexCount tp)) positions.

(** Sample [i] of the height array lies between [lo] and [hi]. *)
Definition heights_between (lo hi : Q) (d : list Q) : Prop :=
  Forall (fun h => lo <= h /\ h <= hi) d.

(** Every byte of the image is a byte. *)
Definition bytes (im : Image) : Prop :=
  Forall (fun p => (0 <= p <= 255)%Z) (img_pixels im).

End TerrainMesh.

(* ================================================================= *)
(** ** Glider.js: the operations of a glider as its users call them *)

Module GliderOps.
Import Three Glider.
Local Open Scope R_scope.

Inductive Action : Type :=
| SetInput (pitchInput rollInput : R)
| Update (deltaTime : R)
| Reset
| BoundaryForce (fuel : nat) (directionToCenter : Vector3) (strength : R).

Definition act (g : t) (a : Action) : option t :=
  match a with
  | SetInput p r => Some (setInput p r g)
  | Update dt => Some (update dt g)
  | Reset => Some (reset g)
  | BoundaryForce fuel dir s => applyBoundaryForce fuel dir s g
  end.

(** A run of operations; [None] when a loop runs out of fuel. *)
Fixpoint run (acts : list Action) (g : t) : option t :=
  match acts with
  | [] => Some g
  | a :: rest =>
      match act g a with
      | Some g' => run rest g'
      | None => None
      end
  end.

(** [Vector3.sub] of three.js. *)
Definition sub (a b : Vector3) : Vector3 :=
  vec3 (x a - x b) (y a - y b) (z a - z b).

Definition norm2 (q : Quaternion) : R :=
  qx q * qx q + qy q * qy q + qz q * qz q + qw q * qw q.

(** Flying means above the ground level 0; crashed means at rest
    below it. *)
Definition flight_state_ok (g : t) : Prop :=
  (crashed g = false -> 0 <= y (position g)) /\
  (crashed g = true -> velocity g = vec3 0 0 0 /\ y (position g) < 0).

(** The mesh shows the glider where it is. *)
Definition mesh_synced (g : t) : Prop :=
  mesh_position g = position g /\ mesh_quaternion g = rotation g.

(** The heading error [applyBoundaryForce] works on: target heading
    minus yaw, brought back by the two loops. *)
Definition headingError (fuel : nat) (directionToCenter : Vector3) (g : t)
  : option R :=
  normalizeDiff fuel
    (atan2 (x directionToCenter) (- z directionToCenter) - yaw g).

End GliderOps.

(* ================================================================= *)
(** ** The earlier main.js (boundary check on a square map) *)

Module GameV1.
Import Three.
Local Open Scope R_scope.

Definition buffer : R := 100. (* Buffer zone before boundary *)

(** [checkBoundaries] with [this.mapBoundary], half the side of the
    square map. *)
Definition checkBoundaries (fuel : nat) (mapBoundary : R) (g : Glider.t)
  : option Glider.t :=
  let pos := Glider.position g in
  (* Check if approaching boundaries *)
  let dx := Rabs (x pos) - (mapBoundary - buffer) in
  let dz := Rabs (z pos) - (mapBoundary - buffer) in
  let steer :=
    (* Calculate direction to center *)
    let toCenter := normalize (vec3 (- x pos) 0 (- z pos)) in
    (* Apply turning force based on how far past boundary *)
    let strength := Rmax dx dz / buffer in
    Glider.applyBoundaryForce fuel toCenter (Rmin strength 1) g in
  if Rgt_dec dx 0 then steer
  else if Rgt_dec dz 0 then steer
  else Some g.

End GameV1.

(* ================================================================= *)
(** ** ChaseCamera.js *)

Module ChaseCamera.
Import Three.
Local Open Scope R_scope.

(** The camera object: where it is and the point of its last
    [lookAt], if any. *)
Record Camera : Type := mkCamera
  { cam_position : Vector3; cam_target : option Vector3 }.

Record t : Type := mk
  { camera : Camera;
    currentPosition : Vector3;   (* for smoothing *)
    currentLookAt : Vector3 }.

(** Camera offset from glider (in local space): behind and above. *)
Definition offset : Vector3 := vec3 0 3 12.

(** Smoothing factors (lower = smoother/laggier). *)
Definition positionLerp : R := 0.05.
Definition lookAtLerp : R := 0.1.

(** [Vector3.lerp] of three.js. *)
Definition lerp (a v : Vector3) (alpha : R) : Vector3 :=
  vec3 (x a + (x v - x a) * alpha)
       (y a + (y v - y a) * alpha)
       (z a + (z v - z a) * alpha).

Definition constructor (cam : Camera) : t :=
  {| camera := cam;
     currentPosition := offset;
     currentLookAt := vec3 0 0 0 |}.

Definition targetPosition (glider : Glider.t) : Vector3 :=
  (* offset rotated by glider orientation *)
  add (Glider.position glider) (applyQuaternion offset (Glider.rotation glider)).

Definition targetLookAt (glider : Glider.t) : Vector3 :=
  (* slightly ahead of glider *)
  add (Glider.position glider)
      (multiplyScalar (Glider.getForwardDirection glider) 10).

Definition update (glider : Glider.t) (deltaTime : R) (c : t) : t :=
  (* Smoothly interpolate camera position *)
  let cp := lerp (currentPosition c) (targetPosition glider) positionLerp in
  let cl := lerp (currentLookAt c) (targetLookAt glider) lookAtLerp in
  (* Apply to camera *)
  {| camera := mkCamera cp (Some cl);
     currentPosition := cp;
     currentLookAt := cl |}.

Definition reset (glider : Glider.t) (c : t) : t :=
  let cp := targetPosition glider in
  let cl := Glider.position glider in
  {| camera := mkCamera cp (Some cl);
     currentPosition := cp;
     currentLookAt := cl |}.

End ChaseCamera.

(* ================================================================= *)
(** ** HUD (speed and altitude read-outs) *)

Module HUD.
Local Open Scope R_scope.

(** [Math.round]: the nearest integer, halves upwards. *)
Definition round (v : R) : Z := Zfloor (v + 0.5).

(** The two elements, when the page has them, with the number each
    shows; [text0] is what an element shows before the first update. *)
Record t : Type := mk
  { speedElement : option Z; altitudeElement : option Z }.

Definition constructor (hasSpeed hasAltitude : bool) (text0 : Z) : t :=
  {| speedElement := if hasSpeed then Some text0 else None;
     altitudeElement := if hasAltitude then Some text0 else None |}.

Definition update (glider : Glider.t) (h : t) : t :=
  {| speedElement :=
       match speedElement h with
       | Some _ => Some (round (Glider.getSpeedKmh glider))
       | None => None
       end;
     altitudeElement :=
       match altitudeElement h with
       | Some _ => Some (round (Glider.getAltitude glider))
       | None => None
       end |}.

End HUD.

(* ================================================================= *)
(** ** DebugMode (toggle, frame counter and arrows; the panel texts
    are left out) *)

Module DebugMode.
Import Three.
Local Open Scope R_scope.

(** What the code sets of a [THREE.ArrowHelper]. *)
Record Arrow : Type := mkArrow
  { arrow_position : Vector3;
    arrow_direction : Vector3;
    arrow_length : R;
    arrow_headLength : R;
    arrow_headWidth : R }.

Record t : Type := mk
  { enabled : bool;
    panel : option bool;       (* the panel, if any: is it 'visible'? *)
    frameCount : Z;
    lastFpsUpdate : R;         (* milliseconds *)
    currentFps : Z;
    velocityArrow : option Arrow;
    liftArrow : option Arrow }.

(** [now] is [performance.now()], [panel0] the panel of the page. *)
Definition constructor (now : R) (panel0 : option bool) : t :=
  {| enabled := false; panel := panel0;
     frameCount := 0; lastFpsUpdate := now; currentFps := 0;
     velocityArrow := None; liftArrow := None |}.

Definition createDebugVisuals (d : t) : t :=
  {| enabled := enabled d; panel := panel d;
     frameCount := frameCount d; lastFpsUpdate := lastFpsUpdate d;
     currentFps := currentFps d;
     (* Velocity arrow (blue) *)
     velocityArrow := Some (mkArrow (vec3 0 0 0) (vec3 0 0 (-1)) 10 2 1);
     (* Lift arrow (green) *)
     liftArrow := Some (mkArrow (vec3 0 0 0) (vec3 0 1 0) 5 1 0.5) |}.

Definition removeDebugVisuals (d : t) : t :=
  {| enabled := enabled d; panel := panel d;
     frameCount := frameCount d; lastFpsUpdate := lastFpsUpdate d;
     currentFps := currentFps d;
     velocityArrow := None; liftArrow := None |}.

Definition toggle (d : t) : t :=
  let e := negb (enabled d) in
  let d1 :=
    {| enabled := e;
       panel := match panel d with Some _ => Some e | None => None end;
       frameCount := frameCount d; lastFpsUpdate := lastFpsUpdate d;
       currentFps := currentFps d;
       velocityArrow := velocityArrow d; liftArrow := liftArrow d |} in
  if e then createDebugVisuals d1 else removeDebugVisuals d1.

(** The listener on 'keydown'. *)
Definition keydown (code : string) (d : t) : t :=
  if String.eqb code "KeyG" then toggle d else d.

Definition update (glider : Glider.t) (now : R) (d : t) : t :=
  (* Update FPS *)
  let fc := (frameCount d + 1)%Z in
  let tick := Rge_dec (now - lastFpsUpdate d) 1000 in
  let fps := if tick then fc else currentFps d in
  let fc' := if tick then 0%Z else fc in
  let last := if tick then now else lastFpsUpdate d in
  if enabled d then
    {| enabled := enabled d; panel := panel d;
       frameCount := fc'; lastFpsUpdate := last; currentFps := fps;
       (* Update debug arrows *)
       velocityArrow :=
         match velocityArrow d with
         | Some _ =>
             let velDir := normalize (Glider.velocity glider) in
             let velLen := Glider.getSpeed glider / 5 in
             Some (mkArrow (Glider.position glider) velDir
                           velLen (velLen * 0.2) (velLen * 0.1))
         | None => None
         end;
       liftArrow :=
         match liftArrow d with
         | Some _ =>
             let liftDir := applyQuaternion (vec3 0 1 0) (Glider.rotation glider) in
             let liftLen := Glider.debugLift glider / 2 in
             Some (mkArrow (Glider.position glider) liftDir
                           (Rmax liftLen 0.1) (liftLen * 0.2) (liftLen * 0.1))
         | None => None
         end |}
  else
    {| enabled := enabled d; panel := panel d;
       frameCount := fc'; lastFpsUpdate := last; currentFps := fps;
       velocityArrow := velocityArrow d; liftArrow := liftArrow d |}.

(** What happens to the overlay: a key or a frame at time [now]. *)
Inductive Event : Type :=
| Key (code : string)
| Frame (glider : Glider.t) (now : R).

Definition dispatch (d : t) (e : Event) : t :=
  match e with
  | Key c => keydown c d
  | Frame g now => update g now d
  end.

Definition run (evs : list Event) (d : t) : t := fold_left dispatch evs d.

End DebugMode.

(* ================================================================= *)
(** * Properties *)

(** ** The input axes *)

Module InputFacts.
Import InputManager.
Local Open Scope Q_scope.

Lemma clamp_in_range (q : Q) : in_range (Qmax (-1) (Qmin 1 q)).
Proof.
  unfold in_range. split.
  - apply Q.le_max_l.
  - apply Q.max_lub; [lra|apply Q.le_min_l].
Qed.

Lemma Qle_bool_false (a b : Q) : Qle_bool a b = false -> b < a.
Proof.
  intros H. apply Qnot_le_lt. intros C. apply Qle_bool_iff in C. congruence.
Qed.

Lemma Qmin_if (a b : Q) : Qmin a b == (if Qle_bool a b then a else b).
Proof.
  destruct (Qle_bool a b) eqn:E.
  - apply Q.min_l. apply Qle_bool_iff; auto.
  - apply Q.min_r. apply Qlt_le_weak, Qle_bool_false; auto.
Qed.

Lemma Qmax_if (a b : Q) : Qmax a b == (if Qle_bool b a then a else b).
Proof.
  destruct (Qle_bool b a) eqn:E.
  - apply Q.max_l. apply Qle_bool_iff; auto.
  - apply Q.max_r. apply Qlt_le_weak, Qle_bool_false; auto.
Qed.

Lemma clamp_if (q : Q) :
  Qmax (-1) (Qmin 1 q) ==
  (if Qle_bool 1 q then 1 else if Qle_bool q (-1) then -1 else q).
Proof.
  destruct (Qle_bool 1 q) eqn:E1.
  - apply Qle_bool_iff in E1. rewrite (Q.min_l 1 q E1). apply Q.max_r. lra.
  - apply Qle_bool_false in E1.
    rewrite (Q.min_r 1 q) by (apply Qlt_le_weak; auto).
    destruct (Qle_bool q (-1)) eqn:E2.
    + apply Qle_bool_iff in E2. apply Q.max_l; auto.
    + apply Qle_bool_false in E2. apply Q.max_r. apply Qlt_le_weak; auto.
Qed.

Lemma Qle_bool_scale (c q : Q) : Qle_bool c (q / 100) = Qle_bool (c * 100) q.
Proof.
  apply eq_true_iff_eq. rewrite !Qle_bool_iff. split; intros H.
  - apply (Qmult_le_r _ _ 100) in H; [|lra]. field_simplify in H. lra.
  - apply Qle_shift_div_l; lra.
Qed.

Lemma Qle_bool_scale' (c q : Q) : Qle_bool (q / 100) c = Qle_bool q (c * 100).
Proof.
  apply eq_true_iff_eq. rewrite !Qle_bool_iff. split; intros H.
  - apply (Qmult_le_r _ _ 100) in H; [|lra]. field_simplify in H. lra.
  - apply Qle_shift_div_r; lra.
Qed.

Lemma update_in_range (s : t) :
  in_range (pitch s) -> in_range (roll s) ->
  in_range (pitch (update s)) /\ in_range (roll (update s)).
Proof.
  unfold in_range, update. intros [Hp1 Hp2] [Hr1 Hr2].
  destruct (touchActive s); simpl.
  - split; apply clamp_in_range.
  - split.
    + destruct (up (keys s)); [|destruct (down (keys s))].
      * split; [apply Q.min_glb; lra | apply Q.le_min_r].
      * split; [apply Q.le_max_r | apply Q.max_lub; lra].
      * lra.
    + destruct (left (keys s)); [|destruct (right (keys s))].
      * split; [apply Q.le_max_r | apply Q.max_lub; lra].
      * split; [apply Q.min_glb; lra | apply Q.le_min_r].
      * lra.
Qed.

Lemma dispatch_in_range (s : t) (e : Event) :
  in_range (pitch s) /\ in_range (roll s) ->
  in_range (pitch (dispatch s e)) /\ in_range (roll (dispatch s e)).
Proof.
  intros [Hp Hr]. destruct e; simpl; auto.
  - unfold touchstart. destruct (touchZone s); simpl; auto.
  - unfold touchmove. destruct (touchZone s), (touchActive s); simpl; auto.
  - unfold touchend. destruct (touchZone s); simpl; auto.
  - unfold touchcancel, touchend. destruct (touchZone s); simpl; auto.
  - apply update_in_range; auto.
Qed.

Lemma run_in_range (evs : list Event) (s : t) :
  in_range (pitch s) /\ in_range (roll s) ->
  in_range (pitch (run evs s)) /\ in_range (roll (run evs s)).
Proof.
  revert s. induction evs as [|e evs IH]; intros s H; simpl; auto.
  apply IH. apply dispatch_in_range; auto.
Qed.

(** C9. Whatever keys and touches arrive between the frames, both
    axes lie in [-1, 1] after every update, from the state the
    constructor builds.  Without a touch a held key moves its axis by
    0.05 per update, up to the limit 1 or -1; with no key held the
    axis is multiplied by 0.9; an active touch replaces both axes by
    the drag displacement over 100 pixels, cut off at full deflection. *)
Theorem axes_stay_in_range :
  (forall (zone : bool) (evs : list Event) (n : nat),
      let s := run (firstn n evs) (constructor zone) in
      in_range (getPitch s) /\ in_range (getRoll s)) /\
  (forall s, touchActive s = false -> up (keys s) = true ->
      pitch (update s) == (if Qle_bool (pitch s + 0.05) 1 then pitch s + 0.05 else 1)) /\
  (forall s, touchActive s = false -> up (keys s) = false -> down (keys s) = true ->
      pitch (update s) == (if Qle_bool (-1) (pitch s - 0.05) then pitch s - 0.05 else -1)) /\
  (forall s, touchActive s = false -> up (keys s) = false -> down (keys s) = false ->
      pitch (update s) == pitch s * 0.9) /\
  (forall s, touchActive s = false -> left (keys s) = true ->
      roll (update s) == (if Qle_bool (-1) (roll s - 0.05) then roll s - 0.05 else -1)) /\
  (forall s, touchActive s = false -> left (keys s) = false -> right (keys s) = true ->
      roll (update s) == (if Qle_bool (roll s + 0.05) 1 then roll s + 0.05 else 1)) /\
  (forall s, touchActive s = false -> left (keys s) = false -> right (keys s) = false ->
      roll (update s) == roll s * 0.9) /\
  (forall s, touchActive s = true ->
      let deltaX := touchCurrentX s - touchStartX s in
      let deltaY := touchCurrentY s - touchStartY s in
      pitch (update s) ==
        (if Qle_bool 100 (- deltaY) then 1
         else if Qle_bool (- deltaY) (-100) then -1 else - deltaY / 100) /\
      roll (update s) ==
        (if Qle_bool 100 deltaX then 1
         else if Qle_bool deltaX (-100) then -1 else deltaX / 100)).
Proof.
  split; [intros zone evs n s0; apply run_in_range; unfold in_range; simpl; lra|].
  repeat match goal with |- _ /\ _ => split end;
    intros s Ht; intros; unfold update; rewrite Ht; simpl;
    repeat match goal with H : _ = _ |- _ => rewrite H; clear H end; simpl;
    try apply Qmin_if; try apply Qmax_if; try reflexivity.
  split; rewrite clamp_if; unfold maxDelta;
    rewrite (Qle_bool_scale 1), (Qle_bool_scale' (-1)); reflexivity.
Qed.

Lemma axes_stay_in_range_witness :
  (in_range (getPitch (run (firstn 5 [KeyDown "KeyW"; Update; TouchStart 10 10;
                                      TouchMove 200 (-300); Update])
                           (constructor true))) /\
   in_range (getRoll (run (firstn 5 [KeyDown "KeyW"; Update; TouchStart 10 10;
                                     TouchMove 200 (-300); Update])
                          (constructor true)))) /\
  pitch (update (handleKeyDown "ArrowUp" (constructor true))) ==
    (if Qle_bool (pitch (handleKeyDown "ArrowUp" (constructor true)) + 0.05) 1
     then pitch (handleKeyDown "ArrowUp" (constructor true)) + 0.05 else 1).
Proof.
  split.
  - exact (proj1 axes_stay_in_range true
             [KeyDown "KeyW"; Update; TouchStart 10 10; TouchMove 200 (-300); Update]
             5%nat).
  - exact (proj1 (proj2 axes_stay_in_range)
             (handleKeyDown "ArrowUp" (constructor true)) eq_refl eq_refl).
Defined.

End InputFacts.

(** ** The elevation field *)

Module TerrainFacts.
Import LocalTerrainProvider.
Local Open Scope Q_scope.


Lemma Qltb_false (a b : Q) : Qltb a b = false <-> b <= a.
Proof.
  unfold Qltb. rewrite negb_false_iff. apply Qle_bool_iff.
Qed.

Lemma clamp01_id (u : Q) : 0 <= u -> u <= 1 -> Qmax 0 (Qmin 1 u) == u.
Proof.
  intros H0 H1. rewrite (Q.min_r 1 u H1). apply Q.max_r; auto.
Qed.

Lemma Qhalf (w : Q) : w / 2 == w * (1 # 2).
Proof. field. Qed.




(** Index arithmetic of the grid. *)
Lemma floor_in_grid (u : Q) (w : Z) :
  (1 <= w)%Z -> 0 <= u -> u <= 1 ->
  (0 <= Qfloor (u * inject_Z (w - 1)) <= w - 1)%Z.
Proof.
  intros Hw H0 H1.
  assert (Hq : 0 <= inject_Z (w - 1)).
  { change 0 with (inject_Z 0). rewrite <- Zle_Qle. lia. }
  split.
  - change 0%Z with (Qfloor (inject_Z 0)) at 1. apply Qfloor_resp_le.
    change (inject_Z 0) with 0. nra.
  - rewrite <- (Qfloor_Z (w - 1)) at 2. apply Qfloor_resp_le. nra.
Qed.


Lemma sample_in_range (tp : t) (d : list Q) (i : Z) :
  loaded tp d -> (0 <= i < heightDataWidth tp * heightDataHeight tp)%Z ->
  exists h, sample tp i = Some h /\ In h d.
Proof.
  intros (Hd & Hw & Hh & Hlen) Hi. unfold sample. rewrite Hd.
  destruct (Z.ltb_spec i 0); [lia|].
  destruct (nth_error d (Z.to_nat i)) as [h|] eqn:E.
  - exists h. split; auto. eapply nth_error_In; eauto.
  - apply nth_error_None in E. lia.
Qed.

Lemma index_in_range (w h x y : Z) :
  (0 <= x <= w - 1)%Z -> (0 <= y <= h - 1)%Z ->
  (0 <= y * w + x < w * h)%Z.
Proof. intros Hx Hy. nia. Qed.

Lemma sampleHeightmap_bilinear (tp : t) (d : list Q) (u v : Q) :
  loaded tp d -> 0 <= u <= 1 -> 0 <= v <= 1 ->
  let w := heightDataWidth tp in
  let x0 := cell_x0 tp u in let x1 := cell_x1 tp u in
  let y0 := cell_y0 tp v in let y1 := cell_y1 tp v in
  exists h00 h10 h01 h11 r,
    sample tp (y0 * w + x0) = Some h00 /\
    sample tp (y0 * w + x1) = Some h10 /\
    sample tp (y1 * w + x0) = Some h01 /\
    sample tp (y1 * w + x1) = Some h11 /\
    sampleHeightmap tp u v = Some r /\
    r == bilinear h00 h10 h01 h11 (frac_x tp u) (frac_y tp v).
Proof.
  intros L [Hu0 Hu1] [Hv0 Hv1] w x0 x1 y0 y1.
  pose proof L as (Hd & Hw & Hh & Hlen).
  pose proof (floor_in_grid u _ Hw Hu0 Hu1) as Hx0.
  pose proof (floor_in_grid v _ Hh Hv0 Hv1) as Hy0.
  fold (cell_x0 tp u) in Hx0. fold (cell_y0 tp v) in Hy0.
  assert (Hx1 : (0 <= x1 <= w - 1)%Z) by (unfold x1, cell_x1, w; lia).
  assert (Hy1 : (0 <= y1 <= heightDataHeight tp - 1)%Z) by (unfold y1, cell_y1; lia).
  destruct (sample_in_range tp d (y0 * w + x0) L) as (h00 & E00 & _);
    [apply index_in_range; auto|].
  destruct (sample_in_range tp d (y0 * w + x1) L) as (h10 & E10 & _);
    [apply index_in_range; auto|].
  destruct (sample_in_range tp d (y1 * w + x0) L) as (h01 & E01 & _);
    [apply index_in_range; auto|].
  destruct (sample_in_range tp d (y1 * w + x1) L) as (h11 & E11 & _);
    [apply index_in_range; auto|].
  pose proof (clamp01_id u Hu0 Hu1) as Cu.
  pose proof (clamp01_id v Hv0 Hv1) as Cv.
  assert (Fx : Qfloor (Qmax 0 (Qmin 1 u) * inject_Z (heightDataWidth tp - 1)) = x0).
  { unfold x0, cell_x0. apply Qfloor_comp. rewrite Cu. reflexivity. }
  assert (Fy : Qfloor (Qmax 0 (Qmin 1 v) * inject_Z (heightDataHeight tp - 1)) = y0).
  { unfold y0, cell_y0. apply Qfloor_comp. rewrite Cv. reflexivity. }
  exists h00, h10, h01, h11.
  exists (bilinear h00 h10 h01 h11
            (Qmax 0 (Qmin 1 u) * inject_Z (w - 1) - inject_Z x0)
            (Qmax 0 (Qmin 1 v) * inject_Z (heightDataHeight tp - 1) - inject_Z y0)).
  split; [auto|]. split; [auto|]. split; [auto|]. split; [auto|]. split.
  - unfold sampleHeightmap. rewrite Fx, Fy.
    fold w. fold x0 y0. unfold x1, cell_x1, y1, cell_y1 in *. fold x0 y0 w in E10, E01, E11 |- *.
    rewrite E00, E10, E01, E11. reflexivity.
  - unfold bilinear, frac_x, frac_y. fold x0 y0 w. rewrite Cu, Cv. reflexivity.
Qed.




Lemma sampleHeightmap_constant (tp : t) (d : list Q) (c u v : Q) :
  loaded tp d -> Forall (fun h => h == c) d -> 0 <= u <= 1 -> 0 <= v <= 1 ->
  exists r, sampleHeightmap tp u v = Some r /\ r == c.
Proof.
  intros L Hc Hu Hv.
  destruct (sampleHeightmap_bilinear tp d u v L Hu Hv)
    as (h00 & h10 & h01 & h11 & r & E00 & E10 & E01 & E11 & E & Hr).
  assert (In_d : forall k h, sample tp k = Some h -> h == c).
  { intros k h Hk. unfold sample in Hk. destruct L as (Hd & _). rewrite Hd in Hk.
    destruct (k <? 0)%Z; [discriminate|].
    apply nth_error_In in Hk. rewrite Forall_forall in Hc. auto. }
  exists r. split; auto. rewrite Hr. unfold bilinear.
  rewrite (In_d _ _ E00), (In_d _ _ E10), (In_d _ _ E01), (In_d _ _ E11). ring.
Qed.

Lemma loaded_2x2 (a b c d : Q) : loaded (of_grid 2 2 [a; b; c; d]) [a; b; c; d].
Proof. unfold loaded; simpl. repeat split; lia. Qed.



(** A flat field answers its one height at every point of the stage. *)
Lemma getHeightAt_flat (tp : t) (d : list Q) (c x z : Q) :
  loaded tp d -> Forall (fun h => h == c) d ->
  0 < terrainWidth tp -> 0 < terrainDepth tp ->
  minX (getBounds tp) <= x <= maxX (getBounds tp) ->
  minZ (getBounds tp) <= z <= maxZ (getBounds tp) ->
  exists r, getHeightAt tp x z = Some r /\ r == c.
Proof.
  intros L Hc Hw Hd Hx Hz. pose proof L as (Hdata & _).
  simpl in Hx, Hz.
  assert (Hn : forall w, - w / 2 == - (w / 2)) by (intros; field).
  rewrite !Hn in Hx, Hz. rewrite !Qhalf in Hx, Hz.
  assert (Hu : 0 <= (x + terrainWidth tp / 2) / terrainWidth tp <= 1).
  { split; [apply Qle_shift_div_l | apply Qle_shift_div_r]; auto;
      rewrite Qhalf; lra. }
  assert (Hv : 0 <= (z + terrainDepth tp / 2) / terrainDepth tp <= 1).
  { split; [apply Qle_shift_div_l | apply Qle_shift_div_r]; auto;
      rewrite Qhalf; lra. }
  unfold getHeightAt. rewrite Hdata.
  match goal with |- context [if ?b then _ else _] => assert (E : b = false) end.
  { rewrite !orb_false_iff, !Qltb_false. tauto. }
  rewrite E. apply (sampleHeightmap_constant tp d c); auto.
Qed.




End TerrainFacts.

(** ** The flight dynamics model *)

Module GliderFacts.
Import Three Glider.
Local Open Scope R_scope.

(** *** Crash terminality *)

Lemma update_crashed (dt : R) (g : t) : crashed g = true -> update dt g = g.
Proof. intros H. unfold update. rewrite H. reflexivity. Qed.

Lemma steps_crashed (inputs : list (R * R * R)) (g : t) :
  crashed g = true ->
  position (steps inputs g) = position g /\
  velocity (steps inputs g) = velocity g /\
  crashed (steps inputs g) = true.
Proof.
  revert g. induction inputs as [|[[p r] dt] rest IH]; intros g H; simpl; auto.
  unfold step. rewrite update_crashed by (simpl; auto).
  destruct (IH (setInput p r g)) as (A & B & C); simpl; auto.
Qed.

Lemma applyBoundaryForce_frame (fuel : nat) (dir : Vector3) (s : R) (g g' : t) :
  applyBoundaryForce fuel dir s g = Some g' ->
  position g' = position g /\ velocity g' = velocity g /\
  crashed g' = crashed g /\ pitch g' = pitch g /\ roll g' = roll g.
Proof.
  unfold applyBoundaryForce. destruct (normalizeDiff _ _); intros H; inversion H.
  simpl. auto.
Qed.

(** C5. Once the crashed flag is set an update returns the state as
    it is, so any run of steps leaves position and velocity where they
    were and the flag set, and the boundary force does not clear it
    either; reset gives position (0,1000,0), velocity (0,0,-20), zero
    pitch, roll and yaw, and a cleared flag, from every state. *)
Theorem crash_is_terminal :
  (forall dt g, crashed g = true -> update dt g = g) /\
  (forall inputs g, crashed g = true ->
     position (steps inputs g) = position g /\
     velocity (steps inputs g) = velocity g /\
     crashed (steps inputs g) = true) /\
  (forall fuel dir s g g', crashed g = true ->
     applyBoundaryForce fuel dir s g = Some g' ->
     position g' = position g /\ velocity g' = velocity g /\ crashed g' = true) /\
  (forall g,
     position (reset g) = vec3 0 1000 0 /\
     velocity (reset g) = vec3 0 0 (-20) /\
     pitch (reset g) = 0 /\ roll (reset g) = 0 /\ yaw (reset g) = 0 /\
     crashed (reset g) = false).
Proof.
  split; [exact update_crashed|]. split; [exact steps_crashed|]. split.
  - intros fuel dir s g g' Hc H.
    destruct (applyBoundaryForce_frame _ _ _ _ _ H) as (A & B & C & _).
    rewrite C. auto.
  - intros g. simpl. repeat split; reflexivity.
Qed.

Lemma crash_is_terminal_witness :
  update (1 / 60) (crash (constructor tt)) = crash (constructor tt).
Proof.
  apply (proj1 crash_is_terminal). reflexivity.
Defined.

(** *** Stall policy *)

Lemma debugLift_applyDrag sp vd aoa dt g :
  debugLift (applyDrag sp vd aoa dt g) = debugLift g.
Proof. unfold applyDrag. destruct (Rgt_dec sp 0.1); reflexivity. Qed.

Lemma debugLift_applyDive fw dt g :
  debugLift (applyDive fw dt g) = debugLift g.
Proof.
  unfold applyDive.
  destruct (Rlt_dec (pitch g) (-0.1)), (Rlt_dec (y (velocity g)) 0),
           (Rlt_dec (getSpeed g) maxSpeed); reflexivity.
Qed.

Lemma debugLift_clampSpeed g : debugLift (clampSpeed g) = debugLift g.
Proof. unfold clampSpeed. destruct (Rgt_dec (getSpeed g) maxSpeed); reflexivity. Qed.

Lemma debugLift_groundCheck g : debugLift (groundCheck g) = debugLift g.
Proof. unfold groundCheck. destruct (Rlt_dec (y (position g)) 0); reflexivity. Qed.

(** C7. With the speed measured at the top of the physics step at or
    below the stall speed of 10 m/s, the lift block leaves the velocity
    as it is and sets the diagnostic lift to 0; above it the block adds
    the lift along the local up axis.  For a whole physics step of a
    stalled glider the result is that of the other blocks alone, and
    so a whole update of a flying, stalled glider leaves the
    diagnostic lift at 0. *)
Theorem stall_gives_no_lift (speed dt : R) (g : t) :
  (speed <= minSpeed ->
     velocity (applyLift speed dt g) = velocity g /\
     debugLift (applyLift speed dt g) = 0) /\
  (speed > minSpeed ->
     velocity (applyLift speed dt g) =
       add (velocity g)
           (multiplyScalar (applyQuaternion (vec3 0 1 0) (rotation g))
                           (liftMagnitude speed g * dt)) /\
     debugLift (applyLift speed dt g) = liftMagnitude speed g) /\
  (getSpeed g <= minSpeed ->
     debugLift (updatePhysics dt g) = 0 /\
     updatePhysics dt g =
       let forward := applyQuaternion (vec3 0 0 (-1)) (rotation g) in
       let velocityDir := normalize (velocity g) in
       let aoa := angleOfAttack forward velocityDir in
       groundCheck (integratePosition dt (clampSpeed (applyDive forward dt
         (applyDrag (getSpeed g) velocityDir aoa dt
            (set_debugLift 0 (applyGravity dt (set_debugAoA (radToDeg aoa) g)))))))) /\
  (crashed g = false -> getSpeed g <= minSpeed ->
     debugLift (update dt g) = 0).
Proof.
  assert (Stalled : forall dt' g', getSpeed g' <= minSpeed ->
            debugLift (updatePhysics dt' g') = 0).
  { intros dt' g' H. unfold updatePhysics. cbv zeta.
    rewrite debugLift_groundCheck. unfold integratePosition.
    cbn [debugLift set_position].
    rewrite debugLift_clampSpeed, debugLift_applyDive, debugLift_applyDrag.
    unfold applyLift. destruct (Rgt_dec (getSpeed g') minSpeed) as [C|C]; [lra|].
    reflexivity. }
  split; [|split; [|split]]; cycle 3.
  { intros Hc H. unfold update. rewrite Hc. cbn [debugLift updateMesh].
    apply Stalled. exact H. }
  - intros H. unfold applyLift.
    destruct (Rgt_dec speed minSpeed) as [C|C]; [lra|]. split; reflexivity.
  - intros H. unfold applyLift.
    destruct (Rgt_dec speed minSpeed) as [C|C]; [|lra]. split; reflexivity.
  - intros H.
    assert (E : applyLift (getSpeed g) dt
                  (applyGravity dt (set_debugAoA (radToDeg
                     (angleOfAttack (applyQuaternion (vec3 0 0 (-1)) (rotation g))
                                    (normalize (velocity g)))) g)) =
                set_debugLift 0
                  (applyGravity dt (set_debugAoA (radToDeg
                     (angleOfAttack (applyQuaternion (vec3 0 0 (-1)) (rotation g))
                                    (normalize (velocity g)))) g))).
    { unfold applyLift. destruct (Rgt_dec (getSpeed g) minSpeed) as [C|C]; [lra|].
      reflexivity. }
    split; [apply Stalled; exact H|].
    unfold updatePhysics. cbv zeta. rewrite E. reflexivity.
Qed.

Lemma stall_gives_no_lift_witness :
  velocity (applyLift 5 (1 / 60) (constructor tt)) = velocity (constructor tt) /\
  debugLift (applyLift 5 (1 / 60) (constructor tt)) = 0.
Proof.
  apply (proj1 (stall_gives_no_lift 5 (1 / 60) (constructor tt))).
  unfold minSpeed. lra.
Defined.

(** *** Clamp invariants *)

Ltac break_if :=
  match goal with
  | |- context [if ?c then _ else _] => destruct c
  end.

Lemma clamp_abs (a v : R) : 0 <= a -> Rabs (Rmax (- a) (Rmin a v)) <= a.
Proof.
  intros Ha. unfold Rmax, Rmin. repeat break_if; apply Rabs_le; lra.
Qed.

Lemma updateRotation_limits (dt : R) (g : t) :
  0 <= dt <= 0.1 ->
  Rabs (pitch (updateRotation dt g)) <= PI / 3 /\
  Rabs (roll (updateRotation dt g)) <= PI / 2.
Proof.
  intros Hdt. pose proof PI_RGT_0 as Hpi. unfold updateRotation. simpl. split.
  - replace (- PI / 3) with (- (PI / 3)) by lra. apply clamp_abs. lra.
  - replace (- PI / 2) with (- (PI / 2)) by lra.
    set (r := Rmax _ _).
    assert (Hr : Rabs r <= PI / 2) by (apply clamp_abs; lra).
    destruct (Rlt_dec (Rabs (rollInput g)) 0.1); auto.
    rewrite Rabs_mult. rewrite (Rabs_pos_eq (1 - 0.5 * dt)) by lra.
    pose proof (Rabs_pos r). nra.
Qed.

Lemma updatePhysics_angles (dt : R) (g : t) :
  pitch (updatePhysics dt g) = pitch g /\ roll (updatePhysics dt g) = roll g /\
  yaw (updatePhysics dt g) = yaw g.
Proof.
  unfold updatePhysics, groundCheck, integratePosition, clampSpeed, applyDive,
    applyDrag, applyLift, applyGravity. cbv zeta.
  repeat break_if; simpl; auto.
Qed.

Lemma length_nonneg (v : Vector3) : 0 <= length v.
Proof. apply sqrt_pos. Qed.

Lemma length_multiplyScalar (v : Vector3) (s : R) :
  length (multiplyScalar v s) = Rabs s * length v.
Proof.
  unfold length, multiplyScalar. simpl.
  replace (x v * s * (x v * s) + y v * s * (y v * s) + z v * s * (z v * s))
    with (s * s * (x v * x v + y v * y v + z v * z v)) by ring.
  rewrite sqrt_mult; [|nra|nra].
  f_equal. replace (s * s) with (Rsqr s) by (unfold Rsqr; ring).
  apply sqrt_Rsqr_abs.
Qed.

Lemma length_zero : length (vec3 0 0 0) = 0.
Proof.
  unfold length. simpl. replace (0 * 0 + 0 * 0 + 0 * 0) with 0 by ring.
  apply sqrt_0.
Qed.

(** A vector that is not null is normalised to length one. *)
Lemma length_normalize (v : Vector3) : length v <> 0 -> length (normalize v) = 1.
Proof.
  intros H. unfold normalize, divideScalar.
  destruct (Req_dec_T (length v) 0) as [E|_]; [contradiction|].
  rewrite length_multiplyScalar. pose proof (length_nonneg v) as Hl.
  rewrite Rabs_pos_eq.
  - field. auto.
  - apply Rlt_le. apply Rdiv_lt_0_compat; lra.
Qed.

Lemma clampSpeed_limit (g : t) : getSpeed (clampSpeed g) <= maxSpeed.
Proof.
  unfold clampSpeed. destruct (Rgt_dec (getSpeed g) maxSpeed) as [H|H].
  - unfold getSpeed in *. simpl. rewrite length_multiplyScalar.
    unfold maxSpeed in *. rewrite length_normalize by lra.
    rewrite Rabs_pos_eq; lra.
  - lra.
Qed.

Lemma updatePhysics_speed (dt : R) (g : t) : getSpeed (updatePhysics dt g) <= maxSpeed.
Proof.
  unfold updatePhysics. cbv zeta.
  match goal with |- getSpeed (groundCheck (integratePosition dt ?h)) <= _ =>
    pose proof (clampSpeed_limit
      (applyDive (applyQuaternion (vec3 0 0 (-1)) (rotation g)) dt
        (applyDrag (getSpeed g) (normalize (velocity g))
          (angleOfAttack (applyQuaternion (vec3 0 0 (-1)) (rotation g))
                         (normalize (velocity g))) dt
          (applyLift (getSpeed g) dt
            (applyGravity dt (set_debugAoA (radToDeg
               (angleOfAttack (applyQuaternion (vec3 0 0 (-1)) (rotation g))
                              (normalize (velocity g)))) g)))))) as H;
    set (h' := h) in *
  end.
  unfold groundCheck. destruct (Rlt_dec _ 0).
  - unfold getSpeed, crash. simpl. rewrite length_zero. unfold maxSpeed. lra.
  - exact H.
Qed.

Lemma update_limits (dt : R) (g : t) :
  0 <= dt -> within_limits g -> within_limits (update dt g).
Proof.
  intros Hdt Hg. unfold update. destruct (crashed g); auto.
  assert (Hd : 0 <= Rmin dt 0.1 <= 0.1).
  { unfold Rmin. destruct (Rle_dec dt 0.1); lra. }
  destruct (updateRotation_limits _ g Hd) as [Hp Hr].
  destruct (updatePhysics_angles (Rmin dt 0.1) (updateRotation (Rmin dt 0.1) g))
    as (Ep & Er & _).
  unfold within_limits. unfold getSpeed. simpl.
  rewrite Ep, Er. split; [auto|]. split; [auto|].
  apply updatePhysics_speed.
Qed.

Lemma steps_limits (inputs : list (R * R * R)) (g : t) :
  Forall valid_input inputs -> within_limits g -> within_limits (steps inputs g).
Proof.
  revert g. induction inputs as [|i rest IH]; intros g Hin Hg; simpl; auto.
  inversion Hin as [|? ? Hi Hrest]; subst.
  apply IH; auto. unfold step. apply update_limits.
  - destruct Hi as (_ & _ & H). exact H.
  - exact Hg.
Qed.

Lemma constructor_limits : within_limits (constructor tt).
Proof.
  pose proof PI_RGT_0. unfold within_limits, getSpeed, length, maxSpeed. simpl.
  rewrite Rabs_R0. split; [lra|]. split; [lra|].
  replace (0 * 0 + 0 * 0 + -20 * -20) with (20 * 20) by ring.
  rewrite sqrt_square; lra.
Qed.

(** C3. From the constructor's state, or from any state within the
    limits, after every step of a sequence of steps whose inputs lie in
    [-1, 1] and whose frame times are not negative, the pitch is at
    most PI/3 and the roll at most PI/2 in absolute value, and the
    speed is at most the maximal speed of 80 m/s. *)
Theorem clamp_invariants (inputs : list (R * R * R)) (g : t) (n : nat) :
  Forall valid_input inputs ->
  g = constructor tt \/ within_limits g ->
  let g' := steps (firstn n inputs) g in
  Rabs (pitch g') <= PI / 3 /\ Rabs (roll g') <= PI / 2 /\
  length (velocity g') <= maxSpeed.
Proof.
  intros Hin Hg. apply steps_limits.
  - rewrite <- (firstn_skipn n inputs) in Hin.
    apply Forall_app in Hin. tauto.
  - destruct Hg as [->|Hg]; auto. apply constructor_limits.
Qed.

Lemma clamp_invariants_witness :
  let g' := steps (firstn 1 [(1, -1, 1 / 60)]) (constructor tt) in
  Rabs (pitch g') <= PI / 3 /\ Rabs (roll g') <= PI / 2 /\
  length (velocity g') <= maxSpeed.
Proof.
  apply (clamp_invariants [(1, -1, 1 / 60)] (constructor tt) 1).
  - constructor; [|constructor]. unfold valid_input. simpl. lra.
  - left. reflexivity.
Defined.

End GliderFacts.

(** ** Boundary steering *)

Module BoundaryFacts.
Import Three Glider.
Local Open Scope R_scope.

(** *** The normalising loops *)

Lemma while_above_spec (fuel : nat) (d r : R) :
  while_above fuel d = Some r ->
  r <= PI /\ exists k : nat, r = d - 2 * PI * INR k /\ (k <> O -> - PI < r).
Proof.
  revert d. induction fuel as [|n IH]; intros d; simpl;
    destruct (Rgt_dec d PI) as [H|H]; intros E; try discriminate.
  - inversion E; subst. split; [lra|]. exists O. simpl. split; [lra|congruence].
  - destruct (IH _ E) as (Hr & k & Hk & Hpos). split; auto.
    exists (S k). rewrite S_INR. split; [lra|]. intros _.
    destruct k as [|k]; [simpl in Hk; lra|]. apply Hpos. congruence.
  - inversion E; subst. split; [lra|]. exists O. simpl. split; [lra|congruence].
Qed.

Lemma while_below_spec (fuel : nat) (d r : R) :
  while_below fuel d = Some r ->
  - PI <= r /\ exists k : nat, r = d + 2 * PI * INR k /\ (k <> O -> r < PI).
Proof.
  revert d. induction fuel as [|n IH]; intros d; simpl;
    destruct (Rlt_dec d (- PI)) as [H|H]; intros E; try discriminate.
  - inversion E; subst. split; [lra|]. exists O. simpl. split; [lra|congruence].
  - destruct (IH _ E) as (Hr & k & Hk & Hpos). split; auto.
    exists (S k). rewrite S_INR. split; [lra|]. intros _.
    destruct k as [|k]; [simpl in Hk; lra|]. apply Hpos. congruence.
  - inversion E; subst. split; [lra|]. exists O. simpl. split; [lra|congruence].
Qed.

Lemma normalizeDiff_spec (fuel : nat) (d r : R) :
  normalizeDiff fuel d = Some r ->
  - PI <= r <= PI /\ exists k : Z, r = d + 2 * PI * IZR k.
Proof.
  unfold normalizeDiff. destruct (while_above fuel d) as [r1|] eqn:E1; [|discriminate].
  intros E2.
  destruct (while_above_spec _ _ _ E1) as (H1 & k1 & Hk1 & P1).
  destruct (while_below_spec _ _ _ E2) as (H2 & k2 & Hk2 & P2).
  split.
  - split; auto. destruct k2 as [|k2]; [simpl in Hk2; lra|].
    apply Rlt_le, P2. congruence.
  - exists (Z.of_nat k2 - Z.of_nat k1)%Z. rewrite minus_IZR, <- !INR_IZR_INZ. lra.
Qed.

Lemma while_above_total (n : nat) (d : R) :
  d <= PI + 2 * PI * INR n -> exists r, while_above n d = Some r.
Proof.
  revert d. induction n as [|n IH]; intros d H; simpl;
    destruct (Rgt_dec d PI) as [C|C]; eauto.
  - simpl in H. lra.
  - apply IH. rewrite S_INR in H. lra.
Qed.

Lemma while_below_total (n : nat) (d : R) :
  - PI - 2 * PI * INR n <= d -> exists r, while_below n d = Some r.
Proof.
  revert d. induction n as [|n IH]; intros d H; simpl;
    destruct (Rlt_dec d (- PI)) as [C|C]; eauto.
  - simpl in H. lra.
  - apply IH. rewrite S_INR in H. lra.
Qed.

(** Both loops stop: some amount of fuel is enough, and so is any
    larger amount. *)
Lemma normalizeDiff_total (d : R) :
  exists fuel, forall fuel', (fuel <= fuel')%nat ->
    exists r, normalizeDiff fuel' d = Some r.
Proof.
  pose proof PI_RGT_0 as Hpi.
  destruct (INR_archimed (2 * PI) (Rabs d) ltac:(lra)) as [n Hn].
  exists n. intros m Hm. apply le_INR in Hm.
  assert (Hd : - (INR m * (2 * PI)) <= d <= INR m * (2 * PI)).
  { assert (Rabs d <= INR m * (2 * PI)) by nra.
    unfold Rabs in H; destruct (Rcase_abs d); lra. }
  unfold normalizeDiff.
  destruct (while_above_total m d) as [r1 E1]; [lra|]. rewrite E1.
  destruct (while_above_spec _ _ _ E1) as (H1 & k1 & Hk1 & P1).
  apply while_below_total.
  destruct k1 as [|k1]; [simpl in Hk1; pose proof (pos_INR m); nra|].
  assert (- PI < r1) by (apply P1; congruence).
  pose proof (pos_INR m). nra.
Qed.

Lemma applyBoundaryForce_yaw (fuel : nat) (dir : Vector3) (s : R) (g g' : t) :
  applyBoundaryForce fuel dir s g = Some g' ->
  exists d, normalizeDiff fuel (atan2 (x dir) (- z dir) - yaw g) = Some d /\
            yaw g' = yaw g + d * s * 0.02.
Proof.
  unfold applyBoundaryForce. destruct (normalizeDiff _ _) as [d|]; [|discriminate].
  intros E. inversion E; subst. exists d. split; reflexivity.
Qed.

Lemma atan2_ahead (b a : R) : 0 < a -> b = 0 -> atan2 b a = 0.
Proof.
  intros Ha Hb. unfold atan2. destruct (Rlt_dec 0 a); [|lra].
  subst b. unfold Rdiv. rewrite Rmult_0_l. apply atan_0.
Qed.

Lemma atan2_left (b a : R) : a = 0 -> b < 0 -> atan2 b a = - PI / 2.
Proof.
  intros Ha Hb. unfold atan2.
  destruct (Rlt_dec 0 a); [lra|]. destruct (Rlt_dec a 0); [lra|].
  destruct (Rlt_dec 0 b); [lra|]. destruct (Rlt_dec b 0); [reflexivity|lra].
Qed.

Lemma normalizeDiff_fixed (fuel : nat) (d : R) :
  - PI <= d <= PI -> normalizeDiff fuel d = Some d.
Proof.
  intros H. unfold normalizeDiff.
  assert (A : while_above fuel d = Some d).
  { destruct fuel; simpl; destruct (Rgt_dec d PI); auto; lra. }
  rewrite A. destruct fuel; simpl; destruct (Rlt_dec d (- PI)); auto; lra.
Qed.

(** Inside the buffered interior the boundary check leaves the glider alone. *)
Lemma checkBoundaries_interior (fuel : nat) (tp : LocalTerrainProvider.t) (g : t) :
  let b := LocalTerrainProvider.getBounds tp in
  Q2R (LocalTerrainProvider.minX b) + Game.buffer <= x (position g)
    <= Q2R (LocalTerrainProvider.maxX b) - Game.buffer ->
  Q2R (LocalTerrainProvider.minZ b) + Game.buffer <= z (position g)
    <= Q2R (LocalTerrainProvider.maxZ b) - Game.buffer ->
  Game.checkBoundaries fuel tp g = Some g.
Proof.
  intros b Hx Hz. unfold Game.checkBoundaries. cbv zeta.
  destruct (Rgt_dec (Game.distToEdge_x tp (position g)) 0) as [C|_].
  { exfalso. unfold Game.distToEdge_x in C. fold b in C.
    unfold Rmax in C. destruct (Rle_dec _ _) in C; lra. }
  destruct (Rgt_dec (Game.distToEdge_z tp (position g)) 0) as [C|_].
  { exfalso. unfold Game.distToEdge_z in C. fold b in C.
    unfold Rmax in C. destruct (Rle_dec _ _) in C; lra. }
  reflexivity.
Qed.

Lemma correction_strict (d s1 s2 : R) :
  d <> 0 -> 0 <= s1 -> s1 < s2 ->
  Rabs (d * s1 * 0.02) < Rabs (d * s2 * 0.02).
Proof.
  intros Hd H1 H2. rewrite !Rabs_mult.
  rewrite (Rabs_pos_eq s1), (Rabs_pos_eq s2), (Rabs_pos_eq 0.02) by lra.
  pose proof (Rabs_pos_lt d Hd). nra.
Qed.

(** C8 (amended). One call of the boundary force that returns moves
    the yaw by [d * strength * 0.02], where [d] is the difference
    between the target heading and the yaw brought into [-PI, PI] by
    whole turns, and the two loops that do so always stop.  For the
    same glider and direction a strength that is larger, between 0 and
    1, gives a strictly larger correction whenever [d] is not zero.
    A glider inside the buffered interior of the stage is not steered. *)
Theorem boundary_correction :
  (forall fuel dir s g g', applyBoundaryForce fuel dir s g = Some g' ->
     exists d,
       normalizeDiff fuel (atan2 (x dir) (- z dir) - yaw g) = Some d /\
       - PI <= d <= PI /\
       (exists k : Z, d = atan2 (x dir) (- z dir) - yaw g + 2 * PI * IZR k) /\
       yaw g' - yaw g = d * s * 0.02) /\
  (forall dir g, exists fuel, forall fuel' s, (fuel <= fuel')%nat ->
     exists g', applyBoundaryForce fuel' dir s g = Some g') /\
  (forall fuel dir s1 s2 g g1 g2,
     0 <= s1 -> s1 < s2 -> s2 <= 1 ->
     applyBoundaryForce fuel dir s1 g = Some g1 ->
     applyBoundaryForce fuel dir s2 g = Some g2 ->
     normalizeDiff fuel (atan2 (x dir) (- z dir) - yaw g) <> Some 0 ->
     Rabs (yaw g1 - yaw g) < Rabs (yaw g2 - yaw g)) /\
  (forall fuel tp g,
     let b := LocalTerrainProvider.getBounds tp in
     Q2R (LocalTerrainProvider.minX b) + Game.buffer <= x (position g)
       <= Q2R (LocalTerrainProvider.maxX b) - Game.buffer ->
     Q2R (LocalTerrainProvider.minZ b) + Game.buffer <= z (position g)
       <= Q2R (LocalTerrainProvider.maxZ b) - Game.buffer ->
     Game.checkBoundaries fuel tp g = Some g).
Proof.
  split; [|split; [|split]].
  - intros fuel dir s g g' H.
    destruct (applyBoundaryForce_yaw _ _ _ _ _ H) as (d & Hd & Hy).
    destruct (normalizeDiff_spec _ _ _ Hd) as (Hr & k & Hk).
    exists d. split; [auto|]. split; [auto|]. split; [eauto|]. lra.
  - intros dir g.
    destruct (normalizeDiff_total (atan2 (x dir) (- z dir) - yaw g)) as [fuel Hf].
    exists fuel. intros fuel' s Hle. destruct (Hf fuel' Hle) as [r Hr].
    unfold applyBoundaryForce. rewrite Hr. eauto.
  - intros fuel dir s1 s2 g g1 g2 H0 H12 H1 E1 E2 Hd.
    destruct (applyBoundaryForce_yaw _ _ _ _ _ E1) as (d1 & Hd1 & Hy1).
    destruct (applyBoundaryForce_yaw _ _ _ _ _ E2) as (d2 & Hd2 & Hy2).
    rewrite Hd1 in Hd2. inversion Hd2; subst d2.
    replace (yaw g1 - yaw g) with (d1 * s1 * 0.02) by lra.
    replace (yaw g2 - yaw g) with (d1 * s2 * 0.02) by lra.
    apply correction_strict; auto. intros ->. apply Hd. exact Hd1.
  - exact checkBoundaries_interior.
Qed.

Lemma boundary_correction_witness :
  exists g1 g2,
    applyBoundaryForce 0 (vec3 (-1) 0 0) (1 / 2) (constructor tt) = Some g1 /\
    applyBoundaryForce 0 (vec3 (-1) 0 0) 1 (constructor tt) = Some g2 /\
    Rabs (yaw g1 - yaw (constructor tt)) < Rabs (yaw g2 - yaw (constructor tt)).
Proof.
  pose proof PI_RGT_0 as Hpi.
  assert (E : forall s,
    applyBoundaryForce 0 (vec3 (-1) 0 0) s (constructor tt) =
    Some (set_yaw (yaw (constructor tt)
                   + (- PI / 2 - yaw (constructor tt)) * s * 0.02)
                  (constructor tt))).
  { intros s. unfold applyBoundaryForce.
    rewrite atan2_left by (simpl; lra).
    rewrite normalizeDiff_fixed by (simpl; lra). reflexivity. }
  eexists. eexists. split; [apply E|]. split; [apply E|].
  apply (proj1 (proj2 (proj2 boundary_correction))
           0%nat (vec3 (-1) 0 0) (1 / 2) 1 (constructor tt));
    try lra; try apply E.
  rewrite atan2_left by (simpl; lra).
  rewrite normalizeDiff_fixed by (simpl; lra).
  intros C. inversion C as [C']. simpl in C'. lra.
Defined.

(** C8 (as stated).  With the glider already heading for the centre a
    stronger push changes nothing, so the correction does not grow
    with the strength; and a difference of exactly [-PI] stays [-PI],
    outside the half-open interval from [-PI] to [PI]. *)
Lemma strength_without_effect :
  (exists g1 g2,
     applyBoundaryForce 0 (vec3 0 0 (-1)) (1 / 2) (constructor tt) = Some g1 /\
     applyBoundaryForce 0 (vec3 0 0 (-1)) 1 (constructor tt) = Some g2 /\
     ~ Rabs (yaw g1 - yaw (constructor tt)) < Rabs (yaw g2 - yaw (constructor tt))) /\
  (normalizeDiff 0
     (atan2 (x (vec3 0 0 (-1))) (- z (vec3 0 0 (-1)))
      - yaw (set_yaw PI (constructor tt))) = Some (- PI) /\
   ~ (- PI < - PI <= PI)).
Proof.
  pose proof PI_RGT_0 as Hpi.
  assert (T : atan2 (x (vec3 0 0 (-1))) (- z (vec3 0 0 (-1))) = 0).
  { apply atan2_ahead; simpl; lra. }
  split.
  - unfold applyBoundaryForce. rewrite T. simpl yaw.
    replace (0 - 0) with 0 by ring.
    rewrite (normalizeDiff_fixed 0 0) by lra.
    eexists. eexists. split; [reflexivity|]. split; [reflexivity|].
    simpl.
    replace (0 + 0 * (1 / 2) * 0.02 - 0) with 0 by lra.
    replace (0 + 0 * 1 * 0.02 - 0) with 0 by lra.
    lra.
  - rewrite T. simpl yaw. replace (0 - PI) with (- PI) by ring.
    split; [apply normalizeDiff_fixed; lra | lra].
Qed.

End BoundaryFacts.

(** ** Level flight *)

Module LevelFlight.
Import Three Glider.
Import GliderFacts.
Local Open Scope R_scope.

Lemma applyQuaternion_identity (v : Vector3) : applyQuaternion v identity = v.
Proof.
  unfold applyQuaternion, identity. destruct v as [a b c]. simpl. f_equal; ring.
Qed.

Lemma setFromEuler_zero : setFromEuler_YXZ 0 0 0 = identity.
Proof.
  unfold setFromEuler_YXZ, identity.
  replace (0 / 2) with 0 by lra. rewrite cos_0, sin_0. f_equal; ring.
Qed.

Lemma updateRotation_level (dt : R) (g : t) :
  pitch g = 0 -> roll g = 0 -> yaw g = 0 ->
  pitchInput g = 0 -> rollInput g = 0 ->
  updateRotation dt g = set_orientation identity 0 0 0 g.
Proof.
  intros Hp Hr Hy Hpi Hri. pose proof PI_RGT_0 as Hpi0.
  unfold updateRotation. rewrite Hp, Hr, Hy, Hpi, Hri.
  replace (0 + 0 * pitchRate * dt) with 0 by ring.
  replace (0 + 0 * rollRate * dt) with 0 by ring.
  assert (C3 : Rmax (- PI / 3) (Rmin (PI / 3) 0) = 0).
  { rewrite Rmin_right by lra. apply Rmax_right. lra. }
  assert (C2 : Rmax (- PI / 2) (Rmin (PI / 2) 0) = 0).
  { rewrite Rmin_right by lra. apply Rmax_right. lra. }
  rewrite C3, C2. rewrite sin_0.
  replace (0 + 0 * yawFromRoll * getSpeed g / 20 * dt) with 0 by (unfold Rdiv; ring).
  rewrite Rabs_R0. destruct (Rlt_dec 0 0.1); [|lra].
  replace (0 * (1 - 0.5 * dt)) with 0 by ring.
  rewrite setFromEuler_zero. reflexivity.
Qed.

Lemma updatePhysics_forces (dt : R) (g : t) :
  updatePhysics dt g = groundCheck (integratePosition dt (clampSpeed (forces dt g))).
Proof. reflexivity. Qed.

(** The forces only touch the velocity and the two debug values. *)
Lemma forces_frame (dt : R) (g : t) :
  position (forces dt g) = position g /\
  pitch (forces dt g) = pitch g /\ roll (forces dt g) = roll g /\
  yaw (forces dt g) = yaw g /\
  pitchInput (forces dt g) = pitchInput g /\
  rollInput (forces dt g) = rollInput g /\
  crashed (forces dt g) = crashed g.
Proof.
  unfold forces, applyDive, applyDrag, applyLift, applyGravity. cbv zeta.
  repeat break_if; simpl; repeat split; reflexivity.
Qed.

Lemma sqrt_le_bound (e b : R) : 0 <= b -> e <= b * b -> sqrt e <= b.
Proof.
  intros Hb He. destruct (Rle_dec 0 e) as [H0|H0].
  - rewrite <- (sqrt_square b Hb). apply sqrt_le_1_alt. exact He.
  - rewrite sqrt_neg_0 by lra. exact Hb.
Qed.

Lemma length_level (vy vz : R) :
  let s := length (vec3 0 vy vz) in
  0 <= s /\ s * s = vy * vy + vz * vz.
Proof.
  unfold length. simpl. split; [apply sqrt_pos|].
  replace (0 * 0 + vy * vy + vz * vz) with (vy * vy + vz * vz) by ring.
  apply sqrt_sqrt. nra.
Qed.

(** The numbers of one tick of level flight: [s] the speed, [c] the
    drag coefficient, [l] the lift acceleration. *)
Lemma level_numbers (s vy vz c l : R) :
  0 <= s -> s * s = vy * vy + vz * vz ->
  -22.2 <= vy <= 0 -> -20 <= vz <= 20 ->
  0.02 <= c <= 0.1 -> 0 <= l <= 0.8 * 9.81 ->
  let k := 1 - s * c * (1 / 60) in
  let vyn := vy * k - 9.81 * (1 / 60) + l * (1 / 60) in
  -22.2 <= vyn <= -0.03 /\ -20 <= vz * k <= 20 /\
  vyn <= 0.95 * vy - 0.032.
Proof.
  intros Hs Hss Hvy Hvz Hc Hl k vyn.
  assert (Hs30 : s <= 30) by nra.
  assert (Hsvy : - vy <= s) by nra.
  assert (Hk : 0.95 <= k <= 1) by (unfold k; nra).
  split; [|split; [nra|unfold vyn; nra]]. unfold vyn. split; [|nra].
  assert (Hsc : 0 <= s * c - (- vy) * 0.02) by nra.
  assert (Hprod : 0 <= (- vy) * (s * c - (- vy) * 0.02)).
  { apply Rmult_le_pos; lra. }
  assert (Hf : 0 <= (22.2 + vy) * (1 - 0.02 * (22.2 - vy) * (1 / 60))).
  { apply Rmult_le_pos; lra. }
  unfold k. nra.
Qed.

Ltac fields :=
  cbn [position velocity rotation pitch roll yaw pitchInput rollInput crashed
       debugLift debugAoA mesh_position mesh_quaternion x y z] in *.

Ltac vectors := unfold add, divideScalar; unfold multiplyScalar; fields.

Lemma forces_level_exact (dt : R) (g : t) (vy vz : R) :
  rotation g = identity -> pitch g = 0 -> velocity g = vec3 0 vy vz ->
  let s := length (vec3 0 vy vz) in
  let a := angleOfAttack (vec3 0 0 (-1)) (normalize (vec3 0 vy vz)) in
  velocity (forces dt g) =
    vec3 0 (vy * (1 - level_drag s a * dt) - gravity * dt + level_lift s * dt)
           (vz * (1 - level_drag s a * dt)).
Proof.
  intros Hrot Hp Hv.
  destruct g as [pos vel rot p r yw pin rin cr dl da mp mq].
  fields. subst rot p vel.
  set (s := length (vec3 0 vy vz)).
  set (a := angleOfAttack (vec3 0 0 (-1)) (normalize (vec3 0 vy vz))).
  unfold forces. cbv zeta. unfold getSpeed. fields.
  rewrite applyQuaternion_identity. fold s. fold a.
  assert (Es : s = length (vec3 0 vy vz)) by reflexivity.
  clearbody a. clearbody s.
  unfold set_debugAoA; fields.
  unfold applyGravity, set_velocity; fields.
  unfold applyLift, liftMagnitude, set_velocity, set_debugLift; fields.
  rewrite applyQuaternion_identity. rewrite cos_0.
  unfold level_lift, level_drag.
  destruct (Rgt_dec s minSpeed) as [L|L]; fields.
  all: unfold applyDrag, dragCoeff, set_velocity; fields.
  all: destruct (Rgt_dec 0 0.1) as [C|_]; [lra|].
  all: destruct (Rgt_dec s 0.1) as [D|D]; fields.
  all: unfold applyDive; fields.
  all: destruct (Rlt_dec 0 (-0.1)) as [C|_]; [lra|]; fields.
  all: unfold normalize.
  all: rewrite <- ?Es.
  all: try (destruct (Req_dec_T s 0) as [Z|NZ]; [lra|]).
  all: vectors; f_equal; try (field; assumption); try ring.
Qed.

Lemma angleOfAttack_bound (f v : Vector3) : 0 <= angleOfAttack f v <= 4.
Proof.
  unfold angleOfAttack.
  pose proof (acos_bound (Rmax (-1) (Rmin 1 (dot f v)))). pose proof PI_4. lra.
Qed.

Lemma level_rates (s a vy vz : R) :
  0 <= s -> s * s = vy * vy + vz * vz ->
  -22.2 <= vy <= 0 -> -20 <= vz <= 20 -> 0 <= a <= 4 ->
  let k := 1 - level_drag s a * (1 / 60) in
  let vyn := vy * k - gravity * (1 / 60) + level_lift s * (1 / 60) in
  -22.2 <= vyn <= -0.03 /\ -20 <= vz * k <= 20 /\
  vyn <= 0.95 * vy - 0.032.
Proof.
  intros Hs Hss Hvy Hvz Ha.
  assert (Hs30 : s <= 30) by nra.
  assert (Hl : 0 <= level_lift s <= 0.8 * 9.81).
  { unfold level_lift, minSpeed, liftCoefficient, gravity.
    destruct (Rgt_dec s 10); [|lra].
    rewrite Rmin_left by lra. lra. }
  unfold level_drag, baseDrag, gravity. destruct (Rgt_dec s 0.1) as [D|D].
  - apply (level_numbers s vy vz (0.02 + 0 + a * 0.02) (level_lift s)); auto; lra.
  - assert (- vy <= s) by nra.
    assert (E : level_lift s = 0).
    { unfold level_lift, minSpeed. destruct (Rgt_dec s 10); lra. }
    rewrite E. cbv zeta. lra.
Qed.

(** One tick of level flight from a flying state: the new velocity
    [(0, vyn, vzn)] and what the ground check makes of it. *)
Lemma level_tick_exact (g : t) (vy vz : R) :
  crashed g = false -> pitch g = 0 -> roll g = 0 -> yaw g = 0 ->
  velocity g = vec3 0 vy vz -> -22.2 <= vy <= 0 -> -20 <= vz <= 20 ->
  let g' := step 0 0 (1 / 60) g in
  let vyn := level_vy vy vz in
  let vzn := level_vz vy vz in
  -22.2 <= vyn <= -0.03 /\ -20 <= vzn <= 20 /\ vyn <= 0.95 * vy - 0.032 /\
  pitch g' = 0 /\ roll g' = 0 /\ yaw g' = 0 /\
  position g' = add (position g) (multiplyScalar (vec3 0 vyn vzn) (1 / 60)) /\
  ((y (position g') < 0 /\ crashed g' = true /\ velocity g' = vec3 0 0 0) \/
   (0 <= y (position g') /\ crashed g' = false /\ velocity g' = vec3 0 vyn vzn)).
Proof.
  intros Hc Hp Hr Hy Hv Hvy Hvz g' vyn vzn.
  unfold g', step, update. cbn [crashed setInput]. rewrite Hc.
  rewrite Rmin_left by lra.
  rewrite updateRotation_level by (cbn [pitch roll yaw pitchInput rollInput setInput]; auto).
  set (g0 := set_orientation identity 0 0 0 (setInput 0 0 g)).
  rewrite updatePhysics_forces.
  assert (F := forces_level_exact (1 / 60) g0 vy vz eq_refl eq_refl Hv).
  cbv zeta in F.
  destruct (length_level vy vz) as [Hs0 Hss].
  destruct (level_rates _ _ vy vz Hs0 Hss Hvy Hvz
              (angleOfAttack_bound (vec3 0 0 (-1)) (normalize (vec3 0 vy vz))))
    as (B1 & B2 & B3).
  destruct (forces_frame (1 / 60) g0) as (Fpos & Fp & Fr & Fy & _ & _ & Fc).
  set (h := forces (1 / 60) g0) in *.
  fold (level_k vy vz) in F, B1, B2, B3.
  fold (level_vy vy vz) in F, B1, B3. fold (level_vz vy vz) in F, B2.
  fold vyn in F, B1, B3. fold vzn in F, B2.
  clearbody vyn vzn h.
  assert (Hclamp : clampSpeed h = h).
  { unfold clampSpeed. destruct (Rgt_dec (getSpeed h) maxSpeed) as [C|C]; auto.
    exfalso. unfold getSpeed, maxSpeed in C. rewrite F in C.
    assert (length (vec3 0 vyn vzn) <= 30).
    { unfold length. cbn [x y z]. apply sqrt_le_bound; nra. }
    lra. }
  rewrite Hclamp.
  split; [exact B1|]. split; [exact B2|]. split; [exact B3|].
  unfold groundCheck, integratePosition.
  cbn [position set_position]. rewrite F, Fpos.
  destruct (Rlt_dec _ 0) as [G|G].
  - cbn. rewrite Fp, Fr, Fy. repeat split; auto.
  - cbn. rewrite Fp, Fr, Fy, Fc, F. repeat split; auto. right.
    repeat split; auto. cbn in G. lra.
Qed.

Lemma level_tick (g : t) (vy vz : R) :
  crashed g = false -> pitch g = 0 -> roll g = 0 -> yaw g = 0 ->
  velocity g = vec3 0 vy vz -> -22.2 <= vy <= 0 -> -20 <= vz <= 20 ->
  let g' := step 0 0 (1 / 60) g in
  exists vyn vzn,
    -22.2 <= vyn <= -0.03 /\ -20 <= vzn <= 20 /\ vyn <= 0.95 * vy - 0.032 /\
    pitch g' = 0 /\ roll g' = 0 /\ yaw g' = 0 /\
    position g' = add (position g) (multiplyScalar (vec3 0 vyn vzn) (1 / 60)) /\
    ((y (position g') < 0 /\ crashed g' = true /\ velocity g' = vec3 0 0 0) \/
     (0 <= y (position g') /\ crashed g' = false /\ velocity g' = vec3 0 vyn vzn)).
Proof.
  intros Hc Hp Hr Hy Hv Hvy Hvz g'.
  exists (level_vy vy vz), (level_vz vy vz).
  apply level_tick_exact; auto.
Qed.

Lemma scenarioA_S (n : nat) :
  scenarioA (S n) = step 0 0 (1 / 60) (scenarioA n).
Proof.
  unfold scenarioA, steps. cbn [repeat]. rewrite repeat_cons.
  rewrite fold_left_app. reflexivity.
Qed.

Lemma scenarioA_level (n : nat) : level_state n (scenarioA n).
Proof.
  induction n as [|n IH].
  - unfold level_state, scenarioA, getAltitude.
    cbn [repeat steps fold_left constructor pitch roll yaw velocity position
         crashed x y z INR].
    assert (M : Rmin 0.3 (0.017 * 0) = 0).
    { unfold Rmin. destruct (Rle_dec 0.3 (0.017 * 0)); lra. }
    rewrite M. repeat split; try lra.
  - rewrite scenarioA_S. set (g := scenarioA n) in *.
    destruct IH as (Hp & Hr & Hy & Hvx & Hvy & Hvz & Hlow & Hpx & Hpz & Hfly).
    pose proof (pos_INR n) as Hn.
    unfold level_state. rewrite S_INR. destruct (crashed g) eqn:Hc.
    + unfold step. rewrite update_crashed by (cbn; auto).
      unfold getAltitude in *.
      cbn [setInput pitch roll yaw velocity position crashed].
      repeat split; try tauto; try lra.
      all: intros; congruence.
    + destruct (Hfly eq_refl) as (Hup & H0 & Hup2 & Hsink).
      destruct (level_tick g (y (velocity g)) (z (velocity g)) Hc Hp Hr Hy)
        as (vyn & vzn & B1 & B2 & B3 & Ep & Er & Ey & Epos & Hcase); auto.
      { destruct (velocity g) as [a b c]. cbn in *. subst a. reflexivity. }
      assert (Hm : vyn <= - Rmin 0.3 (0.017 * (INR n + 1))).
      { unfold Rmin in *.
        destruct (Rle_dec 0.3 (0.017 * INR n));
          destruct (Rle_dec 0.3 (0.017 * (INR n + 1))); lra. }
      assert (Hd : vyn * (1 / 60) <= -0.005 \/ INR n + 1 <= 18).
      { unfold Rmin in Hm.
        destruct (Rle_dec 0.3 (0.017 * (INR n + 1))); [left|right]; lra. }
      unfold getAltitude in *. rewrite Ep, Er, Ey, Epos.
      unfold add, multiplyScalar. cbn [x y z].
      rewrite Epos in Hcase. unfold add, multiplyScalar in Hcase.
      cbn [x y z] in Hcase.
      destruct Hcase as [(G & C & V)|(G & C & V)]; rewrite V, C; cbn [x y z].
      * repeat split; try lra. all: intros; congruence.
      * repeat split; try lra. all: destruct Hd; lra.
Qed.

Lemma scenarioA_descends (n : nat) :
  crashed (scenarioA n) = false ->
  getAltitude (scenarioA (S n)) < getAltitude (scenarioA n) /\
  getAltitude (scenarioA n) - 0.37 <= getAltitude (scenarioA (S n)) /\
  (crashed (scenarioA (S n)) = true <-> getAltitude (scenarioA (S n)) < 0).
Proof.
  intros Hc. pose proof (scenarioA_level n) as L.
  rewrite scenarioA_S. set (g := scenarioA n) in *.
  destruct L as (Hp & Hr & Hy & Hvx & Hvy & Hvz & _).
  destruct (level_tick g (y (velocity g)) (z (velocity g)) Hc Hp Hr Hy)
    as (vyn & vzn & B1 & B2 & _ & Ep & Er & Ey & Epos & Hcase); auto.
  { destruct (velocity g) as [a b c]. cbn in *. subst a. reflexivity. }
  unfold getAltitude. rewrite Epos in *. unfold add, multiplyScalar in *.
  cbn [x y z] in *.
  split; [lra|]. split; [lra|].
  destruct Hcase as [(G & C & V)|(G & C & V)]; rewrite C; split; intros; auto;
    try congruence; lra.
Qed.

Lemma scenarioA_flying_1000 (n : nat) :
  (n <= 1000)%nat -> crashed (scenarioA n) = false.
Proof.
  induction n as [|n IH]; intros Hn; [reflexivity|].
  assert (Hc : crashed (scenarioA n) = false) by (apply IH; lia).
  destruct (scenarioA_descends n Hc) as (_ & _ & Hiff).
  destruct (crashed (scenarioA (S n))) eqn:E; auto.
  exfalso. assert (G : getAltitude (scenarioA (S n)) < 0) by (apply Hiff; auto).
  destruct (scenarioA_level (S n)) as (_ & _ & _ & _ & _ & _ & Hlow & _).
  apply le_INR in Hn. rewrite (INR_IZR_INZ 1000) in Hn.
  change (Z.of_nat 1000) with 1000%Z in Hn. lra.
Qed.

End LevelFlight.

(** ** Scenario A and the ground check *)

Module ScenarioFacts.
Import Three Glider.
Import GliderFacts BoundaryFacts LevelFlight TerrainFacts.
Local Open Scope R_scope.

Lemma scenarioA_crashes : exists N, crashed (scenarioA N) = true.
Proof.
  assert (HN : exists N : nat, INR N = 2000001).
  { exists (Z.to_nat 2000001). rewrite INR_IZR_INZ, Z2Nat.id by lia. reflexivity. }
  destruct HN as [N HN]. exists N.
  destruct (crashed (scenarioA N)) eqn:E; auto. exfalso.
  destruct (scenarioA_level N) as (_ & _ & _ & _ & _ & _ & _ & _ & _ & Hfly).
  destruct (Hfly E) as (Hup & H0 & _). rewrite HN in Hup. lra.
Qed.

Lemma first_crash (N : nat) :
  crashed (scenarioA N) = true ->
  exists n, (n < N)%nat /\ crashed (scenarioA n) = false /\
            crashed (scenarioA (S n)) = true.
Proof.
  induction N as [|N IH]; intros H.
  - discriminate.
  - destruct (crashed (scenarioA N)) eqn:E.
    + destruct (IH eq_refl) as (n & Hn & A & B). exists n. repeat split; auto.
    + exists N. repeat split; auto.
Qed.

(** *** The ground check *)

Lemma groundCheck_iff (dt : R) (g : t) :
  crashed g = false ->
  (crashed (update dt g) = true <-> y (position (update dt g)) < 0).
Proof.
  intros Hc. unfold update. rewrite Hc. rewrite updatePhysics_forces.
  set (g0 := updateRotation (Rmin dt 0.1) g).
  assert (C0 : crashed g0 = false) by (unfold g0, updateRotation; cbn; auto).
  destruct (forces_frame (Rmin dt 0.1) g0) as (_ & _ & _ & _ & _ & _ & Fc).
  set (h := forces (Rmin dt 0.1) g0) in *. clearbody h.
  assert (C1 : crashed (integratePosition (Rmin dt 0.1) (clampSpeed h)) = false).
  { unfold integratePosition, clampSpeed.
    destruct (Rgt_dec (getSpeed h) maxSpeed); cbn; congruence. }
  set (k := integratePosition (Rmin dt 0.1) (clampSpeed h)) in *. clearbody k.
  unfold groundCheck. destruct (Rlt_dec (y (position k)) 0) as [G|G]; cbn.
  - tauto.
  - rewrite C1. split; [discriminate|intros; contradiction].
Qed.

Lemma first_tick :
  let g1 := step 0 0 (1 / 60) (constructor tt) in
  position g1 = vec3 0 (1000 - 763 / 600000) (- 149 / 450) /\
  crashed g1 = false.
Proof.
  assert (Len : length (vec3 0 0 (-20)) = 20).
  { unfold length. cbn [x y z].
    replace (0 * 0 + 0 * 0 + -20 * -20) with (20 * 20) by ring.
    apply sqrt_square. lra. }
  assert (Aoa : angleOfAttack (vec3 0 0 (-1)) (normalize (vec3 0 0 (-20))) = 0).
  { unfold angleOfAttack, normalize. rewrite Len.
    destruct (Req_dec_T 20 0); [lra|].
    unfold dot, divideScalar, multiplyScalar. cbn [x y z].
    replace (0 * (0 * (1 / 20)) + 0 * (0 * (1 / 20)) + -1 * (-20 * (1 / 20)))
      with 1 by field.
    rewrite Rmin_left by lra. rewrite Rmax_right by lra. apply acos_1. }
  assert (K : level_k 0 (-20) = 149 / 150).
  { unfold level_k. rewrite Len, Aoa. clear. unfold level_drag, baseDrag.
    destruct (Rgt_dec 20 0.1); lra. }
  assert (Vy : level_vy 0 (-20) = - 763 / 10000).
  { unfold level_vy. rewrite K, Len. clear.
    unfold level_lift, minSpeed, liftCoefficient, gravity.
    destruct (Rgt_dec 20 10); [|lra]. rewrite Rmin_left by lra. lra. }
  assert (Vz : level_vz 0 (-20) = - 298 / 15).
  { unfold level_vz. rewrite K. clear. lra. }
  clear Len Aoa K.
  destruct (level_tick_exact (constructor tt) 0 (-20))
    as (_ & _ & _ & _ & _ & _ & Epos & Hcase); try reflexivity; try lra.
  rewrite Vy, Vz in *. intros g1. fold g1 in Epos, Hcase.
  assert (P : position g1 = vec3 0 (1000 - 763 / 600000) (- 149 / 450)).
  { rewrite Epos. cbn [position constructor]. vectors.
    f_equal; clear; lra. }
  split; auto. rewrite P in Hcase. cbn [y] in Hcase.
  destruct Hcase as [(G & _)|(_ & C & _)]; [clear - G; lra|auto].
Qed.

Lemma loadTerrain_bounds (img : LocalTerrainProvider.Image) (tp : LocalTerrainProvider.t) :
  Game.loadTerrain (Some img) = Some tp ->
  let b := LocalTerrainProvider.getBounds tp in
  Q2R (LocalTerrainProvider.minX b) = -2850 /\
  Q2R (LocalTerrainProvider.maxX b) = 2850 /\
  Q2R (LocalTerrainProvider.minZ b) = -1500 /\
  Q2R (LocalTerrainProvider.maxZ b) = 1500.
Proof.
  unfold Game.loadTerrain. simpl. intros E. inversion E; subst. clear E.
  unfold Q2R. simpl. repeat split; lra.
Qed.

Lemma white_stage_height (tp : LocalTerrainProvider.t) :
  Game.loadTerrain (Some Game.white_heightmap) = Some tp ->
  exists h, LocalTerrainProvider.getHeightAt tp 0 (- 149 # 450) = Some h /\
            Q2R h = 2000.
Proof.
  intros E. vm_compute in E. inversion E; subst tp. clear E.
  eexists. split; [vm_compute; reflexivity|].
  unfold Q2R. cbn [Qnum Qden]. field.
Qed.

Lemma neutral_input (zone : bool) :
  let im := InputManager.update (InputManager.constructor zone) in
  Q2R (InputManager.getPitch im) = 0 /\ Q2R (InputManager.getRoll im) = 0.
Proof.
  cbn. unfold Q2R. cbn. split; lra.
Qed.

Lemma grey_stage_height (tp : LocalTerrainProvider.t) :
  Game.loadTerrain (Some Game.grey_heightmap) = Some tp ->
  forall qx qz : Q,
    (-2850 <= qx <= 2850)%Q -> (-1500 <= qz <= 1500)%Q ->
    exists h, LocalTerrainProvider.getHeightAt tp qx qz = Some h /\ 996 < Q2R h.
Proof.
  intros E qx qz Hx Hz. vm_compute in E. inversion E; subst tp. clear E.
  match goal with |- context [LocalTerrainProvider.getHeightAt ?tp _ _] =>
    destruct (getHeightAt_flat tp
                [254000 # 255; 254000 # 255; 254000 # 255; 254000 # 255]%Q
                (254000 # 255)%Q qx qz) as (r & Hr & Hc)
  end.
  - unfold LocalTerrainProvider.loaded.
    cbn [LocalTerrainProvider.heightData LocalTerrainProvider.heightDataWidth
         LocalTerrainProvider.heightDataHeight].
    split; [reflexivity|]. repeat split; try lia.
  - repeat constructor; reflexivity.
  - reflexivity.
  - reflexivity.
  - cbn. split; [apply Qle_trans with (-2850)%Q|apply Qle_trans with 2850%Q];
      try tauto; discriminate.
  - cbn. split; [apply Qle_trans with (-1500)%Q|apply Qle_trans with 1500%Q];
      try tauto; discriminate.
  - exists r. split; [exact Hr|]. apply Qeq_eqR in Hc. rewrite Hc.
    unfold Q2R. cbn [Qnum Qden]. lra.
Qed.

Lemma hands_off_update (im : InputManager.t) :
  Game.hands_off im -> Game.hands_off (InputManager.update im).
Proof.
  intros (Ht & Hu & Hd & Hl & Hr & Hp & Hro).
  unfold Game.hands_off, InputManager.update. rewrite Ht, Hu, Hd, Hl, Hr.
  cbn [InputManager.with_axes InputManager.touchActive InputManager.keys
       InputManager.pitch InputManager.roll].
  repeat split; auto; rewrite Q2R_mult; [rewrite Hp|rewrite Hro]; ring.
Qed.

(** As long as nobody touches the controls and the glider stays
    inside the buffered interior, the frames of the game are the ticks
    of scenario A. *)
Lemma frames_scenarioA (fuel m : nat) :
  forall (k : nat) (game : Game.t),
    (k + m <= 1000)%nat ->
    Game.loading game = false ->
    Game.hands_off (Game.inputManager game) ->
    Game.glider game = scenarioA k ->
    (exists img, Game.loadTerrain (Some img) = Some (Game.terrainProvider game)) ->
    exists game',
      Game.frames fuel (repeat (1 / 60) m) game = Some game' /\
      Game.glider game' = scenarioA (k + m) /\
      Game.terrainProvider game' = Game.terrainProvider game.
Proof.
  induction m as [|m IH]; intros k game Hk Hload Him Hg Htp.
  - exists game. rewrite Nat.add_0_r. cbn. auto.
  - cbn [repeat Game.frames]. unfold Game.animate. rewrite Hload.
    pose proof (hands_off_update _ Him) as Him'.
    destruct Him' as (Ht & Hu & Hd & Hl & Hr & Hp & Hro).
    unfold InputManager.getPitch, InputManager.getRoll. rewrite Hp, Hro, Hg.
    fold (step 0 0 (1 / 60) (scenarioA k)). rewrite <- scenarioA_S.
    destruct Htp as [img Himg].
    destruct (loadTerrain_bounds img _ Himg) as (Bx0 & Bx1 & Bz0 & Bz1).
    destruct (scenarioA_level (S k)) as (_ & _ & _ & _ & _ & _ & _ & Hpx & Hpz & _).
    assert (HkR : INR (S k) <= 1000).
    { assert (Hle : (S k <= 1000)%nat) by lia. apply le_INR in Hle.
      rewrite (INR_IZR_INZ 1000) in Hle.
      change (Z.of_nat 1000) with 1000%Z in Hle. exact Hle. }
    rewrite checkBoundaries_interior.
    + destruct (IH (S k)
                  {| Game.glider := scenarioA (S k);
                     Game.inputManager := InputManager.update (Game.inputManager game);
                     Game.terrainProvider := Game.terrainProvider game;
                     Game.loading := false |})
        as (game' & F & G & T); auto; try lia.
      * repeat split; auto.
      * exists img. exact Himg.
      * exists game'. cbn [Game.terrainProvider] in T.
        replace (k + S m)%nat with (S k + m)%nat by lia. auto.
    + rewrite Bx0, Bx1, Hpx. unfold Game.buffer. lra.
    + rewrite Bz0, Bz1. unfold Game.buffer. lra.
Qed.

(** C1. A step of a flying glider sets the crashed flag exactly when
    the integrated position is below altitude 0; the terrain provider
    the game hands to the constructor is never asked.  On a stage whose
    heightmap is white the ground is 2000 m high under the glider
    after the first frame, the glider is at 999.99 m, and it has not
    crashed. *)
Theorem ground_check_ignores_terrain :
  (forall dt g, crashed g = false ->
     (crashed (update dt g) = true <-> y (position (update dt g)) < 0)) /\
  (forall zone fuel, exists game0 game1 h,
     Game.init (Some Game.white_heightmap) zone = Some game0 /\
     Game.animate fuel (1 / 60) game0 = Some game1 /\
     x (position (Game.glider game1)) = Q2R 0 /\
     z (position (Game.glider game1)) = Q2R (- 149 # 450) /\
     LocalTerrainProvider.getHeightAt (Game.terrainProvider game1) 0 (- 149 # 450)
       = Some h /\
     0 <= y (position (Game.glider game1)) < Q2R h /\
     crashed (Game.glider game1) = false).
Proof.
  split; [exact groundCheck_iff|]. intros zone fuel.
  destruct (Game.loadTerrain (Some Game.white_heightmap)) as [tp|] eqn:Etp;
    [|vm_compute in Etp; discriminate].
  destruct (white_stage_height tp Etp) as (h & Hh & Hh2).
  destruct (loadTerrain_bounds _ tp Etp) as (Bx0 & Bx1 & Bz0 & Bz1).
  destruct (neutral_input zone) as [Ip Ir].
  destruct first_tick as [P C].
  remember (step 0 0 (1 / 60) (constructor tt)) as g1 eqn:Eg1.
  unfold Game.init. rewrite Etp.
  eexists.
  exists (Game.mk g1 (InputManager.update (InputManager.constructor zone)) tp false).
  exists h. split; [reflexivity|].
  unfold Game.animate. cbn [Game.loading Game.glider Game.inputManager Game.terrainProvider].
  rewrite Ip, Ir. fold (step 0 0 (1 / 60) (constructor tt)). rewrite <- Eg1.
  rewrite checkBoundaries_interior.
  - split; [reflexivity|]. cbn [Game.glider Game.terrainProvider].
    rewrite P. cbn [x y z]. rewrite Hh2.
    split; [unfold Q2R; cbn; lra|]. split; [unfold Q2R; cbn; lra|].
    split; [exact Hh|]. split; [lra|exact C].
  - rewrite Bx0, Bx1, P. unfold Game.buffer. cbn [x]. lra.
  - rewrite Bz0, Bz1, P. unfold Game.buffer. cbn [z]. lra.
Qed.

Lemma ground_check_ignores_terrain_witness :
  crashed (update (1 / 60) (constructor tt)) = true <->
  y (position (update (1 / 60) (constructor tt))) < 0.
Proof.
  apply (proj1 ground_check_ignores_terrain). reflexivity.
Defined.

(** C2. In scenario A the glider is flying during the first 1000
    ticks and its altitude is strictly lower after each of them; as
    long as it flies the altitude keeps falling, and the crashed flag
    is set by the first tick that ends below altitude 0, which comes
    after finitely many ticks: just before, the glider still flies
    less than 0.37 m high.  The ground of the stage plays no part: on
    the grey stage, 996 m high everywhere, 1000 frames of the game
    are the 1000 ticks, and after them the glider is inside the stage,
    below 996 m, and has not crashed. *)
Theorem scenario_A :
  (forall n, (n < 1000)%nat ->
     crashed (scenarioA n) = false /\
     getAltitude (scenarioA (S n)) < getAltitude (scenarioA n)) /\
  crashed (scenarioA 1000) = false /\
  (forall n, crashed (scenarioA n) = false ->
     getAltitude (scenarioA (S n)) < getAltitude (scenarioA n) /\
     (crashed (scenarioA (S n)) = true <-> getAltitude (scenarioA (S n)) < 0)) /\
  (exists n,
     crashed (scenarioA n) = false /\
     0 <= getAltitude (scenarioA n) < 0.37 /\
     crashed (scenarioA (S n)) = true /\
     getAltitude (scenarioA (S n)) < 0) /\
  (forall zone fuel, exists game0 game1000,
     Game.init (Some Game.grey_heightmap) zone = Some game0 /\
     Game.frames fuel (repeat (1 / 60) 1000) game0 = Some game1000 /\
     Game.glider game1000 = scenarioA 1000 /\
     (forall qx qz : Q,
        (-2850 <= qx <= 2850)%Q -> (-1500 <= qz <= 1500)%Q ->
        exists h,
          LocalTerrainProvider.getHeightAt (Game.terrainProvider game1000) qx qz
            = Some h /\ 996 < Q2R h) /\
     x (position (scenarioA 1000)) = 0 /\
     -334 <= z (position (scenarioA 1000)) <= 334 /\
     getAltitude (scenarioA 1000) < 996 /\
     crashed (scenarioA 1000) = false).
Proof.
  split; [|split; [|split; [|split]]].
  - intros n Hn.
    assert (Hc : crashed (scenarioA n) = false) by (apply scenarioA_flying_1000; lia).
    split; auto. apply scenarioA_descends; auto.
  - apply scenarioA_flying_1000. lia.
  - intros n Hc. destruct (scenarioA_descends n Hc) as (A & _ & B). auto.
  - destruct scenarioA_crashes as [N HN].
    destruct (first_crash N HN) as (n & _ & Hf & Hc).
    destruct (scenarioA_descends n Hf) as (A & B & C).
    destruct (scenarioA_level n) as (_ & _ & _ & _ & _ & _ & _ & _ & _ & Hfly).
    destruct (Hfly Hf) as (_ & H0 & _).
    assert (G : getAltitude (scenarioA (S n)) < 0) by (apply C; auto).
    exists n. repeat split; auto; lra.
  - intros zone fuel.
    destruct (Game.loadTerrain (Some Game.grey_heightmap)) as [tp|] eqn:Etp;
      [|vm_compute in Etp; discriminate].
    unfold Game.init. rewrite Etp. eexists.
    destruct (frames_scenarioA fuel 1000 0
                {| Game.glider := constructor tt;
                   Game.inputManager := InputManager.constructor zone;
                   Game.terrainProvider := tp;
                   Game.loading := false |})
      as (game' & F & G & T); auto.
    { unfold Game.hands_off. cbn. unfold Q2R. cbn. repeat split; auto; lra. }
    { exists Game.grey_heightmap. exact Etp. }
    exists game'. split; [reflexivity|]. split; [exact F|]. split; [exact G|].
    cbn [Game.terrainProvider] in T. rewrite T.
    split; [exact (grey_stage_height tp Etp)|].
    assert (Hfly : crashed (scenarioA 1000) = false)
      by (apply scenarioA_flying_1000; lia).
    destruct (scenarioA_level 1000) as (_ & _ & _ & _ & _ & _ & _ & Hpx & Hpz & Hf).
    destruct (Hf Hfly) as (_ & _ & Hup & _).
    rewrite (INR_IZR_INZ 1000) in Hpz, Hup.
    change (Z.of_nat 1000) with 1000%Z in Hpz, Hup.
    repeat split; auto; lra.
Qed.

Lemma scenario_A_witness :
  crashed (scenarioA 0) = false /\
  getAltitude (scenarioA 1) < getAltitude (scenarioA 0).
Proof.
  apply (proj1 scenario_A 0%nat). lia.
Defined.

End ScenarioFacts.

(** ** The frame loop *)

Module GameFacts.
Import Three Glider.
Import GliderFacts BoundaryFacts ScenarioFacts.
Local Open Scope R_scope.

(** C10. On the Grand Canyon stage, whatever its heightmap, a frame
    of the game moves the yaw of the wreck lying at (2800, -1, 0),
    though its crashed flag is set and its position and velocity stay
    as they are: the boundary check runs after the update and the
    boundary force does not look at the flag. *)
Theorem yaw_drifts_while_crashed
    (img : LocalTerrainProvider.Image) (tp : LocalTerrainProvider.t)
    (fuel : nat) (dt : R) :
  Game.loadTerrain (Some img) = Some tp ->
  crashed wreck = true /\
  exists game',
    Game.animate fuel dt (Game.wreck_game tp) = Some game' /\
    yaw (Game.glider game') <> yaw wreck /\
    position (Game.glider game') = position wreck /\
    velocity (Game.glider game') = velocity wreck /\
    crashed (Game.glider game') = true.
Proof.
  intros Hload. split; [reflexivity|].
  destruct (loadTerrain_bounds img tp Hload) as (Bx0 & Bx1 & Bz0 & Bz1).
  pose proof PI_RGT_0 as Hpi.
  unfold Game.animate, Game.wreck_game. simpl Game.loading. cbv iota.
  simpl Game.glider. simpl Game.inputManager. simpl Game.terrainProvider.
  set (g := Glider.update dt _).
  assert (Eg : g = setInput (Q2R (InputManager.getPitch (InputManager.update (InputManager.constructor false))))
                            (Q2R (InputManager.getRoll (InputManager.update (InputManager.constructor false)))) wreck).
  { unfold g. apply update_crashed. reflexivity. }
  clearbody g. subst g. set (g := setInput _ _ wreck).
  assert (Epos : position g = vec3 2800 (-1) 0) by reflexivity.
  assert (Eyaw : yaw g = 0) by reflexivity.
  assert (Dx : Game.distToEdge_x tp (position g) = 50).
  { unfold Game.distToEdge_x, Game.buffer. rewrite Bx0, Bx1, Epos. simpl.
    unfold Rmax. destruct (Rle_dec _ _); lra. }
  assert (Dz : Game.distToEdge_z tp (position g) = -1400).
  { unfold Game.distToEdge_z, Game.buffer. rewrite Bz0, Bz1, Epos. simpl.
    unfold Rmax. destruct (Rle_dec _ _); lra. }
  assert (Len : length (vec3 (Ropp 2800) 0 (Ropp 0)) = 2800).
  { unfold length. simpl.
    match goal with |- sqrt ?e = _ => replace e with (2800 * 2800) by ring end.
    apply sqrt_square. lra. }
  unfold Game.checkBoundaries. cbv zeta. rewrite Dx, Dz.
  destruct (Rgt_dec 50 0) as [_|C]; [|lra].
  rewrite Epos. simpl x. simpl z.
  unfold applyBoundaryForce.
  rewrite atan2_left.
  - rewrite Eyaw. rewrite normalizeDiff_fixed by lra.
    eexists. split; [reflexivity|]. simpl.
    split; [|auto].
    unfold Game.buffer, Rmax, Rmin. repeat break_if; try lra.
  - unfold normalize. rewrite Len. destruct (Req_dec_T 2800 0); [lra|].
    simpl. lra.
  - unfold normalize. rewrite Len. destruct (Req_dec_T 2800 0); [lra|].
    simpl. lra.
Qed.

Lemma yaw_drifts_while_crashed_witness :
  exists tp,
    Game.loadTerrain (Some Game.white_heightmap) = Some tp /\
    exists game',
      Game.animate 0 (1 / 60) (Game.wreck_game tp) = Some game' /\
      yaw (Game.glider game') <> yaw wreck.
Proof.
  eexists. split; [reflexivity|].
  destruct (yaw_drifts_while_crashed Game.white_heightmap _ 0%nat (1 / 60) eq_refl)
    as (_ & game' & A & B & _).
  exists game'. split; [exact A | exact B].
Defined.

End GameFacts.

(** ** More on the input manager *)

Module InputExtra.
Import InputManager InputFacts.
Local Open Scope Q_scope.

(** *** Keys *)

Lemma set_key_release (c : string) (b : bool) (k : Keys) :
  set_key c false (set_key c b k) = set_key c false k.
Proof.
  unfold set_key.
  destruct (code_is c "ArrowUp" "KeyW"); [reflexivity|].
  destruct (code_is c "ArrowDown" "KeyS"); [reflexivity|].
  destruct (code_is c "ArrowLeft" "KeyA"); [reflexivity|].
  destruct (code_is c "ArrowRight" "KeyD"); reflexivity.
Qed.

Lemma with_keys_same (s : t) : with_keys (keys s) s = s.
Proof. destruct s. reflexivity. Qed.

(** X1. Releasing a key undoes pressing it: a key-down followed by
    the key-up of the same code leaves the state that the key-up
    alone leaves, so a press and release of a key that was up changes
    nothing.  Key events never touch the two axes, and a code other
    than the four arrows and W, A, S, D changes nothing at all. *)
Theorem key_press_release (c : string) (s : t) :
  handleKeyUp c (handleKeyDown c s) = handleKeyUp c s /\
  (handleKeyUp c s = s -> handleKeyUp c (handleKeyDown c s) = s) /\
  pitch (handleKeyDown c s) = pitch s /\ roll (handleKeyDown c s) = roll s /\
  pitch (handleKeyUp c s) = pitch s /\ roll (handleKeyUp c s) = roll s /\
  (~ In c ["ArrowUp"; "KeyW"; "ArrowDown"; "KeyS";
            "ArrowLeft"; "KeyA"; "ArrowRight"; "KeyD"]%string ->
   handleKeyDown c s = s /\ handleKeyUp c s = s).
Proof.
  assert (R : handleKeyUp c (handleKeyDown c s) = handleKeyUp c s).
  { unfold handleKeyUp, handleKeyDown. cbn [with_keys keys].
    rewrite set_key_release. destruct s. reflexivity. }
  split; [exact R|]. split; [intros H; rewrite R; exact H|].
  repeat (split; [reflexivity|]).
  intros Hc.
  assert (N : forall a b, In a ["ArrowUp"; "KeyW"; "ArrowDown"; "KeyS";
                                "ArrowLeft"; "KeyA"; "ArrowRight"; "KeyD"]%string ->
                          In b ["ArrowUp"; "KeyW"; "ArrowDown"; "KeyS";
                                "ArrowLeft"; "KeyA"; "ArrowRight"; "KeyD"]%string ->
                          code_is c a b = false).
  { intros a b Ha Hb. unfold code_is. apply orb_false_iff.
    split; apply String.eqb_neq; intros ->; contradiction. }
  unfold handleKeyDown, handleKeyUp, set_key.
  rewrite !N by (simpl; tauto). split; apply with_keys_same.
Qed.

(** *** Holding and releasing a key *)

Lemma update_keeps_controls (s : t) :
  keys (update s) = keys s /\ touchActive (update s) = touchActive s /\
  touchStartX (update s) = touchStartX s /\ touchStartY (update s) = touchStartY s /\
  touchCurrentX (update s) = touchCurrentX s /\
  touchCurrentY (update s) = touchCurrentY s /\ touchZone (update s) = touchZone s.
Proof.
  destruct s as [p r k a sx sy cx cy z]. unfold update. cbn.
  destruct a; cbn; repeat split; reflexivity.
Qed.

Lemma iter_keeps_controls (n : nat) (s : t) :
  keys (Nat.iter n update s) = keys s /\
  touchActive (Nat.iter n update s) = touchActive s.
Proof.
  induction n as [|n [IH1 IH2]]; [split; reflexivity|].
  rewrite Nat.iter_succ.
  destruct (update_keeps_controls (Nat.iter n update s)) as (A & B & _).
  rewrite A, B. auto.
Qed.

Lemma of_nat_succ_Q (n : nat) :
  inject_Z (Z.of_nat (S n)) == inject_Z (Z.of_nat n) + 1.
Proof. rewrite Nat2Z.inj_succ. unfold Z.succ. rewrite inject_Z_plus. reflexivity. Qed.

Lemma ramp_up_step (a : Q) (n : nat) :
  Qmin (Qmin (a + 0.05 * inject_Z (Z.of_nat n)) 1 + 0.05) 1 ==
  Qmin (a + 0.05 * inject_Z (Z.of_nat (S n))) 1.
Proof.
  rewrite of_nat_succ_Q. set (q := inject_Z (Z.of_nat n)).
  setoid_replace (a + 0.05 * (q + 1)) with (a + 0.05 * q + 0.05) by ring.
  destruct (Qlt_le_dec 1 (a + 0.05 * q)) as [H|H].
  - rewrite (Q.min_r (a + 0.05 * q) 1) by lra.
    rewrite (Q.min_r (1 + 0.05) 1) by lra.
    rewrite (Q.min_r (a + 0.05 * q + 0.05) 1) by lra. reflexivity.
  - rewrite (Q.min_l (a + 0.05 * q) 1 H). reflexivity.
Qed.

Lemma ramp_down_step (a : Q) (n : nat) :
  Qmax (Qmax (a - 0.05 * inject_Z (Z.of_nat n)) (-1) - 0.05) (-1) ==
  Qmax (a - 0.05 * inject_Z (Z.of_nat (S n))) (-1).
Proof.
  rewrite of_nat_succ_Q. set (q := inject_Z (Z.of_nat n)).
  setoid_replace (a - 0.05 * (q + 1)) with (a - 0.05 * q - 0.05) by ring.
  destruct (Qlt_le_dec (a - 0.05 * q) (-1)) as [H|H].
  - rewrite (Q.max_r (a - 0.05 * q) (-1)) by lra.
    rewrite (Q.max_r (-1 - 0.05) (-1)) by lra.
    rewrite (Q.max_r (a - 0.05 * q - 0.05) (-1)) by lra. reflexivity.
  - rewrite (Q.max_l (a - 0.05 * q) (-1) H). reflexivity.
Qed.

(** X2. With no touch active, holding a key for [n] updates moves
    its axis by 0.05 per update until it sits at the end of its range:
    up gives [min (pitch + 0.05 n) 1] (also while down is held as
    well), down alone [max (pitch - 0.05 n) (-1)], left
    [max (roll - 0.05 n) (-1)] (also while right is held as well) and
    right alone [min (roll + 0.05 n) 1]. *)
Theorem keyboard_ramp (n : nat) (s : t) :
  touchActive s = false ->
  (up (keys s) = true -> pitch s <= 1 ->
     pitch (Nat.iter n update s) == Qmin (pitch s + 0.05 * inject_Z (Z.of_nat n)) 1) /\
  (up (keys s) = false -> down (keys s) = true -> -1 <= pitch s ->
     pitch (Nat.iter n update s) == Qmax (pitch s - 0.05 * inject_Z (Z.of_nat n)) (-1)) /\
  (left (keys s) = true -> -1 <= roll s ->
     roll (Nat.iter n update s) == Qmax (roll s - 0.05 * inject_Z (Z.of_nat n)) (-1)) /\
  (left (keys s) = false -> right (keys s) = true -> roll s <= 1 ->
     roll (Nat.iter n update s) == Qmin (roll s + 0.05 * inject_Z (Z.of_nat n)) 1).
Proof.
  intros Ht.
  assert (U : forall m, update (Nat.iter m update s) =
    with_axes
      (if up (keys s) then Qmin (pitch (Nat.iter m update s) + 0.05) 1
       else if down (keys s) then Qmax (pitch (Nat.iter m update s) - 0.05) (-1)
       else pitch (Nat.iter m update s) * 0.9)
      (if left (keys s) then Qmax (roll (Nat.iter m update s) - 0.05) (-1)
       else if right (keys s) then Qmin (roll (Nat.iter m update s) + 0.05) 1
       else roll (Nat.iter m update s) * 0.9)
      (Nat.iter m update s)).
  { intros m. destruct (iter_keeps_controls m s) as [K T].
    set (sm := Nat.iter m update s) in *. clearbody sm.
    unfold update. rewrite K, T, Ht. reflexivity. }
  repeat split.
  - intros Hu Hp. induction n as [|n IH].
    + cbn [Nat.iter nat_rect Z.of_nat]. rewrite Q.min_l; [ring|].
      setoid_replace (pitch s + 0.05 * inject_Z 0) with (pitch s) by ring. exact Hp.
    + rewrite Nat.iter_succ, U, Hu. cbn [pitch with_axes].
      rewrite IH. apply ramp_up_step.
  - intros Hu Hd Hp. induction n as [|n IH].
    + cbn [Nat.iter nat_rect Z.of_nat]. rewrite Q.max_l; [ring|].
      setoid_replace (pitch s - 0.05 * inject_Z 0) with (pitch s) by ring. exact Hp.
    + rewrite Nat.iter_succ, U, Hu, Hd. cbn [pitch with_axes].
      rewrite IH. apply ramp_down_step.
  - intros Hl Hp. induction n as [|n IH].
    + cbn [Nat.iter nat_rect Z.of_nat]. rewrite Q.max_l; [ring|].
      setoid_replace (roll s - 0.05 * inject_Z 0) with (roll s) by ring. exact Hp.
    + rewrite Nat.iter_succ, U, Hl. cbn [roll with_axes].
      rewrite IH. apply ramp_down_step.
  - intros Hl Hr Hp. induction n as [|n IH].
    + cbn [Nat.iter nat_rect Z.of_nat]. rewrite Q.min_l; [ring|].
      setoid_replace (roll s + 0.05 * inject_Z 0) with (roll s) by ring. exact Hp.
    + rewrite Nat.iter_succ, U, Hl, Hr. cbn [roll with_axes].
      rewrite IH. apply ramp_up_step.
Qed.

Lemma keyboard_ramp_witness :
  pitch (Nat.iter 3 update (handleKeyDown "KeyW" (constructor false)))
  == Qmin (pitch (handleKeyDown "KeyW" (constructor false))
           + 0.05 * inject_Z (Z.of_nat 3)) 1.
Proof.
  apply (proj1 (keyboard_ramp 3 (handleKeyDown "KeyW" (constructor false)) eq_refl)).
  - reflexivity.
  - cbn. discriminate.
Defined.

(** X3. With no touch active and neither key of an axis held, the
    axis returns to neutral geometrically: after [n] updates it is
    its start value times [0.9 ^ n]. *)
Theorem release_decay (n : nat) (s : t) :
  touchActive s = false ->
  (up (keys s) = false -> down (keys s) = false ->
     pitch (Nat.iter n update s) == pitch s * 0.9 ^ Z.of_nat n) /\
  (left (keys s) = false -> right (keys s) = false ->
     roll (Nat.iter n update s) == roll s * 0.9 ^ Z.of_nat n).
Proof.
  intros Ht.
  assert (P : forall m : nat, 0.9 ^ Z.of_nat (S m) == 0.9 ^ Z.of_nat m * 0.9).
  { intros m. rewrite Nat2Z.inj_succ. unfold Z.succ.
    rewrite Qpower_plus by discriminate. reflexivity. }
  assert (U : forall m, update (Nat.iter m update s) =
    with_axes
      (if up (keys s) then Qmin (pitch (Nat.iter m update s) + 0.05) 1
       else if down (keys s) then Qmax (pitch (Nat.iter m update s) - 0.05) (-1)
       else pitch (Nat.iter m update s) * 0.9)
      (if left (keys s) then Qmax (roll (Nat.iter m update s) - 0.05) (-1)
       else if right (keys s) then Qmin (roll (Nat.iter m update s) + 0.05) 1
       else roll (Nat.iter m update s) * 0.9)
      (Nat.iter m update s)).
  { intros m. destruct (iter_keeps_controls m s) as [K T].
    set (sm := Nat.iter m update s) in *. clearbody sm.
    unfold update. rewrite K, T, Ht. reflexivity. }
  split.
  - intros Hu Hd. induction n as [|n IH].
    + cbn [Nat.iter nat_rect Z.of_nat]. change (0.9 ^ 0) with 1. ring.
    + rewrite Nat.iter_succ, U, Hu, Hd. cbn [pitch with_axes].
      rewrite IH, P. ring.
  - intros Hl Hr. induction n as [|n IH].
    + cbn [Nat.iter nat_rect Z.of_nat]. change (0.9 ^ 0) with 1. ring.
    + rewrite Nat.iter_succ, U, Hl, Hr. cbn [roll with_axes].
      rewrite IH, P. ring.
Qed.

Lemma release_decay_witness :
  pitch (Nat.iter 2 update (with_axes 1 (-1) (constructor false)))
  == pitch (with_axes 1 (-1) (constructor false)) * 0.9 ^ Z.of_nat 2.
Proof.
  apply (proj1 (release_decay 2 (with_axes 1 (-1) (constructor false)) eq_refl));
    reflexivity.
Defined.

(** *** Touch *)

(** X4. On a page without the touch zone no listener for touches
    is installed: from the constructor's state touch events never
    activate the touch stick, and a run of events gives the state it
    gives with its touch events removed. *)
Theorem no_touch_zone (evs : list Event) :
  touchActive (run evs (constructor false)) = false /\
  run evs (constructor false) =
  run (filter (fun e => match e with
                        | KeyDown _ | KeyUp _ | Update => true
                        | _ => false
                        end) evs)
      (constructor false).
Proof.
  assert (G : forall s, touchZone s = false -> touchActive s = false ->
            touchActive (run evs s) = false /\
            run evs s =
            run (filter (fun e => match e with
                                  | KeyDown _ | KeyUp _ | Update => true
                                  | _ => false
                                  end) evs) s).
  { induction evs as [|e evs IH]; intros s Hz Ha; [split; auto|].
    assert (D : touchZone (dispatch s e) = false /\ touchActive (dispatch s e) = false).
    { destruct e; cbn [dispatch]; unfold handleKeyDown, handleKeyUp, touchstart,
        touchmove, touchcancel, touchend; rewrite ?Hz; cbn; auto.
      destruct (update_keeps_controls s) as (_ & A & _ & _ & _ & _ & Z).
      rewrite A, Z. auto. }
    destruct D as [Dz Da].
    destruct e; cbn [run fold_left filter];
      try (apply (IH _ Dz Da));
      cbn [dispatch]; unfold touchstart, touchmove, touchcancel, touchend;
      rewrite Hz; apply (IH _ Hz Ha). }
  apply G; reflexivity.
Qed.

Lemma clamp_inside (q : Q) : -1 <= q -> q <= 1 -> Qmax (-1) (Qmin 1 q) == q.
Proof.
  intros H0 H1. rewrite (Q.min_r 1 q H1). apply Q.max_r; auto.
Qed.

Lemma clamp_pos (q : Q) : 0 < Qmax (-1) (Qmin 1 q) <-> 0 < q.
Proof.
  destruct (Qlt_le_dec 1 q) as [H|H].
  - rewrite (Q.min_l 1 q) by lra. rewrite Q.max_r by lra. split; intros; lra.
  - rewrite (Q.min_r 1 q H).
    destruct (Qlt_le_dec q (-1)) as [L|L].
    + rewrite Q.max_l by lra. split; intros; lra.
    + rewrite Q.max_r by lra. reflexivity.
Qed.

(** X5. The touch stick is relative to the point where the finger
    went down: the update after a touchstart centres both axes, and
    while a touch is active the pitch is positive exactly when the
    finger is above the start point and the roll is positive exactly
    when it is right of it. *)
Theorem touch_stick :
  (forall s clientX clientY, touchZone s = true ->
     pitch (update (touchstart clientX clientY s)) == 0 /\
     roll (update (touchstart clientX clientY s)) == 0) /\
  (forall s, touchActive s = true ->
     (0 < pitch (update s) <-> touchCurrentY s < touchStartY s) /\
     (0 < roll (update s) <-> touchStartX s < touchCurrentX s)).
Proof.
  split.
  - intros s cx cy Hz. unfold touchstart. rewrite Hz. unfold update, maxDelta.
    cbn [touchActive with_touch touchCurrentX touchCurrentY touchStartX touchStartY
         with_axes pitch roll].
    split; rewrite clamp_inside.
    + field.
    + setoid_replace (- (cy - cy) / 100) with 0 by field. lra.
    + setoid_replace (- (cy - cy) / 100) with 0 by field. lra.
    + field.
    + setoid_replace ((cx - cx) / 100) with 0 by field. lra.
    + setoid_replace ((cx - cx) / 100) with 0 by field. lra.
  - intros s Ha. unfold update, maxDelta. rewrite Ha. cbn [with_axes pitch roll].
    rewrite !clamp_pos. split.
    + setoid_replace (- (touchCurrentY s - touchStartY s) / 100)
        with ((touchStartY s - touchCurrentY s) * (1 # 100)) by field.
      split; intros; lra.
    + setoid_replace ((touchCurrentX s - touchStartX s) / 100)
        with ((touchCurrentX s - touchStartX s) * (1 # 100)) by field.
      split; intros; lra.
Qed.

End InputExtra.

(** ** More on the terrain provider *)

Module TerrainExtra.
Import LocalTerrainProvider TerrainMesh TerrainFacts.
Local Open Scope Q_scope.

(** *** The constructor and the load *)

Lemma or_default_nonzero (o : option Q) (d : Q) : ~ d == 0 -> ~ or_default o d == 0.
Proof.
  intros Hd. unfold or_default. destruct o as [q|]; auto.
  destruct (Qeq_bool q 0) eqn:E; auto.
  intros C. apply Qeq_bool_iff in C. congruence.
Qed.

(** X6. The constructor's defaults: width, depth and maximum height
    of the terrain are never zero and the segment count is never
    zero, because an option that is missing or zero is replaced by
    its default (3000 for the width); no height data is held yet, and
    until the heightmap is loaded every height query answers 0. *)
Theorem constructor_defaults (o : Options) :
  ~ terrainWidth (constructor o) == 0 /\
  ~ terrainDepth (constructor o) == 0 /\
  ~ maxHeight (constructor o) == 0 /\
  segments (constructor o) <> 0%Z /\
  (forall w, opt_width o = Some w -> ~ w == 0 -> terrainWidth (constructor o) = w) /\
  (forall w, opt_width o = Some w -> w == 0 -> terrainWidth (constructor o) = 3000) /\
  (opt_width o = None -> terrainWidth (constructor o) = 3000) /\
  heightData (constructor o) = None /\
  (forall x z, getHeightAt (constructor o) x z = Some 0).
Proof.
  unfold constructor. cbn.
  split; [apply or_default_nonzero; discriminate|].
  split; [apply or_default_nonzero; discriminate|].
  split; [apply or_default_nonzero; discriminate|].
  split.
  { unfold or_default_Z. destruct (opt_segments o) as [n|]; [|discriminate].
    destruct (Z.eqb_spec n 0); [discriminate|auto]. }
  split.
  { intros w E H. rewrite E. cbn. destruct (Qeq_bool w 0) eqn:B; auto.
    apply Qeq_bool_iff in B. contradiction. }
  split.
  { intros w E H. rewrite E. cbn. apply Qeq_bool_iff in H. rewrite H. reflexivity. }
  split; [intros E; rewrite E; reflexivity|].
  split; reflexivity.
Qed.

Lemma nth_Forall {A} (P : A -> Prop) (l : list A) (d : A) (i : nat) :
  Forall P l -> P d -> P (nth i l d).
Proof.
  intros Hl Hd. destruct (nth_in_or_default i l d) as [H|H].
  - rewrite Forall_forall in Hl. auto.
  - rewrite H. exact Hd.
Qed.

Lemma affine_between (lo hi : Q) (p : Z) :
  (0 <= p <= 255)%Z -> lo <= hi ->
  lo <= lo + (inject_Z p / 255) * (hi - lo) /\
  lo + (inject_Z p / 255) * (hi - lo) <= hi.
Proof.
  intros [H0 H1] Hlh.
  assert (T0 : 0 <= inject_Z p / 255).
  { apply Qle_shift_div_l; [reflexivity|]. rewrite Zle_Qle in H0.
    change (inject_Z 0) with 0 in H0. lra. }
  assert (T1 : inject_Z p / 255 <= 1).
  { apply Qle_shift_div_r; [reflexivity|]. rewrite Zle_Qle in H1.
    change (inject_Z 255) with 255 in H1. lra. }
  set (t := inject_Z p / 255) in *. split; nra.
Qed.

(** X7. Loading an image of positive width and height always
    succeeds and gives a loaded grid of the image's dimensions with
    the bounds unchanged; sample [i] is read from the red byte of
    pixel [i] (byte [4 i]) and mapped linearly from [0, 255] onto
    [minHeight, maxHeight], so that for bytes in range and
    [minHeight <= maxHeight] every sample lies between the two. *)
Theorem heightmap_load (im : Image) (tp : t) :
  (1 <= img_width im)%Z -> (1 <= img_height im)%Z ->
  exists tp' d,
    loadHeightmap (Some im) tp = Some tp' /\
    loaded tp' d /\
    heightDataWidth tp' = img_width im /\ heightDataHeight tp' = img_height im /\
    getBounds tp' = getBounds tp /\
    (forall i, (i < List.length d)%nat ->
       nth_error d i =
       Some (minHeight tp
             + (inject_Z (nth (i * 4) (img_pixels im) 0%Z) / 255)
               * (maxHeight tp - minHeight tp))) /\
    (bytes im -> minHeight tp <= maxHeight tp ->
       heights_between (minHeight tp) (maxHeight tp) d).
Proof.
  intros Hw Hh. unfold loadHeightmap.
  set (f := fun i : nat =>
              minHeight tp
              + (inject_Z (nth (i * 4) (img_pixels im) 0%Z) / 255)
                * (maxHeight tp - minHeight tp)).
  set (n := Z.to_nat (img_width im * img_height im)).
  eexists. exists (map f (seq 0 n)). split; [reflexivity|].
  split.
  { unfold loaded. cbn. repeat split; auto.
    rewrite length_map, length_seq. unfold n. rewrite Z2Nat.id; nia. }
  split; [reflexivity|]. split; [reflexivity|]. split; [reflexivity|].
  split.
  { intros i Hi. rewrite length_map, length_seq in Hi.
    rewrite nth_error_map, nth_error_seq.
    destruct (Nat.ltb_spec i n); [|lia]. reflexivity. }
  intros Hb Hm. unfold heights_between. apply Forall_forall.
  intros h Hin. apply in_map_iff in Hin. destruct Hin as (i & <- & _).
  unfold f. apply affine_between; auto.
  apply nth_Forall; [exact Hb|lia].
Qed.

Lemma heightmap_load_witness :
  exists tp' d,
    loadHeightmap (Some Game.grey_heightmap) (constructor Game.terrainOptions)
      = Some tp' /\
    loaded tp' d /\
    heightDataWidth tp' = img_width Game.grey_heightmap /\
    heightDataHeight tp' = img_height Game.grey_heightmap /\
    getBounds tp' = getBounds (constructor Game.terrainOptions) /\
    (forall i, (i < List.length d)%nat ->
       nth_error d i =
       Some (minHeight (constructor Game.terrainOptions)
             + (inject_Z (nth (i * 4) (img_pixels Game.grey_heightmap) 0%Z) / 255)
               * (maxHeight (constructor Game.terrainOptions)
                  - minHeight (constructor Game.terrainOptions)))) /\
    (bytes Game.grey_heightmap ->
     minHeight (constructor Game.terrainOptions)
       <= maxHeight (constructor Game.terrainOptions) ->
     heights_between (minHeight (constructor Game.terrainOptions))
                     (maxHeight (constructor Game.terrainOptions)) d).
Proof.
  apply (heightmap_load Game.grey_heightmap (constructor Game.terrainOptions));
    cbn; lia.
Defined.

(** *** Heights stay within the samples *)







(** *** World coordinates and grid nodes *)

Lemma inside_uv (x w : Q) :
  0 < w -> - w / 2 <= x -> x <= w / 2 -> 0 <= (x + w / 2) / w <= 1.
Proof.
  intros Hw H1 H2.
  assert (Hn : - w / 2 == - (w / 2)) by field.
  rewrite Hn in H1. rewrite Qhalf in H1, H2.
  split; [apply Qle_shift_div_l | apply Qle_shift_div_r]; auto;
    rewrite Qhalf; lra.
Qed.

Lemma getHeightAt_inside (tp : t) (d : list Q) (x z : Q) :
  loaded tp d -> 0 < terrainWidth tp -> 0 < terrainDepth tp ->
  minX (getBounds tp) <= x <= maxX (getBounds tp) ->
  minZ (getBounds tp) <= z <= maxZ (getBounds tp) ->
  0 <= toU tp x <= 1 /\ 0 <= toV tp z <= 1 /\
  getHeightAt tp x z = sampleHeightmap tp (toU tp x) (toV tp z).
Proof.
  intros (Hd & _) Hw Hdp [Hx0 Hx1] [Hz0 Hz1]. cbn in Hx0, Hx1, Hz0, Hz1.
  pose proof (inside_uv x _ Hw Hx0 Hx1) as Hu.
  pose proof (inside_uv z _ Hdp Hz0 Hz1) as Hv.
  split; [exact Hu|]. split; [exact Hv|].
  unfold getHeightAt. rewrite Hd.
  match goal with |- context [if ?b then _ else _] => assert (E : b = false) end.
  { rewrite !orb_false_iff, !Qltb_false. tauto. }
  rewrite E. reflexivity.
Qed.




(** *** The mesh *)

Lemma length_set (a : Float32Array) (i : nat) (v : option Q) :
  List.length (set a i v) = List.length a.
Proof.
  revert i. induction a as [|h r IH]; intros [|i]; cbn; auto.
Qed.

Lemma get_set_eq (a : Float32Array) (i : nat) (v : option Q) :
  (i < List.length a)%nat -> get (set a i v) i = v.
Proof.
  revert i. induction a as [|h r IH]; intros [|i] H; cbn in *; try lia; auto.
  apply IH. lia.
Qed.

Lemma get_set_neq (a : Float32Array) (i j : nat) (v : option Q) :
  i <> j -> get (set a i v) j = get a j.
Proof.
  revert i j. induction a as [|h r IH]; intros [|i] [|j] H; cbn; auto; try lia.
  apply IH. lia.
Qed.

Lemma get_beyond (a : Float32Array) (i : nat) :
  (List.length a <= i)%nat -> get a i = None.
Proof.
  intros H. unfold get. apply nth_error_None in H. rewrite H. reflexivity.
Qed.

(** The loop after [n] rounds: the heights of the first [n] vertices are
    set, from the coordinates the array had at the start. *)
Lemma displace_rounds (tp : t) (a : Float32Array) (n : nat) :
  let m := fold_left (displaceVertex tp) (seq 0 n) a in
  List.length m = List.length a /\
  (forall i, (i < n)%nat -> (i * 3 + 1 < List.length a)%nat ->
     get m (i * 3 + 1) = sampleAt tp (get a (i * 3)) (get a (i * 3 + 2))) /\
  (forall k, (forall i, (i < n)%nat -> k <> i * 3 + 1)%nat -> get m k = get a k).
Proof.
  induction n as [|n IH]; cbn zeta.
  - cbn. split; [reflexivity|]. split; [intros; lia|reflexivity].
  - rewrite seq_S, fold_left_app. cbn [fold_left Nat.add].
    set (m := fold_left (displaceVertex tp) (seq 0 n) a) in *.
    destruct IH as (Len & Set_ & Keep).
    unfold displaceVertex.
    split; [rewrite length_set; exact Len|]. split.
    + intros i Hi Hl. destruct (Nat.eq_dec i n) as [->|Ne].
      * rewrite get_set_eq by lia.
        rewrite !Keep by (intros; lia). reflexivity.
      * rewrite get_set_neq by lia. apply Set_; lia.
    + intros k Hk. rewrite get_set_neq.
      * apply Keep. intros i Hi. apply Hk. lia.
      * intros C. apply (Hk n); lia.
Qed.

(** X10. The vertex loop of [createMesh] keeps the length of the
    position array and the x and z of every vertex, sets the y of
    each of the [(segments + 1)^2] vertices to the heightmap sampled
    at the vertex's own x and z, which inside the bounds is the height
    [getHeightAt] answers there, and leaves the array alone past the
    last vertex. *)
Theorem mesh_follows_heightmap (tp : t) (d : list Q) (a : Float32Array) :
  loaded tp d -> 0 < terrainWidth tp -> 0 < terrainDepth tp ->
  let m := displaceVertices tp a in
  List.length m = List.length a /\
  (forall i, (i < vertexCount tp)%nat -> (i * 3 + 2 < List.length a)%nat ->
     get m (i * 3) = get a (i * 3) /\
     get m (i * 3 + 2) = get a (i * 3 + 2) /\
     get m (i * 3 + 1) = sampleAt tp (get a (i * 3)) (get a (i * 3 + 2)) /\
     (forall x z, get a (i * 3) = Some x -> get a (i * 3 + 2) = Some z ->
        minX (getBounds tp) <= x <= maxX (getBounds tp) ->
        minZ (getBounds tp) <= z <= maxZ (getBounds tp) ->
        get m (i * 3 + 1) = getHeightAt tp x z)) /\
  (forall k, (vertexCount tp * 3 <= k)%nat -> get m k = get a k).
Proof.
  intros L Hw Hdp m.
  destruct (displace_rounds tp a (vertexCount tp)) as (Len & Set_ & Keep).
  fold (displaceVertices tp a) in Len, Set_, Keep. fold m in Len, Set_, Keep.
  split; [exact Len|]. split.
  - intros i Hi Hl.
    split; [apply Keep; intros; lia|].
    split; [apply Keep; intros; lia|].
    assert (E : get m (i * 3 + 1) = sampleAt tp (get a (i * 3)) (get a (i * 3 + 2)))
      by (apply Set_; lia).
    split; [exact E|].
    intros x z Ex Ez Hx Hz. rewrite E, Ex, Ez. cbn [sampleAt].
    destruct (getHeightAt_inside tp d x z L Hw Hdp Hx Hz) as (_ & _ & G).
    symmetry. exact G.
  - intros k Hk. apply Keep. intros; lia.
Qed.

Lemma mesh_follows_heightmap_witness :
  let tp := of_grid 2 2 [10; 20; 30; 40] in
  let a := [Some (-1500); Some 0; Some 1500] in
  let m := displaceVertices tp a in
  List.length m = List.length a /\
  (forall i, (i < vertexCount tp)%nat -> (i * 3 + 2 < List.length a)%nat ->
     get m (i * 3) = get a (i * 3) /\
     get m (i * 3 + 2) = get a (i * 3 + 2) /\
     get m (i * 3 + 1) = sampleAt tp (get a (i * 3)) (get a (i * 3 + 2)) /\
     (forall x z, get a (i * 3) = Some x -> get a (i * 3 + 2) = Some z ->
        minX (getBounds tp) <= x <= maxX (getBounds tp) ->
        minZ (getBounds tp) <= z <= maxZ (getBounds tp) ->
        get m (i * 3 + 1) = getHeightAt tp x z)) /\
  (forall k, (vertexCount tp * 3 <= k)%nat -> get m k = get a k).
Proof.
  intros tp a.
  apply (mesh_follows_heightmap tp [10; 20; 30; 40] a).
  - apply loaded_2x2.
  - reflexivity.
  - reflexivity.
Defined.

End TerrainExtra.

(** ** More on the glider *)

Module GliderExtra.
Import Three Glider GliderOps GliderFacts LevelFlight.
Local Open Scope R_scope.

(** *** Orientation *)

Lemma norm2_setFromEuler (ex ey ez : R) : norm2 (setFromEuler_YXZ ex ey ez) = 1.
Proof.
  unfold norm2, setFromEuler_YXZ. cbn [qx qy qz qw].
  pose proof (sin2_cos2 (ex / 2)) as H1.
  pose proof (sin2_cos2 (ey / 2)) as H2.
  pose proof (sin2_cos2 (ez / 2)) as H3.
  unfold Rsqr in *.
  set (s1 := sin (ex / 2)) in *. set (c1 := cos (ex / 2)) in *.
  set (s2 := sin (ey / 2)) in *. set (c2 := cos (ey / 2)) in *.
  set (s3 := sin (ez / 2)) in *. set (c3 := cos (ez / 2)) in *.
  match goal with |- ?l = 1 =>
    replace l with ((s1 * s1 + c1 * c1) * (s2 * s2 + c2 * c2) * (s3 * s3 + c3 * c3))
      by ring
  end.
  rewrite H1, H2, H3. ring.
Qed.

Lemma norm2_identity : norm2 identity = 1.
Proof. unfold norm2, identity. cbn. ring. Qed.

Lemma norm2_nonneg (q : Quaternion) : 0 <= norm2 q.
Proof. unfold norm2. nra. Qed.

(** Turning a vector by a quaternion scales its length by the
    quaternion's squared norm. *)
Lemma length_applyQuaternion (v : Vector3) (q : Quaternion) :
  length (applyQuaternion v q) = norm2 q * length v.
Proof.
  unfold length, applyQuaternion, norm2. destruct v as [a b c], q as [i j k w].
  cbn [x y z qx qy qz qw].
  set (n := i * i + j * j + k * k + w * w).
  assert (Hn : 0 <= n) by (unfold n; nra).
  match goal with |- sqrt ?e = _ =>
    replace e with (n * n * (a * a + b * b + c * c)) by (unfold n; ring)
  end.
  rewrite sqrt_mult; [|nra|nra]. rewrite sqrt_square by exact Hn. reflexivity.
Qed.

Lemma updatePhysics_rotation (dt : R) (g : t) :
  rotation (updatePhysics dt g) = rotation g /\
  pitchInput (updatePhysics dt g) = pitchInput g /\
  rollInput (updatePhysics dt g) = rollInput g /\
  mesh_position (updatePhysics dt g) = mesh_position g /\
  mesh_quaternion (updatePhysics dt g) = mesh_quaternion g.
Proof.
  destruct g as [P V Q a b c p r cr dl da mp mq].
  rewrite updatePhysics_forces. unfold forces, getSpeed. fields.
  set (sp := length V). set (fw := applyQuaternion _ Q). set (vd := normalize V).
  set (aoa := angleOfAttack fw vd).
  unfold set_debugAoA. fields.
  unfold applyGravity, set_velocity. fields.
  set (V1 := vec3 _ _ _).
  unfold applyLift, liftMagnitude, set_velocity, set_debugLift. fields.
  destruct (Rgt_dec sp minSpeed); fields;
    unfold applyDrag, dragCoeff, set_velocity; fields;
    destruct (Rgt_dec sp 0.1); fields;
    unfold applyDive, getSpeed, set_velocity; fields;
    repeat break_if; unfold clampSpeed, getSpeed, set_velocity; fields;
    repeat break_if; unfold integratePosition, set_position; fields;
    unfold groundCheck, crash, set_velocity, set_crashed; fields;
    repeat break_if; fields; repeat split; reflexivity.
Qed.

Lemma update_rotation (dt : R) (g : t) :
  crashed g = false ->
  exists ex ey ez, rotation (update dt g) = setFromEuler_YXZ ex ey ez.
Proof.
  intros C. unfold update. rewrite C. cbn [rotation updateMesh].
  destruct (updatePhysics_rotation (Rmin dt 0.1) (updateRotation (Rmin dt 0.1) g))
    as (E & _). rewrite E. unfold updateRotation. cbn [rotation set_orientation].
  eauto.
Qed.

Lemma act_unit (a : Action) (g g' : t) :
  norm2 (rotation g) = 1 -> act g a = Some g' -> norm2 (rotation g') = 1.
Proof.
  intros U. destruct a as [p r|dt| |fuel dir s]; cbn [act]; intros E.
  - inversion E; subst. exact U.
  - inversion E; subst. destruct (crashed g) eqn:C.
    + rewrite update_crashed by exact C. exact U.
    + destruct (update_rotation dt g C) as (ex & ey & ez & R). rewrite R.
      apply norm2_setFromEuler.
  - inversion E; subst. cbn. apply norm2_identity.
  - unfold applyBoundaryForce in E. destruct (normalizeDiff _ _); inversion E; subst.
    exact U.
Qed.

(** X11. The orientation stays a rotation: from a unit
    quaternion, after any run of [setInput], [update], [reset] and
    [applyBoundaryForce], the glider's quaternion has norm 1, and its
    forward and lift directions have length 1. *)
Theorem rotation_stays_unit (acts : list Action) (g g' : t) :
  norm2 (rotation g) = 1 -> run acts g = Some g' ->
  norm2 (rotation g') = 1 /\
  length (getForwardDirection g') = 1 /\
  length (applyQuaternion (vec3 0 1 0) (rotation g')) = 1.
Proof.
  revert g. induction acts as [|a rest IH]; intros g U E; cbn [run] in E.
  - inversion E; subst. split; [exact U|].
    unfold getForwardDirection. rewrite !length_applyQuaternion, U.
    unfold length. cbn [x y z].
    replace (0 * 0 + 0 * 0 + -1 * -1) with 1 by ring.
    replace (0 * 0 + 1 * 1 + 0 * 0) with 1 by ring.
    rewrite sqrt_1. lra.
  - destruct (act g a) as [g1|] eqn:A; [|discriminate].
    apply (IH g1); [|exact E]. apply (act_unit a g); assumption.
Qed.

Lemma rotation_stays_unit_witness :
  norm2 (rotation (update 0.05 (setInput 1 1 (constructor tt)))) = 1 /\
  length (getForwardDirection (update 0.05 (setInput 1 1 (constructor tt)))) = 1 /\
  length (applyQuaternion (vec3 0 1 0)
            (rotation (update 0.05 (setInput 1 1 (constructor tt))))) = 1.
Proof.
  apply (rotation_stays_unit [SetInput 1 1; Update 0.05] (constructor tt)).
  - cbn. unfold norm2. cbn. ring.
  - reflexivity.
Defined.

(** *** The flag, the ground and the mesh *)

Lemma updatePhysics_ground (dt : R) (g : t) :
  crashed g = false -> flight_state_ok (updatePhysics dt g).
Proof.
  intros C. rewrite updatePhysics_forces.
  set (h := integratePosition dt (clampSpeed (forces dt g))).
  assert (Ch : crashed h = false).
  { unfold h. cbn [integratePosition set_position crashed].
    unfold clampSpeed. destruct (Rgt_dec _ _); cbn [crashed set_velocity];
      destruct (forces_frame dt g) as (_ & _ & _ & _ & _ & _ & F); congruence. }
  unfold groundCheck, flight_state_ok. destruct (Rlt_dec (y (position h)) 0) as [L|L].
  - cbn. split; [discriminate|]. auto.
  - rewrite Ch. split; [intros _; lra|discriminate].
Qed.

Lemma act_ground (a : Action) (g g' : t) :
  flight_state_ok g -> act g a = Some g' -> flight_state_ok g'.
Proof.
  intros G. destruct a as [p r|dt| |fuel dir s]; cbn [act]; intros E.
  - inversion E; subst. exact G.
  - inversion E; subst. destruct (crashed g) eqn:C.
    + rewrite update_crashed by exact C. exact G.
    + unfold update. rewrite C.
      pose proof (updatePhysics_ground (Rmin dt 0.1) (updateRotation (Rmin dt 0.1) g))
        as H. exact (H C).
  - inversion E; subst. unfold flight_state_ok. cbn. split; [intros _; lra|discriminate].
  - destruct (applyBoundaryForce_frame _ _ _ _ _ E) as (P & V & C & _).
    unfold flight_state_ok in *. rewrite P, V, C. exact G.
Qed.

Lemma constructor_ground : flight_state_ok (constructor tt).
Proof. unfold flight_state_ok. cbn. split; [intros _; lra|discriminate]. Qed.

(** X12. Flying or at rest: after any run of operations from the
    constructor's state (or any state of that kind), a glider that
    is not crashed is at altitude 0 or above, and a crashed one lies
    below 0 with velocity zero and speed 0. *)
Theorem flying_or_at_rest (acts : list Action) (g g' : t) :
  g = constructor tt \/ flight_state_ok g ->
  run acts g = Some g' ->
  (crashed g' = false -> 0 <= getAltitude g') /\
  (crashed g' = true ->
     velocity g' = vec3 0 0 0 /\ getSpeed g' = 0 /\ getAltitude g' < 0).
Proof.
  intros H E.
  assert (G : flight_state_ok g).
  { destruct H as [->|H]; [apply constructor_ground|exact H]. }
  clear H. revert g G E. induction acts as [|a rest IH]; intros g G E; cbn [run] in E.
  - inversion E; subst. destruct G as [G1 G2]. split; [exact G1|].
    intros C. destruct (G2 C) as [V Y]. split; [exact V|]. split; [|exact Y].
    unfold getSpeed. rewrite V. apply length_zero.
  - destruct (act g a) as [g1|] eqn:A; [|discriminate].
    apply (IH g1); [|exact E]. apply (act_ground a g); assumption.
Qed.

Lemma flying_or_at_rest_witness :
  (crashed (update 0.1 (constructor tt)) = false ->
     0 <= getAltitude (update 0.1 (constructor tt))) /\
  (crashed (update 0.1 (constructor tt)) = true ->
     velocity (update 0.1 (constructor tt)) = vec3 0 0 0 /\
     getSpeed (update 0.1 (constructor tt)) = 0 /\
     getAltitude (update 0.1 (constructor tt)) < 0).
Proof.
  apply (flying_or_at_rest [Update 0.1] (constructor tt)).
  - left. reflexivity.
  - reflexivity.
Defined.

Lemma act_mesh (a : Action) (g g' : t) :
  mesh_synced g -> act g a = Some g' -> mesh_synced g'.
Proof.
  intros M. destruct a as [p r|dt| |fuel dir s]; cbn [act]; intros E.
  - inversion E; subst. exact M.
  - inversion E; subst. unfold update. destruct (crashed g); [exact M|].
    unfold mesh_synced. cbn. auto.
  - inversion E; subst. unfold mesh_synced. cbn. auto.
  - unfold applyBoundaryForce in E. destruct (normalizeDiff _ _); inversion E; subst.
    exact M.
Qed.

(** X13. The mesh shows the glider where the physics has it: the
    constructor leaves the mesh at the origin, not at the start
    position, but after an update of a flying glider or a reset the
    mesh has the glider's position and orientation, and no later
    operation separates them again. *)
Theorem mesh_shows_glider :
  ~ mesh_synced (constructor tt) /\
  (forall dt g, crashed g = false -> mesh_synced (update dt g)) /\
  (forall g, mesh_synced (reset g)) /\
  (forall acts g g', mesh_synced g -> run acts g = Some g' -> mesh_synced g').
Proof.
  split.
  { unfold mesh_synced. cbn. intros [E _]. inversion E. lra. }
  split.
  { intros dt g C. unfold update. rewrite C. unfold mesh_synced. cbn. auto. }
  split.
  { intros g. unfold mesh_synced. cbn. auto. }
  intros acts. induction acts as [|a rest IH]; intros g g' M E; cbn [run] in E.
  - inversion E; subst. exact M.
  - destruct (act g a) as [g1|] eqn:A; [|discriminate].
    apply (IH g1); [|exact E]. apply (act_mesh a g); assumption.
Qed.

(** *** How far a frame moves the glider *)

Lemma sub_add (p v : Vector3) : sub (add p v) p = v.
Proof. destruct p, v. unfold sub, add. cbn. f_equal; ring. Qed.

Lemma sub_self (p : Vector3) : sub p p = vec3 0 0 0.
Proof. destruct p. unfold sub. cbn. f_equal; ring. Qed.

Lemma y_le_length (v : Vector3) : Rabs (y v) <= length v.
Proof.
  unfold length. rewrite <- sqrt_Rsqr_abs. apply sqrt_le_1_alt. unfold Rsqr. nra.
Qed.

Lemma y_sub (a b : Vector3) : y (sub a b) = y a - y b.
Proof. reflexivity. Qed.

(** X14. For a frame time that is not negative one update moves
    the glider by at most [maxSpeed * min dt 0.1], hence by at most
    8 m however long the frame took, and changes the altitude by at
    most 8 m. *)
Theorem frame_displacement (dt : R) (g : t) :
  0 <= dt ->
  length (sub (position (update dt g)) (position g)) <= maxSpeed * Rmin dt 0.1 /\
  length (sub (position (update dt g)) (position g)) <= 8 /\
  Rabs (getAltitude (update dt g) - getAltitude g) <= 8.
Proof.
  intros Hdt.
  assert (Hd : 0 <= Rmin dt 0.1 <= 0.1).
  { unfold Rmin. destruct (Rle_dec dt 0.1); lra. }
  assert (A : length (sub (position (update dt g)) (position g)) <= maxSpeed * Rmin dt 0.1).
  { unfold update. destruct (crashed g).
    - rewrite sub_self, length_zero. unfold maxSpeed. nra.
    - cbn [position updateMesh]. rewrite updatePhysics_forces.
      set (dt' := Rmin dt 0.1) in *. set (g1 := updateRotation dt' g).
      assert (P : position (groundCheck (integratePosition dt' (clampSpeed (forces dt' g1))))
                  = add (position g)
                        (multiplyScalar (velocity (clampSpeed (forces dt' g1))) dt')).
      { unfold groundCheck. destruct (Rlt_dec _ _);
          cbn [crash set_velocity set_crashed position integratePosition set_position].
        all: f_equal.
        all: unfold clampSpeed; destruct (Rgt_dec _ _); cbn [position set_velocity].
        all: destruct (forces_frame dt' g1) as (F & _); rewrite F; reflexivity. }
      rewrite P, sub_add, length_multiplyScalar.
      pose proof (clampSpeed_limit (forces dt' g1)) as S. unfold getSpeed in S.
      pose proof (length_nonneg (velocity (clampSpeed (forces dt' g1)))) as N.
      rewrite Rabs_pos_eq by lra. unfold maxSpeed in *. nra. }
  split; [exact A|].
  assert (B : length (sub (position (update dt g)) (position g)) <= 8).
  { unfold maxSpeed in A. lra. }
  split; [exact B|].
  unfold getAltitude. rewrite <- y_sub.
  eapply Rle_trans; [apply y_le_length|exact B].
Qed.

Lemma frame_displacement_witness :
  length (sub (position (update 1 (constructor tt))) (position (constructor tt)))
    <= maxSpeed * Rmin 1 0.1 /\
  length (sub (position (update 1 (constructor tt))) (position (constructor tt))) <= 8 /\
  Rabs (getAltitude (update 1 (constructor tt)) - getAltitude (constructor tt)) <= 8.
Proof. apply (frame_displacement 1 (constructor tt)). lra. Defined.

(** *** Controls *)

Lemma update_angles (dt : R) (g : t) :
  crashed g = false ->
  pitch (update dt g) = pitch (updateRotation (Rmin dt 0.1) g) /\
  roll (update dt g) = roll (updateRotation (Rmin dt 0.1) g) /\
  yaw (update dt g) = yaw (updateRotation (Rmin dt 0.1) g).
Proof.
  intros C. unfold update. rewrite C. cbn [pitch roll yaw updateMesh].
  apply updatePhysics_angles.
Qed.

Lemma Rabs_bounds (a v : R) : Rabs v <= a -> - a <= v <= a.
Proof. unfold Rabs. destruct (Rcase_abs v); lra. Qed.






(** X16. A banked glider turns towards its bank: for a flying
    glider with positive speed and a positive frame time, a positive
    roll (with the roll control neutral or pushed the same way)
    strictly increases the yaw in one update, a negative roll
    strictly decreases it, and a level glider with neutral control
    keeps its heading. *)
Theorem bank_turns (dt : R) (g : t) :
  crashed g = false -> 0 < dt -> 0 < getSpeed g -> Rabs (roll g) <= PI / 2 ->
  (0 < roll g -> 0 <= rollInput g -> yaw g < yaw (update dt g)) /\
  (roll g < 0 -> rollInput g <= 0 -> yaw (update dt g) < yaw g) /\
  (roll g = 0 -> rollInput g = 0 -> yaw (update dt g) = yaw g).
Proof.
  intros C Hdt Hs Hr. pose proof PI_RGT_0 as Hpi.
  assert (Hd : 0 < Rmin dt 0.1 <= 0.1).
  { unfold Rmin. destruct (Rle_dec dt 0.1); lra. }
  destruct (update_angles dt g C) as (_ & _ & Y). rewrite Y.
  unfold updateRotation. cbn [yaw set_orientation].
  set (dt' := Rmin dt 0.1) in *.
  set (v := roll g + rollInput g * rollRate * dt').
  set (r2 := Rmax (- PI / 2) (Rmin (PI / 2) v)).
  apply Rabs_bounds in Hr. unfold yawFromRoll, rollRate in *.
  assert (K : forall s, yaw g + s * 0.5 * getSpeed g / 20 * dt' - yaw g
                        = s * (0.5 * getSpeed g / 20 * dt')) by (intros; field).
  assert (P : 0 < 0.5 * getSpeed g / 20 * dt') by nra.
  split; [|split].
  - intros H1 H2.
    assert (Hv : 0 < v) by (unfold v; nra).
    assert (B : 0 < r2 <= PI / 2).
    { unfold r2. unfold Rmin. destruct (Rle_dec (PI / 2) v);
        unfold Rmax; destruct (Rle_dec _ _); lra. }
    assert (S : 0 < sin r2) by (apply sin_gt_0; lra).
    pose proof (K (sin r2)). nra.
  - intros H1 H2.
    assert (Hv : v < 0) by (unfold v; nra).
    assert (B : - (PI / 2) <= r2 < 0).
    { unfold r2. unfold Rmin. destruct (Rle_dec (PI / 2) v);
        unfold Rmax; destruct (Rle_dec _ _); lra. }
    assert (S : sin r2 < 0) by (apply sin_lt_0_var; lra).
    pose proof (K (sin r2)). nra.
  - intros H1 H2.
    assert (Hv : v = 0) by (unfold v; rewrite H1, H2; ring).
    assert (B : r2 = 0).
    { unfold r2. unfold Rmin. destruct (Rle_dec (PI / 2) v);
        unfold Rmax; destruct (Rle_dec _ _); lra. }
    rewrite B, sin_0. lra.
Qed.

Lemma bank_turns_witness :
  let g := set_orientation identity 0 1 0 (constructor tt) in
  (0 < roll g -> 0 <= rollInput g -> yaw g < yaw (update (1 / 60) g)) /\
  (roll g < 0 -> rollInput g <= 0 -> yaw (update (1 / 60) g) < yaw g) /\
  (roll g = 0 -> rollInput g = 0 -> yaw (update (1 / 60) g) = yaw g).
Proof.
  intros g. apply (bank_turns (1 / 60) g).
  - reflexivity.
  - lra.
  - unfold getSpeed, length. cbn. apply sqrt_lt_R0. lra.
  - cbn. rewrite Rabs_pos_eq by lra. pose proof PI2_1. lra.
Defined.

(** X17. The speed cap rescales and does not redirect: at or below
    [maxSpeed] the state is returned as it is; above, the velocity
    is multiplied by [maxSpeed / speed], the speed becomes exactly
    [maxSpeed] and the position stays; either way the new speed is
    [min speed maxSpeed]. *)
Theorem clampSpeed_keeps_direction (g : t) :
  (getSpeed g <= maxSpeed -> clampSpeed g = g) /\
  (maxSpeed < getSpeed g ->
     velocity (clampSpeed g) = multiplyScalar (velocity g) (maxSpeed / getSpeed g) /\
     getSpeed (clampSpeed g) = maxSpeed /\
     position (clampSpeed g) = position g) /\
  getSpeed (clampSpeed g) = Rmin (getSpeed g) maxSpeed.
Proof.
  assert (A : maxSpeed < getSpeed g ->
     velocity (clampSpeed g) = multiplyScalar (velocity g) (maxSpeed / getSpeed g) /\
     getSpeed (clampSpeed g) = maxSpeed /\
     position (clampSpeed g) = position g).
  { intros H. unfold clampSpeed. destruct (Rgt_dec (getSpeed g) maxSpeed) as [_|N]; [|lra].
    unfold maxSpeed, getSpeed in *. cbn [velocity position set_velocity].
    split; [|split; [|reflexivity]].
    - unfold normalize. destruct (Req_dec_T (length (velocity g)) 0); [lra|].
      unfold divideScalar, multiplyScalar. cbn [x y z]. f_equal; field; lra.
    - rewrite length_multiplyScalar, length_normalize by lra.
      rewrite Rabs_pos_eq; lra. }
  assert (B : getSpeed g <= maxSpeed -> clampSpeed g = g).
  { intros H. unfold clampSpeed. destruct (Rgt_dec _ _); [lra|reflexivity]. }
  split; [exact B|]. split; [exact A|].
  unfold Rmin. destruct (Rle_dec (getSpeed g) maxSpeed) as [H|H].
  - rewrite B by exact H. reflexivity.
  - apply A. lra.
Qed.

(** *** A reset glider flies like a new one *)

Ltac finish_stages :=
  unfold applyDive, getSpeed, set_velocity; fields;
  repeat break_if; unfold clampSpeed, getSpeed, set_velocity; fields;
  repeat break_if; unfold integratePosition, set_position; fields;
  unfold groundCheck, crash, set_velocity, set_crashed; fields;
  repeat break_if; reflexivity.

(** The physics never reads the debug values or the mesh. *)
Lemma physics_display (P V : Vector3) (Q : Quaternion) (a b c p r : R)
    (dl da dl' da' : R) (mp mp' : Vector3) (mq mq' : Quaternion) (dt : R) :
  updateMesh (updatePhysics dt (mk P V Q a b c p r false dl da mp mq))
  = updateMesh (updatePhysics dt (mk P V Q a b c p r false dl' da' mp' mq')).
Proof.
  rewrite !updatePhysics_forces. unfold forces.
  unfold getSpeed. fields.
  set (sp := length V). set (fw := applyQuaternion _ Q). set (vd := normalize V).
  set (aoa := angleOfAttack fw vd).
  unfold set_debugAoA. fields.
  unfold applyGravity, set_velocity. fields.
  set (V1 := vec3 _ _ _).
  unfold applyLift, liftMagnitude, set_velocity, set_debugLift. fields.
  destruct (Rgt_dec sp minSpeed).
  - fields. set (V2 := add V1 _). set (L := liftCoefficient * _ * _ * _).
    unfold applyDrag, dragCoeff, set_velocity. fields.
    destruct (Rgt_dec sp 0.1).
    + set (V3 := add V2 _). finish_stages.
    + finish_stages.
  - fields.
    unfold applyDrag, dragCoeff, set_velocity. fields.
    destruct (Rgt_dec sp 0.1).
    + set (V3 := add V1 _). finish_stages.
    + finish_stages.
Qed.

Lemma update_display (P V : Vector3) (Q : Quaternion) (a b c p r : R)
    (dl da dl' da' : R) (mp mp' : Vector3) (mq mq' : Quaternion) (dt : R) :
  update dt (mk P V Q a b c p r false dl da mp mq)
  = update dt (mk P V Q a b c p r false dl' da' mp' mq').
Proof.
  unfold update. cbn [crashed].
  unfold updateRotation, set_orientation, getSpeed. fields.
  apply physics_display.
Qed.

(** X18. A reset glider flies like a new one: from the first step
    on, any run of steps from a reset glider gives the very state the
    same run gives from the constructor's state, whatever the glider
    went through before (debug values and mesh included); and, once
    loading is over, a frame of the game after [restart] is the frame
    of a game with a new glider. *)
Theorem reset_flies_like_new :
  (forall i inputs g,
     steps (i :: inputs) (reset g) = steps (i :: inputs) (constructor tt)) /\
  (forall fuel dt game, Game.loading game = false ->
     Game.animate fuel dt (Game.restart game)
     = Game.animate fuel dt
         (Game.mk (constructor tt) (Game.inputManager game)
                  (Game.terrainProvider game) (Game.loading game))).
Proof.
  assert (S : forall p r dt g, step p r dt (reset g) = step p r dt (constructor tt)).
  { intros p r dt g. unfold step, reset, constructor, setInput, updateMesh.
    fields. apply update_display. }
  split.
  - intros i inputs g. cbn [steps fold_left]. f_equal. apply S.
  - intros fuel dt game L. unfold Game.animate, Game.restart.
    cbn [Game.loading Game.glider Game.inputManager Game.terrainProvider].
    rewrite L.
    set (im := InputManager.update (Game.inputManager game)).
    fold (step (Q2R (InputManager.getPitch im)) (Q2R (InputManager.getRoll im)) dt
               (reset (Game.glider game))).
    fold (step (Q2R (InputManager.getPitch im)) (Q2R (InputManager.getRoll im)) dt
               (constructor tt)).
    rewrite S. reflexivity.
Qed.

End GliderExtra.

(** ** More on the boundary force *)

Module BoundaryExtra.
Import Three Glider GliderOps GliderFacts BoundaryFacts.
Local Open Scope R_scope.

(** Two angles that differ by whole turns and lie less than a whole
    turn apart are the same angle. *)
Lemma whole_turns_zero (k : Z) (a b : R) :
  a = b + 2 * PI * IZR k -> Rabs (a - b) < 2 * PI -> a = b.
Proof.
  intros E H. pose proof PI_RGT_0 as Hpi.
  assert (K : k = 0%Z).
  { destruct (Z.eq_dec k 0) as [|N]; [assumption|exfalso].
    assert (C : (k <= -1 \/ 1 <= k)%Z) by lia.
    replace (a - b) with (2 * PI * IZR k) in H by lra.
    unfold Rabs in H. destruct (Rcase_abs _) in H; destruct C as [C|C];
      apply IZR_le in C; nra. }
  subst k. lra.
Qed.

(** X19. The boundary force closes in on its target: when the
    heading error is [d], one call with strength [0 < s <= 1]
    succeeds and leaves the heading error [d * (1 - 0.02 s)],
    whatever fuel the loops are given, and some fuel is enough; the
    error never grows. *)
Theorem heading_error_shrinks (fuel : nat) (dir : Vector3) (s d : R) (g : t) :
  headingError fuel dir g = Some d -> 0 < s <= 1 ->
  exists g',
    applyBoundaryForce fuel dir s g = Some g' /\
    (forall fuel' e, headingError fuel' dir g' = Some e -> e = d * (1 - 0.02 * s)) /\
    (exists fuel0, forall fuel', (fuel0 <= fuel')%nat ->
       headingError fuel' dir g' = Some (d * (1 - 0.02 * s))) /\
    Rabs (d * (1 - 0.02 * s)) <= Rabs d.
Proof.
  intros E Hs. pose proof PI_RGT_0 as Hpi.
  unfold headingError in E.
  destruct (normalizeDiff_spec _ _ _ E) as (Hd & k0 & Hk0).
  unfold applyBoundaryForce. rewrite E. eexists. split; [reflexivity|].
  set (T := atan2 (x dir) (- z dir)) in *.
  assert (U : forall fuel' e,
            headingError fuel' dir (set_yaw (yaw g + d * s * 0.02) g) = Some e ->
            e = d * (1 - 0.02 * s)).
  { intros fuel' e E'. unfold headingError in E'. fold T in E'.
    cbn [yaw set_yaw set_orientation] in E'.
    destruct (normalizeDiff_spec _ _ _ E') as (He & k & Hk).
    apply (whole_turns_zero (k - k0)).
    - rewrite minus_IZR. lra.
    - assert (B : Rabs (d * (1 - 0.02 * s)) < PI).
      { rewrite Rabs_mult. rewrite (Rabs_pos_eq (1 - 0.02 * s)) by lra.
        assert (Rabs d <= PI) by (apply Rabs_le; lra).
        pose proof (Rabs_pos d). nra. }
      apply Rabs_def2 in B. apply Rabs_def1; lra. }
  split; [exact U|]. split.
  - destruct (normalizeDiff_total (T - (yaw g + d * s * 0.02))) as [fuel0 Hf].
    exists fuel0. intros fuel' Hle. destruct (Hf fuel' Hle) as [e He].
    assert (X : headingError fuel' dir (set_yaw (yaw g + d * s * 0.02) g) = Some e)
      by exact He.
    rewrite X. f_equal. apply (U fuel'). exact X.
  - rewrite Rabs_mult. rewrite (Rabs_pos_eq (1 - 0.02 * s)) by lra.
    pose proof (Rabs_pos d). nra.
Qed.

Lemma heading_error_shrinks_witness :
  exists g',
    applyBoundaryForce 0 (vec3 (-1) 0 0) (1 / 2) (constructor tt) = Some g' /\
    (forall fuel' e, headingError fuel' (vec3 (-1) 0 0) g' = Some e ->
       e = (- PI / 2 - 0) * (1 - 0.02 * (1 / 2))) /\
    (exists fuel0, forall fuel', (fuel0 <= fuel')%nat ->
       headingError fuel' (vec3 (-1) 0 0) g'
       = Some ((- PI / 2 - 0) * (1 - 0.02 * (1 / 2)))) /\
    Rabs ((- PI / 2 - 0) * (1 - 0.02 * (1 / 2))) <= Rabs (- PI / 2 - 0).
Proof.
  apply (heading_error_shrinks 0 (vec3 (-1) 0 0) (1 / 2) (- PI / 2 - 0) (constructor tt)).
  - unfold headingError. cbn [x z yaw constructor].
    rewrite atan2_left by lra.
    apply normalizeDiff_fixed. pose proof PI_RGT_0. lra.
  - lra.
Defined.

(** *** The boundary check of the game *)

Lemma Rmax_pos (a b : R) : a > 0 \/ b > 0 -> 0 < Rmax a b.
Proof. intros H. unfold Rmax. destruct (Rle_dec a b); lra. Qed.

(** X20. Past the buffered interior the boundary check steers for
    the centre with a strength [s] in (0, 1]: it adds
    [d * s * 0.02] to the yaw, [d] being the heading error towards
    the centre, where [s] is the distance past the inner line over
    100 m capped at 1 (so 1 from 100 m on), and changes neither
    position, velocity, crashed flag nor orientation. *)
Theorem edge_steers_home (fuel : nat) (tp : LocalTerrainProvider.t) (g : t) (d : R) :
  let pos := position g in
  let toCenter := normalize (vec3 (- x pos) 0 (- z pos)) in
  Game.distToEdge_x tp pos > 0 \/ Game.distToEdge_z tp pos > 0 ->
  headingError fuel toCenter g = Some d ->
  exists s g',
    Game.checkBoundaries fuel tp g = Some g' /\
    s = Rmin (Rmax (Game.distToEdge_x tp pos) (Game.distToEdge_z tp pos) / 100) 1 /\
    0 < s <= 1 /\
    yaw g' = yaw g + d * s * 0.02 /\
    position g' = position g /\ velocity g' = velocity g /\
    crashed g' = crashed g /\ rotation g' = rotation g /\
    (100 <= Game.distToEdge_x tp pos \/ 100 <= Game.distToEdge_z tp pos -> s = 1).
Proof.
  intros pos toCenter Out E.
  set (dx := Game.distToEdge_x tp pos) in *. set (dz := Game.distToEdge_z tp pos) in *.
  pose proof (Rmax_pos dx dz Out) as Hm.
  exists (Rmin (Rmax dx dz / 100) 1).
  assert (St : Game.checkBoundaries fuel tp g
               = applyBoundaryForce fuel toCenter (Rmin (Rmax dx dz / 100) 1) g).
  { unfold Game.checkBoundaries. cbv zeta. fold pos. fold dx dz. fold toCenter.
    unfold Game.buffer.
    destruct (Rgt_dec dx 0); [reflexivity|].
    destruct (Rgt_dec dz 0); [reflexivity|]. lra. }
  rewrite St. unfold applyBoundaryForce. unfold headingError in E. rewrite E.
  eexists. split; [reflexivity|]. split; [reflexivity|].
  split.
  { unfold Rmin. destruct (Rle_dec _ 1); lra. }
  split; [reflexivity|].
  repeat (split; [reflexivity|]).
  intros Far.
  assert (100 <= Rmax dx dz).
  { unfold Rmax. destruct (Rle_dec dx dz); lra. }
  unfold Rmin. destruct (Rle_dec _ 1); lra.
Qed.

Lemma edge_steers_home_witness :
  let tp := LocalTerrainProvider.constructor Game.terrainOptions in
  exists s g',
    Game.checkBoundaries 0 tp wreck = Some g' /\
    s = Rmin (Rmax (Game.distToEdge_x tp (position wreck))
                   (Game.distToEdge_z tp (position wreck)) / 100) 1 /\
    0 < s <= 1 /\
    yaw g' = yaw wreck + (- PI / 2 - 0) * s * 0.02 /\
    position g' = position wreck /\ velocity g' = velocity wreck /\
    crashed g' = crashed wreck /\ rotation g' = rotation wreck /\
    (100 <= Game.distToEdge_x tp (position wreck) \/
     100 <= Game.distToEdge_z tp (position wreck) -> s = 1).
Proof.
  intros tp.
  assert (Len : length (vec3 (Ropp 2800) 0 (Ropp 0)) = 2800).
  { unfold length. cbn [x y z].
    match goal with |- sqrt ?e = _ => replace e with (2800 * 2800) by ring end.
    apply sqrt_square. lra. }
  apply (edge_steers_home 0 tp wreck (- PI / 2 - 0)).
  - left. unfold Game.distToEdge_x, Game.buffer, tp, Q2R. cbn.
    unfold Rmax. destruct (Rle_dec _ _); lra.
  - unfold headingError. cbn [position wreck crash set_velocity set_crashed
      set_position constructor x z yaw].
    unfold normalize. rewrite Len. destruct (Req_dec_T 2800 0); [lra|].
    unfold divideScalar, multiplyScalar. cbn [x z].
    rewrite atan2_left by lra.
    apply normalizeDiff_fixed. pose proof PI_RGT_0. lra.
Defined.

Lemma Rmax_abs (a m : R) : Rmax (a - m) (- m - a) = Rabs a - m.
Proof.
  unfold Rmax, Rabs. destruct (Rle_dec _ _), (Rcase_abs a); lra.
Qed.

(** X21. On a square terrain of side [2 * mapBoundary] the
    boundary check of the game (rectangular terrain, from the
    provider's bounds) does exactly what the boundary check of the
    earlier main.js (square map, [Math.abs]) does. *)
Theorem checkBoundaries_versions (fuel : nat) (tp : LocalTerrainProvider.t)
    (mapBoundary : R) (g : t) :
  Q2R (LocalTerrainProvider.terrainWidth tp) = 2 * mapBoundary ->
  Q2R (LocalTerrainProvider.terrainDepth tp) = 2 * mapBoundary ->
  GameV1.checkBoundaries fuel mapBoundary g = Game.checkBoundaries fuel tp g.
Proof.
  intros Hw Hd.
  assert (Two : Q2R 2 = 2) by (unfold Q2R; cbn; lra).
  assert (N2 : ~ (2 == 0)%Q) by discriminate.
  assert (Dx : Game.distToEdge_x tp (position g)
               = Rabs (x (position g)) - (mapBoundary - 100)).
  { unfold Game.distToEdge_x, Game.buffer. cbn [LocalTerrainProvider.getBounds
      LocalTerrainProvider.maxX LocalTerrainProvider.minX].
    rewrite !Q2R_div, Q2R_opp, Two, Hw by exact N2.
    rewrite <- (Rmax_abs (x (position g)) (mapBoundary - 100)).
    f_equal; lra. }
  assert (Dz : Game.distToEdge_z tp (position g)
               = Rabs (z (position g)) - (mapBoundary - 100)).
  { unfold Game.distToEdge_z, Game.buffer. cbn [LocalTerrainProvider.getBounds
      LocalTerrainProvider.maxZ LocalTerrainProvider.minZ].
    rewrite !Q2R_div, Q2R_opp, Two, Hd by exact N2.
    rewrite <- (Rmax_abs (z (position g)) (mapBoundary - 100)).
    f_equal; lra. }
  unfold GameV1.checkBoundaries, Game.checkBoundaries. cbv zeta.
  rewrite Dx, Dz. unfold GameV1.buffer, Game.buffer. reflexivity.
Qed.

Lemma checkBoundaries_versions_witness :
  GameV1.checkBoundaries 5 1500 (constructor tt)
  = Game.checkBoundaries 5 (LocalTerrainProvider.constructor
                              LocalTerrainProvider.no_options) (constructor tt).
Proof.
  apply (checkBoundaries_versions 5
           (LocalTerrainProvider.constructor LocalTerrainProvider.no_options)
           1500 (constructor tt)).
  - unfold Q2R. cbn. lra.
  - unfold Q2R. cbn. lra.
Defined.

End BoundaryExtra.

(** ** More on the frame loop *)

Module GameExtra.
Import Three Glider GliderOps GliderFacts BoundaryFacts GliderExtra.
Local Open Scope R_scope.

Lemma checkBoundaries_total (tp : LocalTerrainProvider.t) (g : t) :
  exists fuel0, forall fuel, (fuel0 <= fuel)%nat ->
    exists g', Game.checkBoundaries fuel tp g = Some g' /\
      position g' = position g /\ velocity g' = velocity g /\
      crashed g' = crashed g /\ pitch g' = pitch g /\ roll g' = roll g /\
      pitchInput g' = pitchInput g /\ rollInput g' = rollInput g.
Proof.
  set (pos := position g).
  set (toCenter := normalize (vec3 (- x pos) 0 (- z pos))).
  destruct (normalizeDiff_total (atan2 (x toCenter) (- z toCenter) - yaw g))
    as [fuel0 Hf].
  exists fuel0. intros fuel Hle. destruct (Hf fuel Hle) as [d Hd].
  unfold Game.checkBoundaries. cbv zeta. fold pos. fold toCenter.
  unfold applyBoundaryForce. rewrite Hd.
  destruct (Rgt_dec _ 0); [|destruct (Rgt_dec _ 0)];
    eexists; (split; [reflexivity|]); cbn; repeat split; reflexivity.
Qed.

Lemma update_inputs (dt : R) (g : t) :
  pitchInput (update dt g) = pitchInput g /\ rollInput (update dt g) = rollInput g.
Proof.
  unfold update. destruct (crashed g); [auto|].
  cbn [pitchInput rollInput updateMesh].
  destruct (updatePhysics_rotation (Rmin dt 0.1) (updateRotation (Rmin dt 0.1) g))
    as (_ & A & B & _).
  rewrite A, B. unfold updateRotation. cbn. auto.
Qed.

Lemma in_range_R (q : Q) : InputManager.in_range q -> -1 <= Q2R q <= 1.
Proof.
  intros [A B]. apply Qle_Rle in A, B.
  assert (E1 : Q2R 1 = 1) by (unfold Q2R; cbn; lra).
  assert (E2 : Q2R (-1) = -1) by (unfold Q2R; cbn; lra).
  change (Q2R (- (1))) with (Q2R (-1)) in A. lra.
Qed.

(** X22. A frame of the game keeps the game sane: for a frame
    time that is not negative and with enough fuel for the
    normalising loops, [animate] returns, and if before the frame
    the glider was within its limits, flying or at rest, and both
    axes of the input manager were in [-1, 1], the same holds after
    it; the terrain provider is the same, and the inputs handed to
    the glider lie in [-1, 1]. *)
Theorem frame_keeps_limits (dt : R) (game : Game.t) :
  0 <= dt ->
  within_limits (Game.glider game) -> flight_state_ok (Game.glider game) ->
  InputManager.in_range (InputManager.pitch (Game.inputManager game)) ->
  InputManager.in_range (InputManager.roll (Game.inputManager game)) ->
  exists fuel0, forall fuel, (fuel0 <= fuel)%nat ->
    exists game',
      Game.animate fuel dt game = Some game' /\
      within_limits (Game.glider game') /\ flight_state_ok (Game.glider game') /\
      InputManager.in_range (InputManager.pitch (Game.inputManager game')) /\
      InputManager.in_range (InputManager.roll (Game.inputManager game')) /\
      Game.terrainProvider game' = Game.terrainProvider game /\
      (Game.loading game = false ->
         -1 <= pitchInput (Game.glider game') <= 1 /\
         -1 <= rollInput (Game.glider game') <= 1).
Proof.
  intros Hdt Hl Hg Hp Hr. unfold Game.animate.
  destruct (Game.loading game) eqn:Ld.
  { exists O. intros fuel _. exists game.
    split; [reflexivity|]. split; [exact Hl|]. split; [exact Hg|].
    split; [exact Hp|]. split; [exact Hr|]. split; [reflexivity|].
    intros X; discriminate X. }
  destruct (InputFacts.update_in_range _ Hp Hr) as [Hp' Hr'].
  set (im := InputManager.update (Game.inputManager game)) in *.
  set (p := Q2R (InputManager.getPitch im)). set (r := Q2R (InputManager.getRoll im)).
  set (g1 := update dt (setInput p r (Game.glider game))).
  assert (L1 : within_limits g1).
  { apply update_limits; [exact Hdt|]. exact Hl. }
  assert (G1 : flight_state_ok g1).
  { apply (act_ground (Update dt) (setInput p r (Game.glider game))); [exact Hg|reflexivity]. }
  destruct (update_inputs dt (setInput p r (Game.glider game))) as [I1 I2].
  fold g1 in I1, I2. cbn [pitchInput rollInput setInput] in I1, I2.
  destruct (checkBoundaries_total (Game.terrainProvider game) g1) as [fuel0 Hf].
  exists fuel0. intros fuel Hle.
  destruct (Hf fuel Hle) as (g' & E & P & V & C & Pi & Ro & PI' & RI').
  rewrite E. eexists. split; [reflexivity|]. cbn [Game.glider Game.inputManager
    Game.terrainProvider].
  split.
  { unfold within_limits, getSpeed in *. rewrite Pi, Ro, V. exact L1. }
  split.
  { unfold flight_state_ok in *. rewrite C, P, V. exact G1. }
  split; [exact Hp'|]. split; [exact Hr'|]. split; [reflexivity|].
  intros _. rewrite PI', RI', I1, I2. split; apply in_range_R; assumption.
Qed.

Lemma frame_keeps_limits_witness :
  let game := {| Game.glider := constructor tt;
                 Game.inputManager := InputManager.constructor false;
                 Game.terrainProvider :=
                   LocalTerrainProvider.constructor Game.terrainOptions;
                 Game.loading := false |} in
  exists fuel0, forall fuel, (fuel0 <= fuel)%nat ->
    exists game',
      Game.animate fuel (1 / 60) game = Some game' /\
      within_limits (Game.glider game') /\ flight_state_ok (Game.glider game') /\
      InputManager.in_range (InputManager.pitch (Game.inputManager game')) /\
      InputManager.in_range (InputManager.roll (Game.inputManager game')) /\
      Game.terrainProvider game' = Game.terrainProvider game /\
      (Game.loading game = false ->
         -1 <= pitchInput (Game.glider game') <= 1 /\
         -1 <= rollInput (Game.glider game') <= 1).
Proof.
  intros game. apply (frame_keeps_limits (1 / 60) game).
  - lra.
  - apply constructor_limits.
  - apply constructor_ground.
  - unfold InputManager.in_range. cbn. split; discriminate.
  - unfold InputManager.in_range. cbn. split; discriminate.
Defined.

End GameExtra.

(** ** The chase camera *)

Module CameraExtra.
Import Three Glider GliderOps GliderFacts GliderExtra ChaseCamera.
Local Open Scope R_scope.

Lemma lerp_error (a v : Vector3) (alpha : R) :
  sub (lerp a v alpha) v = multiplyScalar (sub a v) (1 - alpha).
Proof.
  destruct a, v. unfold sub, lerp, multiplyScalar. cbn [x y z]. f_equal; ring.
Qed.

Lemma multiplyScalar_twice (v : Vector3) (a b : R) :
  multiplyScalar (multiplyScalar v a) b = multiplyScalar v (a * b).
Proof. destruct v. unfold multiplyScalar. cbn [x y z]. f_equal; ring. Qed.

Lemma multiplyScalar_one (v : Vector3) : multiplyScalar v 1 = v.
Proof. destruct v. unfold multiplyScalar. cbn [x y z]. f_equal; ring. Qed.

Lemma iter_update_S (glider : Glider.t) (dt : R) (n : nat) (c : ChaseCamera.t) :
  Nat.iter (S n) (ChaseCamera.update glider dt) c
  = ChaseCamera.update glider dt (Nat.iter n (ChaseCamera.update glider dt) c).
Proof. reflexivity. Qed.

(** X23. The chase camera closes in on a glider that holds still:
    each update leaves 0.95 of the offset between camera and target
    position and 0.9 of the offset between look-at point and target
    look-at, so after [n] updates the distances are the start
    distances times [0.95 ^ n] and [0.9 ^ n]; the frame time has no
    influence, and the camera object gets the smoothed values. *)
Theorem camera_closes_in (glider : Glider.t) (dt : R) (n : nat) (c : ChaseCamera.t) :
  let c' := Nat.iter n (ChaseCamera.update glider dt) c in
  sub (currentPosition c') (targetPosition glider)
    = multiplyScalar (sub (currentPosition c) (targetPosition glider)) (0.95 ^ n) /\
  sub (currentLookAt c') (targetLookAt glider)
    = multiplyScalar (sub (currentLookAt c) (targetLookAt glider)) (0.9 ^ n) /\
  length (sub (currentPosition c') (targetPosition glider))
    = 0.95 ^ n * length (sub (currentPosition c) (targetPosition glider)) /\
  length (sub (currentLookAt c') (targetLookAt glider))
    = 0.9 ^ n * length (sub (currentLookAt c) (targetLookAt glider)) /\
  (forall dt', ChaseCamera.update glider dt' c = ChaseCamera.update glider dt c) /\
  ((0 < n)%nat -> cam_position (camera c') = currentPosition c' /\
                  cam_target (camera c') = Some (currentLookAt c')).
Proof.
  intros c'.
  assert (A : sub (currentPosition c') (targetPosition glider)
    = multiplyScalar (sub (currentPosition c) (targetPosition glider)) (0.95 ^ n) /\
    sub (currentLookAt c') (targetLookAt glider)
    = multiplyScalar (sub (currentLookAt c) (targetLookAt glider)) (0.9 ^ n)).
  { unfold c'. clear c'. induction n as [|n [IH1 IH2]].
    - cbn [Nat.iter pow]. rewrite !multiplyScalar_one. auto.
    - rewrite iter_update_S. set (cn := Nat.iter n _ c) in *.
      unfold ChaseCamera.update. cbn [currentPosition currentLookAt].
      rewrite !lerp_error, IH1, IH2, !multiplyScalar_twice.
      unfold positionLerp, lookAtLerp. cbn [pow].
      split; f_equal; lra. }
  destruct A as [A1 A2].
  split; [exact A1|]. split; [exact A2|].
  split.
  { rewrite A1, length_multiplyScalar. rewrite Rabs_pos_eq; [reflexivity|].
    apply pow_le. lra. }
  split.
  { rewrite A2, length_multiplyScalar. rewrite Rabs_pos_eq; [reflexivity|].
    apply pow_le. lra. }
  split; [reflexivity|].
  intros Hn. unfold c'. destruct n as [|n]; [lia|].
  rewrite iter_update_S. cbn. auto.
Qed.

(** X24. After a reset the camera sits at its target position, at
    distance [sqrt 153] (about 12.4 m) from a glider whose
    orientation is a unit quaternion, and looks at the glider; the
    next update leaves the camera where it is and moves the look-at
    point by exactly 1 m, towards the point 10 m ahead of the
    glider. *)
Theorem camera_reset (glider : Glider.t) (dt : R) (c : ChaseCamera.t) :
  norm2 (rotation glider) = 1 ->
  let c0 := ChaseCamera.reset glider c in
  cam_position (camera c0) = targetPosition glider /\
  cam_target (camera c0) = Some (position glider) /\
  length (sub (cam_position (camera c0)) (position glider)) = sqrt 153 /\
  currentPosition (ChaseCamera.update glider dt c0) = currentPosition c0 /\
  length (sub (currentLookAt (ChaseCamera.update glider dt c0)) (currentLookAt c0)) = 1.
Proof.
  intros U c0. unfold c0, ChaseCamera.reset. cbn [camera cam_position cam_target
    currentPosition currentLookAt ChaseCamera.update].
  split; [reflexivity|]. split; [reflexivity|].
  split.
  { unfold targetPosition. rewrite sub_add, length_applyQuaternion, U.
    unfold offset, length. cbn [x y z]. rewrite Rmult_1_l. f_equal. lra. }
  split.
  { destruct (targetPosition glider). unfold lerp. cbn [x y z]. f_equal; ring. }
  unfold targetLookAt.
  set (f := getForwardDirection glider).
  assert (F : length f = 1).
  { unfold f, getForwardDirection. rewrite length_applyQuaternion, U.
    unfold length. cbn [x y z].
    replace (0 * 0 + 0 * 0 + -1 * -1) with 1 by ring. rewrite sqrt_1. lra. }
  assert (E : sub (lerp (position glider)
                        (add (position glider) (multiplyScalar f 10)) lookAtLerp)
                  (position glider) = f).
  { destruct (position glider), f. unfold sub, lerp, add, multiplyScalar, lookAtLerp.
    cbn [x y z]. f_equal; lra. }
  rewrite E. exact F.
Qed.

Lemma camera_reset_witness :
  let c0 := ChaseCamera.reset (Glider.constructor tt)
              (ChaseCamera.constructor (mkCamera (vec3 0 0 0) None)) in
  cam_position (camera c0) = targetPosition (Glider.constructor tt) /\
  cam_target (camera c0) = Some (position (Glider.constructor tt)) /\
  length (sub (cam_position (camera c0)) (position (Glider.constructor tt))) = sqrt 153 /\
  currentPosition (ChaseCamera.update (Glider.constructor tt) 0 c0) = currentPosition c0 /\
  length (sub (currentLookAt (ChaseCamera.update (Glider.constructor tt) 0 c0))
              (currentLookAt c0)) = 1.
Proof.
  apply (camera_reset (Glider.constructor tt) 0
           (ChaseCamera.constructor (mkCamera (vec3 0 0 0) None))).
  apply norm2_identity.
Defined.

End CameraExtra.

(** ** The HUD *)

Module HudExtra.
Import Three Glider GliderOps GliderFacts GliderExtra HUD.
Local Open Scope R_scope.

Lemma round_near (v : R) : Rabs (IZR (round v) - v) <= 1 / 2.
Proof.
  unfold round. pose proof (Zfloor_bound (v + 0.5)) as [A B].
  apply Rabs_le. lra.
Qed.

Lemma round_integer (n : Z) : round (IZR n) = n.
Proof.
  unfold round. apply Zfloor_eq. lra.
Qed.

Lemma round_between (a b : Z) (v : R) :
  IZR a <= v <= IZR b -> (a <= round v <= b)%Z.
Proof.
  intros [A B]. unfold round. split.
  - apply Zfloor_lub. lra.
  - pose proof (Zfloor_bound (v + 0.5)) as [C _].
    assert (L : IZR (Zfloor (v + 0.5)) < IZR (b + 1)) by (rewrite plus_IZR; lra).
    apply lt_IZR in L. lia.
Qed.

Lemma act_speed (a : Action) (g g' : Glider.t) :
  getSpeed g <= maxSpeed -> act g a = Some g' -> getSpeed g' <= maxSpeed.
Proof.
  intros S. destruct a as [p r|dt| |fuel dir s]; cbn [act]; intros E.
  - inversion E; subst. exact S.
  - inversion E; subst. unfold Glider.update. destruct (crashed g); [exact S|].
    unfold getSpeed. cbn [velocity updateMesh]. apply updatePhysics_speed.
  - inversion E; subst. apply constructor_limits.
  - destruct (applyBoundaryForce_frame _ _ _ _ _ E) as (_ & V & _).
    unfold getSpeed in *. rewrite V. exact S.
Qed.

Lemma run_speed (acts : list Action) (g g' : Glider.t) :
  getSpeed g <= maxSpeed -> run acts g = Some g' -> getSpeed g' <= maxSpeed.
Proof.
  revert g. induction acts as [|a rest IH]; intros g S E; cbn [run] in E.
  - inversion E; subst. exact S.
  - destruct (act g a) as [g1|] eqn:A; [|discriminate].
    apply (IH g1); [|exact E]. apply (act_speed a g); assumption.
Qed.

Lemma run_ground (acts : list Action) (g g' : Glider.t) :
  flight_state_ok g -> run acts g = Some g' -> flight_state_ok g'.
Proof.
  revert g. induction acts as [|a rest IH]; intros g S E; cbn [run] in E.
  - inversion E; subst. exact S.
  - destruct (act g a) as [g1|] eqn:A; [|discriminate].
    apply (IH g1); [|exact E]. apply (act_ground a g); assumption.
Qed.

(** X25. What the HUD shows after any run of glider operations
    from the constructor's state: the speed read-out is within 1/2
    of the speed in km/h, between 0 and 288, and 0 for a crashed
    glider; the altitude read-out is within 1/2 of the altitude, not
    negative while flying and not positive when crashed; an element
    the page lacks stays absent. *)
Theorem hud_readout (acts : list Action) (g : Glider.t) (h : HUD.t) :
  run acts (Glider.constructor tt) = Some g ->
  (forall n0, speedElement h = Some n0 ->
     exists n, speedElement (HUD.update g h) = Some n /\
       Rabs (IZR n - getSpeedKmh g) <= 1 / 2 /\ (0 <= n <= 288)%Z /\
       (crashed g = true -> n = 0%Z)) /\
  (forall m0, altitudeElement h = Some m0 ->
     exists m, altitudeElement (HUD.update g h) = Some m /\
       Rabs (IZR m - getAltitude g) <= 1 / 2 /\
       (crashed g = false -> (0 <= m)%Z) /\ (crashed g = true -> (m <= 0)%Z)) /\
  (speedElement h = None -> speedElement (HUD.update g h) = None) /\
  (altitudeElement h = None -> altitudeElement (HUD.update g h) = None).
Proof.
  intros E.
  assert (S : getSpeed g <= maxSpeed).
  { apply (run_speed acts (Glider.constructor tt)); [apply constructor_limits|exact E]. }
  assert (G : flight_state_ok g).
  { apply (run_ground acts (Glider.constructor tt)); [apply constructor_ground|exact E]. }
  pose proof (length_nonneg (velocity g)) as N. fold (getSpeed g) in N.
  unfold maxSpeed in S. destruct G as [G1 G2].
  split; [|split; [|split]].
  - intros n0 H. unfold HUD.update. cbn [speedElement]. rewrite H.
    eexists. split; [reflexivity|]. split; [apply round_near|]. split.
    + apply round_between. unfold getSpeedKmh. lra.
    + intros C. destruct (G2 C) as [V _]. unfold getSpeedKmh, getSpeed. rewrite V.
      rewrite length_zero. replace (0 * 3.6) with (IZR 0) by lra. apply round_integer.
  - intros m0 H. unfold HUD.update. cbn [altitudeElement]. rewrite H.
    eexists. split; [reflexivity|]. split; [apply round_near|]. split.
    + intros C. specialize (G1 C). unfold round. apply Zfloor_lub.
      unfold getAltitude. lra.
    + intros C. destruct (G2 C) as [_ Y]. unfold round.
      pose proof (Zfloor_bound (getAltitude g + 0.5)) as [B _].
      unfold getAltitude in *.
      assert (L : IZR (Zfloor (y (position g) + 0.5)) < IZR 1) by lra.
      apply lt_IZR in L. lia.
  - intros H. unfold HUD.update. cbn [speedElement]. rewrite H. reflexivity.
  - intros H. unfold HUD.update. cbn [altitudeElement]. rewrite H. reflexivity.
Qed.

Lemma hud_readout_witness :
  let g := Glider.update 0.1 (Glider.constructor tt) in
  let h := HUD.constructor true false 0 in
  (forall n0, speedElement h = Some n0 ->
     exists n, speedElement (HUD.update g h) = Some n /\
       Rabs (IZR n - getSpeedKmh g) <= 1 / 2 /\ (0 <= n <= 288)%Z /\
       (crashed g = true -> n = 0%Z)) /\
  (forall m0, altitudeElement h = Some m0 ->
     exists m, altitudeElement (HUD.update g h) = Some m /\
       Rabs (IZR m - getAltitude g) <= 1 / 2 /\
       (crashed g = false -> (0 <= m)%Z) /\ (crashed g = true -> (m <= 0)%Z)) /\
  (speedElement h = None -> speedElement (HUD.update g h) = None) /\
  (altitudeElement h = None -> altitudeElement (HUD.update g h) = None).
Proof.
  intros g h. apply (hud_readout [Update 0.1] g h). reflexivity.
Defined.

End HudExtra.

(** ** The debug overlay *)

Module DebugExtra.
Import Three DebugMode.
Local Open Scope R_scope.

Lemma run_app (evs1 evs2 : list Event) (d : DebugMode.t) :
  run (evs1 ++ evs2) d = run evs2 (run evs1 d).
Proof. unfold run. apply fold_left_app. Qed.

Lemma run_snoc (evs : list Event) (e : Event) (d : DebugMode.t) :
  run (evs ++ [e]) d = dispatch (run evs d) e.
Proof. rewrite run_app. reflexivity. Qed.

Lemma update_enabled (g : Glider.t) (now : R) (d : DebugMode.t) :
  enabled (update g now d) = enabled d /\ panel (update g now d) = panel d /\
  (velocityArrow (update g now d) = None <-> velocityArrow d = None) /\
  (liftArrow (update g now d) = None <-> liftArrow d = None).
Proof.
  unfold update. destruct (enabled d) eqn:E; cbn; rewrite ?E.
  - destruct (velocityArrow d), (liftArrow d); repeat split; congruence.
  - repeat split; auto.
Qed.

Lemma toggle_enabled (d : DebugMode.t) :
  enabled (toggle d) = negb (enabled d) /\
  (velocityArrow (toggle d) = None <-> negb (enabled d) = false) /\
  (liftArrow (toggle d) = None <-> negb (enabled d) = false) /\
  panel (toggle d) = match panel d with
                     | Some _ => Some (negb (enabled d))
                     | None => None
                     end.
Proof.
  unfold toggle. destruct (enabled d); cbn; repeat split; congruence.
Qed.

(** The presses of G among the events. *)
Lemma filter_snoc {A} (f : A -> bool) (l : list A) (a : A) :
  filter f (l ++ [a]) = filter f l ++ (if f a then [a] else []).
Proof. rewrite filter_app. reflexivity. Qed.

(** X26. The overlay follows the G key: after any run of key and
    frame events from the constructor's state the overlay is enabled
    exactly when G went down an odd number of times, the two arrows
    exist exactly when it is enabled, a page without the panel stays
    without it, and once G went down the panel (if any) is visible
    exactly when the overlay is enabled, while before that it is as
    the page had it. *)
Theorem overlay_follows_key (evs : list Event) (now : R) (panel0 : option bool) :
  let d := run evs (constructor now panel0) in
  let presses :=
    List.length
      (filter (fun e => match e with
                        | Key c => String.eqb c "KeyG"
                        | Frame _ _ => false
                        end) evs) in
  enabled d = Nat.odd presses /\
  (velocityArrow d = None <-> enabled d = false) /\
  (liftArrow d = None <-> enabled d = false) /\
  (panel d = None <-> panel0 = None) /\
  ((0 < presses)%nat -> forall v, panel0 = Some v -> panel d = Some (enabled d)) /\
  (presses = O -> panel d = panel0).
Proof.
  induction evs as [|e evs IH] using rev_ind; intros d presses.
  - cbn. repeat split; auto; try lia; congruence.
  - unfold d, presses. clear d presses. rewrite run_snoc, filter_snoc.
    cbv zeta in IH.
    set (d := run evs (constructor now panel0)) in *.
    set (f := fun e => match e with
                        | Key c => String.eqb c "KeyG"
                        | Frame _ _ => false
                        end) in *.
    set (n := List.length (filter f evs)) in *.
    destruct IH as (E & V & L & P & P1 & P0).
    destruct e as [c|g t]; cbn [dispatch f].
    + unfold keydown. destruct (String.eqb c "KeyG").
      * rewrite length_app. cbn [List.length]. fold n.
        replace (n + 1)%nat with (S n) by lia. rewrite Nat.odd_succ.
        destruct (toggle_enabled d) as (TE & TV & TL & TP).
        rewrite TE, TP.
        assert (En : negb (enabled d) = Nat.even n).
        { rewrite E. rewrite <- Nat.negb_even. apply negb_involutive. }
        split; [exact En|]. split; [rewrite TV; tauto|]. split; [rewrite TL; tauto|].
        split.
        { destruct (panel d) eqn:Pd; split; intros H; try discriminate.
          - apply P in H. discriminate.
          - apply P. exact H.
          - reflexivity. }
        split.
        { intros _ v Hv. destruct (panel d) eqn:Pd; [reflexivity|].
          assert (panel0 = None) by (apply P; reflexivity). congruence. }
        intros C. discriminate C.
      * rewrite length_app. cbn [List.length]. rewrite Nat.add_0_r. fold n.
        repeat split; tauto || auto.
        all: try (apply V); try (apply L); try (apply P); auto.
    + rewrite length_app. cbn [List.length]. rewrite Nat.add_0_r. fold n.
      destruct (update_enabled g t d) as (UE & UP & UV & UL).
      rewrite UE, UP. split; [exact E|].
      split; [rewrite UV; exact V|]. split; [rewrite UL; exact L|].
      split; [exact P|]. split; [exact P1|exact P0].
Qed.

Lemma frame_counts (g : Glider.t) (now : R) (d : DebugMode.t) :
  now - lastFpsUpdate d < 1000 ->
  frameCount (update g now d) = (frameCount d + 1)%Z /\
  currentFps (update g now d) = currentFps d /\
  lastFpsUpdate (update g now d) = lastFpsUpdate d.
Proof.
  intros H. unfold update. destruct (Rge_dec _ 1000) as [C|_]; [lra|].
  destruct (enabled d); cbn; auto.
Qed.

(** X27. The frame counter counts frames, not time: frames that
    arrive less than 1000 ms after the last reading only increment
    the count, and the first frame at 1000 ms or later publishes the
    number of frames since that reading, itself included, as the
    FPS value, clears the count and restarts the clock at its own time
    stamp, whether the overlay is enabled or not. *)
Theorem fps_counts_frames (frames : list (Glider.t * R)) (g : Glider.t) (now : R)
    (d : DebugMode.t) :
  Forall (fun e => snd e - lastFpsUpdate d < 1000) frames ->
  now - lastFpsUpdate d >= 1000 ->
  let d1 := run (map (fun e => Frame (fst e) (snd e)) frames) d in
  let d2 := update g now d1 in
  frameCount d1 = (frameCount d + Z.of_nat (List.length frames))%Z /\
  currentFps d1 = currentFps d /\
  currentFps d2 = (frameCount d + Z.of_nat (List.length frames) + 1)%Z /\
  frameCount d2 = 0%Z /\
  lastFpsUpdate d2 = now.
Proof.
  intros Hf Hnow d1 d2.
  assert (A : frameCount d1 = (frameCount d + Z.of_nat (List.length frames))%Z /\
              currentFps d1 = currentFps d /\ lastFpsUpdate d1 = lastFpsUpdate d).
  { unfold d1. clear d1 d2 Hnow. revert d Hf.
    induction frames as [|[g0 t0] rest IH]; intros d Hf.
    - cbn. split; [lia|auto].
    - inversion Hf as [|? ? H0 Hrest]; subst. cbn [snd] in H0.
      cbn [map run fold_left dispatch fst snd List.length].
      destruct (frame_counts g0 t0 d H0) as (F1 & F2 & F3).
      destruct (IH (update g0 t0 d)) as (I1 & I2 & I3).
      { rewrite F3. exact Hrest. }
      unfold run in I1, I2, I3. rewrite I1, I2, I3, F1, F2, F3.
      split; [lia|auto]. }
  destruct A as (A1 & A2 & A3).
  split; [exact A1|]. split; [exact A2|].
  unfold d2, update. rewrite A3, A1.
  destruct (Rge_dec (now - lastFpsUpdate d) 1000) as [_|C]; [|lra].
  destruct (enabled d1); cbn; auto.
Qed.

Lemma fps_counts_frames_witness :
  let d := constructor 0 None in
  let frames := [(Glider.constructor tt, 16); (Glider.constructor tt, 33)] in
  let d1 := run (map (fun e => Frame (fst e) (snd e)) frames) d in
  let d2 := update (Glider.constructor tt) 1000 d1 in
  frameCount d1 = (frameCount d + Z.of_nat (List.length frames))%Z /\
  currentFps d1 = currentFps d /\
  currentFps d2 = (frameCount d + Z.of_nat (List.length frames) + 1)%Z /\
  frameCount d2 = 0%Z /\
  lastFpsUpdate d2 = 1000.
Proof.
  intros d frames.
  apply (fps_counts_frames frames (Glider.constructor tt) 1000 d).
  - repeat constructor; cbn; lra.
  - cbn. lra.
Defined.

End DebugExtra.
